(** * Lightning peer core of [lib/lnbase.py]: wire codec, transport counters,
    and the per-message handlers of [Peer].

    The development is a shallow embedding.  Python [bytes] are [list byte],
    Python [int] is [Z], [dict]s are [gmap]s (ordered ones are association
    lists), raised exceptions are the [Raise] branch of [result], and code
    that mutates the peer threads an explicit state that survives a raise.
    External collaborators (HMAC-SHA256, ChaCha20-Poly1305, the commitment
    engine, the wallet, the onion decoder) are parameters. *)

From Stdlib Require Import ZArith List String Ascii Lia.
From Stdlib.Strings Require Import Byte.
From Stdlib Require Import PrimFloat.
From Equations Require Import Equations.
From stdpp Require Import gmap strings list pretty.

Open Scope Z_scope.

(** ** Python values and exceptions *)

Abbreviation bytes := (list byte).

#[global] Instance byte_eq_dec : EqDecision byte := Byte.byte_eq_dec.

#[global] Program Instance byte_countable : Countable byte :=
  inj_countable' Byte.to_N
    (fun n => match Byte.of_N n with Some b => b | None => x00 end) _.
Next Obligation. intros b. simpl. rewrite Byte.of_to_N. reflexivity. Qed.

(** The exceptions that the modelled code can raise.  [Exception] carries the
    formatted message of a bare [raise Exception(...)]. *)
Inductive pyerr : Type :=
| KeyError
| ValueError
| TypeError
| OverflowError
| AssertionError
| IndexError
| UnboundLocalError
| InvalidStateError
| AttributeError
| Exception (msg : string).

#[global] Instance pyerr_eq_dec : EqDecision pyerr.
Proof. solve_decision. Defined.

Inductive result (A : Type) : Type :=
| Ok (a : A)
| Raise (e : pyerr).
Arguments Ok {A} a.
Arguments Raise {A} e.

#[global] Instance result_ret : MRet result := fun A a => Ok a.
#[global] Instance result_bind : MBind result := fun A B f m =>
  match m with Ok a => f a | Raise e => Raise e end.
#[global] Instance result_fmap : FMap result := fun A B f m =>
  match m with Ok a => Ok (f a) | Raise e => Raise e end.

Definition is_ok {A} (r : result A) : bool :=
  match r with Ok _ => true | Raise _ => false end.

(** [d[k]] on a dict. *)
Definition getitem {K A} `{Countable K} (d : gmap K A) (k : K) : result A :=
  match d !! k with Some a => Ok a | None => Raise KeyError end.

(** [assert c] *)
Definition assert (c : bool) : result unit :=
  if c then Ok tt else Raise AssertionError.

(** Values that reach the codec as keyword arguments or dict entries:
    [int], [bytes], and [None] (a channel's [short_channel_id] before the
    funding is buried). *)
Inductive pyval : Type :=
| VInt (n : Z)
| VBytes (b : bytes)
| VNone.

#[global] Instance pyval_eq_dec : EqDecision pyval.
Proof. solve_decision. Defined.

(** ** Integers and byte strings *)

Definition byte_to_Z (b : byte) : Z := Z.of_N (Byte.to_N b).

Definition byte_of_Z (n : Z) : byte :=
  match Byte.of_N (Z.to_N (n mod 256)) with Some b => b | None => x00 end.

(** [int.from_bytes(b, 'big')] *)
Definition int_from_bytes (b : bytes) : Z :=
  fold_left (fun acc x => 256 * acc + byte_to_Z x) b 0.

(** The [len] big-endian digits of [n], least significant last. *)
Fixpoint be_digits (len : nat) (n : Z) : bytes :=
  match len with
  | O => []
  | S len' => be_digits len' (n / 256) ++ [byte_of_Z n]
  end.

(** [n.to_bytes(length, 'big')]: a negative length is a [ValueError], a
    negative or over-wide [n] an [OverflowError]. *)
Definition to_bytes (n length : Z) : result bytes :=
  if length <? 0 then Raise ValueError
  else if n <? 0 then Raise OverflowError
  else if 256 ^ length <=? n then Raise OverflowError
  else Ok (be_digits (Z.to_nat length) n).

(** [n.to_bytes(length, 'little')] *)
Definition to_bytes_little (n length : Z) : result bytes :=
  b ← to_bytes n length; Ok (reverse b).

Definition len {A} (l : list A) : Z := Z.of_nat (length l).

(** Clamping of one slice bound, as [PySlice_AdjustIndices] does for step 1. *)
Definition adjust_index (i n : Z) : Z :=
  if i <? 0 then Z.max (i + n) 0 else Z.min i n.

(** [data[i:j]] *)
Definition slice {A} (data : list A) (i j : Z) : list A :=
  let n := len data in
  let i' := adjust_index i n in
  let j' := adjust_index j n in
  take (Z.to_nat (j' - i')) (drop (Z.to_nat i') data).

(** [data[i:]] and [data[:j]] *)
Definition slice_from {A} (data : list A) (i : Z) : list A :=
  drop (Z.to_nat (adjust_index i (len data))) data.
Definition slice_to {A} (data : list A) (j : Z) : list A :=
  take (Z.to_nat (adjust_index j (len data))) data.

(** ** [int(x)] on text

    CPython's [PyLong_FromString] in base 10: optional surrounding white
    space, an optional sign, then decimal digits that may be separated by
    single underscores; the whole input has to be consumed.  The same
    grammar serves [int(str)] and [int(bytes)]; only the white space set
    differs.  Strings are modelled with code points below 256: [int(str)]
    keeps an ASCII character as it is and turns a non-ASCII Unicode space
    (here U+0085 and U+00A0) into a blank before the same scan, so the
    separators U+001C to U+001F are not white space for it. *)

Definition is_space_bytes (c : byte) : bool :=
  let n := byte_to_Z c in ((9 <=? n) && (n <=? 13)) || (n =? 32).

Definition is_space_str (c : byte) : bool :=
  let n := byte_to_Z c in
  ((9 <=? n) && (n <=? 13)) || (n =? 32) || (n =? 133) || (n =? 160).

Definition is_digit (c : byte) : bool :=
  let n := byte_to_Z c in (48 <=? n) && (n <=? 57).

Definition digit_value (c : byte) : Z := byte_to_Z c - 48.

(** Digits and underscores after the first digit; [prev_us] records that the
    previous character was an underscore.  Returns the value and the rest. *)
Fixpoint scan_digits (acc : Z) (prev_us : bool) (s : bytes) : option (Z * bytes) :=
  match s with
  | [] => if prev_us then None else Some (acc, [])
  | c :: s' =>
      if is_digit c then scan_digits (10 * acc + digit_value c) false s'
      else if bool_decide (c = "_"%byte) then
        if prev_us then None else scan_digits acc true s'
      else if prev_us then None else Some (acc, s)
  end.

Fixpoint skip_spaces (is_space : byte -> bool) (s : bytes) : bytes :=
  match s with
  | c :: s' => if is_space c then skip_spaces is_space s' else s
  | [] => []
  end.

Definition parse_int (is_space : byte -> bool) (s : bytes) : option Z :=
  let s1 := skip_spaces is_space s in
  let '(sign, s2) :=
    match s1 with
    | c :: r => if bool_decide (c = "+"%byte) then (1, r)
                else if bool_decide (c = "-"%byte) then (-1, r)
                else (1, s1)
    | [] => (1, s1)
    end in
  match s2 with
  | c :: _ =>
      if is_digit c then
        match scan_digits 0 false s2 with
        | Some (n, rest) =>
            match skip_spaces is_space rest with
            | [] => Some (sign * n)
            | _ :: _ => None
            end
        | None => None
        end
      else None
  | [] => None
  end.

Definition str_bytes (s : string) : bytes := list_byte_of_string s.

(** [int(s)] for a [str]: [None] stands for [ValueError]. *)
Definition int_of_str (s : string) : option Z := parse_int is_space_str (str_bytes s).

(** [int(b)] for a [bytes] object. *)
Definition int_of_bytes_literal (b : bytes) : option Z := parse_int is_space_bytes b.

(** [s.split(sep)] for a one-character separator. *)
Fixpoint split (sep : ascii) (s : string) : list string :=
  match s with
  | EmptyString => [EmptyString]
  | String c s' =>
      if bool_decide (c = sep) then EmptyString :: split sep s'
      else match split sep s' with
           | w :: ws => String c w :: ws
           | [] => [String c EmptyString]
           end
  end.

(** [c in s] for a one-character [c]. *)
Fixpoint contains (c : ascii) (s : string) : bool :=
  match s with
  | EmptyString => false
  | String c' s' => bool_decide (c' = c) || contains c s'
  end.

(** ** The length-expression language *)

(** [handlesingle(x, ma)] *)
Definition handlesingle (x : string) (ma : gmap string pyval) : result Z :=
  x ← match int_of_str x with
      | Some n => Ok (VInt n)
      | None => getitem ma x
      end;
  match x with
  | VInt n => Ok n
  | VBytes b =>
      match int_of_bytes_literal b with
      | Some n => Ok n
      | None => Ok (int_from_bytes b)
      end
  | VNone => Raise TypeError
  end.

Fixpoint product_terms (terms : list string) (ma : gmap string pyval) (acc : Z) : result Z :=
  match terms with
  | [] => Ok acc
  | term :: terms' =>
      x ← handlesingle term ma;
      product_terms terms' ma (acc * x)
  end.

Fixpoint sum_terms (terms : list string) (ma : gmap string pyval) (acc : Z) : result Z :=
  match terms with
  | [] => Ok acc
  | term :: terms' =>
      x ← handlesingle term ma;
      sum_terms terms' ma (acc + x)
  end.

(** [calcexp(exp, ma)] *)
Definition calcexp (exp : string) (ma : gmap string pyval) : result Z :=
  if contains "*" exp then
    _ ← assert (negb (contains "+" exp));
    product_terms (split "*" exp) ma 1
  else sum_terms (split "+" exp) ma 0.

(** ** The wire schema

    [structured] is the [OrderedDict] read from [lightning.json]: message
    name to [{type, payload}], the payload an ordered mapping from field
    name to [{position, length, [feature]}].  Ordered dicts are association
    lists in key order, with distinct keys. *)

Record poslen : Type := PosLen {
  position : string;
  length_exp : string;
  feature : option string
}.

Record message : Type := Message {
  type : string;
  payload : list (string * poslen)
}.

Abbreviation schema := (list (string * message)).

Definition has_feature (p : poslen) : bool :=
  match feature p with Some _ => true | None => false end.

(** [d[k]] on an ordered dict. *)
Fixpoint ordered_getitem {A} (d : list (string * A)) (k : string) : result A :=
  match d with
  | [] => Raise KeyError
  | (k', v) :: d' => if bool_decide (k' = k) then Ok v else ordered_getitem d' k
  end.

(** ** Decoding *)

(** The loop of [make_handler(k, v)]'s [handler(data)], folded over the
    remaining fields with the running [ma] and [pos]. *)
Fixpoint handler_loop (fields : list (string * poslen)) (data : bytes)
    (ma : gmap string pyval) (pos : Z) : result (gmap string pyval * Z) :=
  match fields with
  | [] => Ok (ma, pos)
  | (fieldname, poslenMap) :: fields' =>
      if has_feature poslenMap && (pos =? len data) then
        handler_loop fields' data ma pos
      else
        p ← calcexp (position poslenMap) ma;
        _ ← assert (pos =? p);
        length ← calcexp (length_exp poslenMap) ma;
        handler_loop fields' data
          (<[fieldname := VBytes (slice data pos (pos + length))]> ma)
          (pos + length)
  end.

(** [make_handler(k, v)(data)] *)
Definition handler (k : string) (v : message) (data : bytes)
    : result (string * gmap string pyval) :=
  '(ma, pos) ← handler_loop (payload v) data ∅ 0;
  _ ← assert (pos =? len data);
  Ok (k, ma).

(** One iteration of the module-level loop that fills [message_types]; the
    handler closure is represented by the pair [(k, v)] it captures. *)
Definition register (message_types : gmap bytes (string * message))
    (k : string) (v : message) : result (gmap bytes (string * message)) :=
  if bool_decide (k ∈ ["final_incorrect_cltv_expiry"; "final_incorrect_htlc_amount"]%string)
  then Ok message_types
  else if (len (payload v) =? 0) then Ok message_types
  else match int_of_str (type v) with
       | None => Ok message_types
       | Some num =>
           byts ← to_bytes num 2;
           _ ← assert (bool_decide (message_types !! byts = None));
           let names := (fun h => fst h) <$> (snd <$> map_to_list message_types) in
           _ ← assert (bool_decide (k ∉ names));
           Ok (<[byts := (k, v)]> message_types)
       end.

Fixpoint register_all (structured : schema) (message_types : gmap bytes (string * message))
    : result (gmap bytes (string * message)) :=
  match structured with
  | [] => Ok message_types
  | (k, v) :: rest =>
      mt ← register message_types k v;
      register_all rest mt
  end.

(** The value of the global [message_types] once the module has been
    imported, including the final assertion on the [init] handler. *)
Definition load_message_types (structured : schema) : result (gmap bytes (string * message)) :=
  mt ← register_all structured ∅;
  h ← getitem mt [x00; x10];
  _ ← assert (bool_decide (fst h = "init"%string));
  Ok mt.

(** [decode_msg(data)] *)
Definition decode_msg (message_types : gmap bytes (string * message)) (data : bytes)
    : result (string * gmap string pyval) :=
  let typ := slice_to data 2 in
  h ← getitem message_types typ;
  handler (fst h) (snd h) (slice_from data 2).

(** ** Encoding *)

(** [str(n)] for an [int]. *)
Definition str_of_int (n : Z) : string := pretty n.

(** The body of [gen_msg]'s loop for one field that is not a feature field:
    the bytes appended to [data], given the [lengths] bound so far. *)
Definition encode_field (k : string) (poslenMap : poslen)
    (kwargs lengths : gmap string pyval) : result bytes :=
  leng ← calcexp (length_exp poslenMap) lengths;
  leng ← (let clone := kwargs ∪ lengths in
          match calcexp (length_exp poslenMap) clone with
          | Ok l => Ok l
          | Raise KeyError => Ok leng
          | Raise e => Raise e
          end);
  let param := default (VInt 0) (kwargs !! k) in
  param ← match param with
          | VBytes b => Ok b
          | VInt n =>
              match to_bytes n leng with
              | Ok b => Ok b
              | Raise ValueError =>
                  Raise (Exception (k +:+ " does not fit in " +:+ str_of_int leng +:+ " bytes"))
              | Raise e => Raise e
              end
          | VNone => Raise AssertionError
          end;
  if bool_decide (len param ≠ leng) then
    Raise (Exception ("field " +:+ k +:+ " is " +:+ str_of_int (len param)
                      +:+ " bytes long, should be " +:+ str_of_int leng +:+ " bytes long"))
  else Ok param.

Fixpoint gen_loop (fields : list (string * poslen)) (kwargs lengths : gmap string pyval)
    (data : bytes) : result bytes :=
  match fields with
  | [] => Ok data
  | (k, poslenMap) :: fields' =>
      if has_feature poslenMap then gen_loop fields' kwargs lengths data
      else
        param ← encode_field k poslenMap kwargs lengths;
        gen_loop fields' kwargs (<[k := VInt (len param)]> lengths) (data ++ param)
  end.

(** The body of [gen_msg(msg_type, **kwargs)], run on the dict [kwargs] that
    it sees.  A call that passes a keyword named [msg_type] fails before the
    body runs; [gen_msg_call] below is the call with that check. *)
Definition gen_msg (structured : schema) (msg_type : string) (kwargs : gmap string pyval)
    : result bytes :=
  typ ← ordered_getitem structured msg_type;
  num ← match int_of_str (type typ) with Some n => Ok n | None => Raise ValueError end;
  data ← to_bytes num 2;
  gen_loop (payload typ) kwargs ∅ data.

(** The fields that [gen_msg] emits, in order, each with the bytes appended
    for it: the [param]s of [gen_loop]. *)
Fixpoint gen_fields (fields : list (string * poslen)) (kwargs lengths : gmap string pyval)
    : result (list (string * bytes)) :=
  match fields with
  | [] => Ok []
  | (k, poslenMap) :: fields' =>
      if has_feature poslenMap then gen_fields fields' kwargs lengths
      else
        param ← encode_field k poslenMap kwargs lengths;
        rest ← gen_fields fields' kwargs (<[k := VInt (len param)]> lengths);
        Ok ((k, param) :: rest)
  end.

(** The terms of an expression as [calcexp] splits it, and those among them
    that are names rather than integer literals. *)
Definition terms (exp : string) : list string :=
  if contains "*" exp then split "*" exp else split "+" exp.

Definition variables (exp : string) : list string :=
  List.filter (fun t => negb (bool_decide (is_Some (int_of_str t)))) (terms exp).

(** The names that the length expressions of the encoded fields refer to. *)
Definition length_variables (fields : list (string * poslen)) : list string :=
  mjoin ((fun kp => variables (length_exp kp.2))
           <$> List.filter (fun kp => negb (has_feature kp.2)) fields).

(** Feature fields come last. *)
Fixpoint features_trailing (fields : list (string * poslen)) : bool :=
  match fields with
  | [] => true
  | (_, p) :: fields' =>
      if has_feature p then forallb (fun kp => has_feature kp.2) fields'
      else features_trailing fields'
  end.

(** In the environment [ma], each position expression of [fields] evaluates
    to [pos] plus the lengths of the fields before it, as far as those
    lengths evaluate. *)
Fixpoint positions_from (fields : list (string * poslen)) (ma : gmap string pyval) (pos : Z)
    : Prop :=
  match fields with
  | [] => True
  | (_, p) :: fields' =>
      calcexp (position p) ma = Ok pos
      /\ forall l, calcexp (length_exp p) ma = Ok l -> positions_from fields' ma (pos + l)
  end.

(** The encoder's clone and the decoder's [ma] give the same value to every
    name of [V] that is bound so far. *)
Definition agree (kw : gmap string pyval) (V : list string)
    (lengths ma : gmap string pyval) : Prop :=
  forall x, x ∈ V -> is_Some (lengths !! x) ->
    handlesingle x (kw ∪ lengths) = handlesingle x ma.

(** The schema with every feature field removed from every payload. *)
Definition without_features (typ : message) : message :=
  Message (type typ) (List.filter (fun kp => negb (has_feature kp.2)) (payload typ)).

Definition strip_features (s : schema) : schema :=
  (fun kv => (kv.1, without_features kv.2)) <$> s.

(** ** Schema entries used by the peer itself *)

(** Modelled from the spec: [lightning.json] is not part of the sources.  The
    [init] entry follows the field names the peer passes to [gen_msg]
    ([gflen], [lflen], [localfeatures]), the type code asserted by the loader
    (16), and the byte strings of the codec scenario; [globalfeatures] is the
    [gflen]-byte field that BOLT 1 places between the two length fields. *)
Definition init_message : message :=
  Message "16"
    [("gflen", PosLen "0" "2" None);
     ("globalfeatures", PosLen "2" "gflen" None);
     ("lflen", PosLen "2+gflen" "2" None);
     ("localfeatures", PosLen "4+gflen" "lflen" None)]%string.

(** Modelled from the spec: the [ping] entry of the absent [lightning.json],
    with the two fields the peer sets ([num_pong_bytes], [byteslen]) followed
    by BOLT 1's [byteslen]-byte [ignored] padding. *)
Definition ping_message : message :=
  Message "18"
    [("num_pong_bytes", PosLen "0" "2" None);
     ("byteslen", PosLen "2" "2" None);
     ("ignored", PosLen "4" "byteslen" None)]%string.

(** Modelled from the spec: the [pong] entry of the absent [lightning.json]
    (type 19, as the loader's comment says), with the [byteslen] field that
    [on_ping] sets and its padding. *)
Definition pong_message : message :=
  Message "19"
    [("byteslen", PosLen "0" "2" None);
     ("ignored", PosLen "2" "byteslen" None)]%string.

(** The part of the schema that the transport-level code of [Peer] needs. *)
Definition base_schema : schema :=
  [("init", init_message); ("ping", ping_message); ("pong", pong_message)]%string.

(** Modelled from the spec: the [channel_reestablish] entry of the absent
    [lightning.json], with the three fields the peer sets and the two
    [option_data_loss_protect] trailers of BOLT 2, which are feature fields. *)
Definition channel_reestablish_message : message :=
  Message "136"
    [("channel_id", PosLen "0" "32" None);
     ("next_local_commitment_number", PosLen "32" "8" None);
     ("next_remote_revocation_number", PosLen "40" "8" None);
     ("your_last_per_commitment_secret", PosLen "48" "32" (Some "option_data_loss_protect"));
     ("my_current_per_commitment_point", PosLen "80" "33" (Some "option_data_loss_protect"))]%string.

(** ** Collaborators

    Everything [lnbase.py] imports and calls without defining: the hash and
    cipher primitives, signature checks, the onion decoder, key derivation,
    script construction, and the module globals computed at import time. *)

Record Keypair : Type := MkKeypair { pubkey : bytes; privkey : option bytes }.

(** [OnlyPubkeyKeypair(pubkey)] *)
Definition OnlyPubkeyKeypair (pk : bytes) : Keypair := MkKeypair pk None.

Record ChannelConfig : Type := MkChannelConfig {
  payment_basepoint : Keypair;
  multisig_key : Keypair;
  htlc_basepoint : Keypair;
  delayed_basepoint : Keypair;
  revocation_basepoint : Keypair;
  to_self_delay : Z;
  dust_limit_sat : Z;
  max_htlc_value_in_flight_msat : Z;
  max_accepted_htlcs : Z
}.

Record Outpoint : Type := MkOutpoint { outpoint_txid : string; output_index : Z }.

Record RemoteState : Type := MkRemoteState {
  remote_ctn : Z;
  next_per_commitment_point : bytes;
  current_per_commitment_point : option bytes;
  remote_amount_msat : Z;
  revocation_store : list bytes;
  remote_next_htlc_id : Z;
  remote_feerate : Z
}.

Record LocalState : Type := MkLocalState {
  local_ctn : Z;
  per_commitment_secret_seed : bytes;
  local_amount_msat : Z;
  local_next_htlc_id : Z;
  funding_locked_received : bool;
  was_announced : bool;
  current_commitment_signature : option bytes;
  local_feerate : Z
}.

Record ChannelConstraints : Type := MkChannelConstraints {
  capacity : Z;
  is_initiator : bool;
  funding_txn_minimum_depth : Z
}.

(** The channel record, both as the [chan] dict built by the open flow and
    as the attributes of the [HTLCStateMachine] made from it. *)
Record Channel : Type := MkChannel {
  node_id : bytes;
  channel_id : bytes;
  short_channel_id : option bytes;
  funding_outpoint : Outpoint;
  local_config : ChannelConfig;
  remote_config : ChannelConfig;
  remote_state : RemoteState;
  local_state : LocalState;
  constraints : ChannelConstraints
}.

(** An output handed to the wallet: [(type, address, amount)]. *)
Definition tx_output : Type := Z * string * Z.

Record Transaction : Type := MkTransaction {
  txid : string;
  outputs : list tx_output
}.

Record RouteEdge : Type := MkRouteEdge {
  edge_node_id : bytes;
  edge_short_channel_id : bytes
}.

Record OnionRoutingFailureMessage : Type := MkFailure { code : Z; data : bytes }.

Class Env : Type := {
  (** the globals [structured] and [message_types] *)
  structured : schema;
  message_types : gmap bytes (string * message);
  (** [hmac.new(key, msg, hashlib.sha256).digest()] *)
  hmac_sha256 : bytes -> bytes -> bytes;
  (** [AEAD.ChaCha20Poly1305(k).encrypt(nonce, data, associated_data)] *)
  chacha20poly1305_encrypt : bytes -> bytes -> bytes -> bytes -> bytes;
  (** [ecc.verify_signature(pubkey, signature, h)] and [bitcoin.Hash] *)
  verify_signature : bytes -> bytes -> bytes -> bool;
  Hash : bytes -> bytes;
  (** [lnrouter.decode_onion_error(reason, node_ids, secret_key)] *)
  decode_onion_error : bytes -> list bytes -> bytes -> result (OnionRoutingFailureMessage * Z);
  (** [REV_GENESIS] and [bitcoin.TYPE_ADDRESS] *)
  REV_GENESIS : bytes;
  TYPE_ADDRESS : Z;
  (** the [Keypair] made of [wallet.keystore.get_keypair([family, i], password)] *)
  get_keypair : Z -> Z -> string -> result Keypair;
  get_per_commitment_secret_from_seed : bytes -> Z -> bytes;
  secret_to_pubkey : Z -> bytes;
  funding_output_script : ChannelConfig -> ChannelConfig -> result string;
  redeem_script_to_address : string -> string -> result string;
  (** [wallet.mktx(outputs, password, config, 1000)] *)
  mktx : list tx_output -> string -> result Transaction;
  (** [HTLCStateMachine(chan)] and the two methods the open flow calls *)
  HTLCStateMachine : Channel -> Channel;
  sign_next_commitment : Channel -> result (bytes * list bytes * Channel);
  receive_new_commitment : Channel -> bytes -> list bytes -> result Channel;
  (** [network.broadcast_transaction(tx)] *)
  broadcast_transaction : Transaction -> bool * string
}.

(** ** BOLT 8 key derivation *)

(** [get_nonce_bytes(n)] *)
Definition get_nonce_bytes (n : Z) : result bytes :=
  b ← to_bytes_little n 8;
  Ok (replicate 4 x00 ++ b).

(** [aead_encrypt(k, nonce, associated_data, data)] *)
Definition aead_encrypt `{Env} (k : bytes) (nonce : Z) (associated_data data : bytes)
    : result bytes :=
  nonce_bytes ← get_nonce_bytes nonce;
  Ok (chacha20poly1305_encrypt k nonce_bytes data associated_data).

(** [get_bolt8_hkdf(salt, ikm)] *)
Definition get_bolt8_hkdf `{Env} (salt ikm : bytes) : result (bytes * bytes) :=
  let prk := hmac_sha256 salt ikm in
  _ ← assert (len prk =? 32);
  let info : bytes := [] in
  let T0 : bytes := [] in
  let T1 := hmac_sha256 prk (T0 ++ info ++ [x01]) in
  let T2 := hmac_sha256 prk (T1 ++ info ++ [x02]) in
  _ ← assert (len (T1 ++ T2) =? 64);
  Ok (T1, T2).

(** ** The peer

    [Peer] holds the attributes of the Python object that the modelled
    methods touch, together with the parts of the outside world they act on:
    [network.lightning_nodes], [network.path_finder.blacklist], the wall
    clock read by [time.time()], and the [trace] of calls made on the
    stream writer, the wallet and the network.  [print] and [print_error]
    output is not modelled. *)

Inductive Future : Type :=
| Pending
| Done (value : bool)
| Cancelled.

Inductive host : Type :=
| HostStr (s : string)
| HostBytes (b : bytes).

Definition address : Type := host * Z.

Inductive event : Type :=
| EvWrite (data : bytes)
| EvCallback (name : string) (chan_id : bytes)
| EvMktx (outs : list tx_output) (password : string)
| EvBroadcast (tx : Transaction).

Record Peer : Type := MkPeer {
  sk : bytes;
  rk : bytes;
  s_ck : bytes;
  r_ck : bytes;
  _sn : Z;
  _rn : Z;
  ping_time : float;
  peer_pubkey : bytes;
  channels : gmap bytes Channel;
  channel_state : gmap bytes string;
  channel_reestablished : gmap bytes Future;
  update_fail_htlc : gmap bytes (list string);
  attempted_route : gmap (bytes * Z) (list RouteEdge);
  secret_key : option bytes;
  lightning_nodes : gmap bytes (bytes * list address);
  blacklist : gset bytes;
  clock : float;
  trace : list event;
  (** [self.s], which [on_node_announcement] assigns and consumes; [None]
      while the attribute does not exist *)
  peer_s : option bytes
}.

Definition set_sk (v : bytes) (p : Peer) : Peer :=
  MkPeer v (rk p) (s_ck p) (r_ck p) (_sn p) (_rn p) (ping_time p)
    (peer_pubkey p) (channels p) (channel_state p) (channel_reestablished p)
    (update_fail_htlc p) (attempted_route p) (secret_key p)
    (lightning_nodes p) (blacklist p) (clock p) (trace p) (peer_s p).

Definition set_rk (v : bytes) (p : Peer) : Peer :=
  MkPeer (sk p) v (s_ck p) (r_ck p) (_sn p) (_rn p) (ping_time p)
    (peer_pubkey p) (channels p) (channel_state p) (channel_reestablished p)
    (update_fail_htlc p) (attempted_route p) (secret_key p)
    (lightning_nodes p) (blacklist p) (clock p) (trace p) (peer_s p).

Definition set_s_ck (v : bytes) (p : Peer) : Peer :=
  MkPeer (sk p) (rk p) v (r_ck p) (_sn p) (_rn p) (ping_time p)
    (peer_pubkey p) (channels p) (channel_state p) (channel_reestablished p)
    (update_fail_htlc p) (attempted_route p) (secret_key p)
    (lightning_nodes p) (blacklist p) (clock p) (trace p) (peer_s p).

Definition set_r_ck (v : bytes) (p : Peer) : Peer :=
  MkPeer (sk p) (rk p) (s_ck p) v (_sn p) (_rn p) (ping_time p)
    (peer_pubkey p) (channels p) (channel_state p) (channel_reestablished p)
    (update_fail_htlc p) (attempted_route p) (secret_key p)
    (lightning_nodes p) (blacklist p) (clock p) (trace p) (peer_s p).

Definition set_sn (v : Z) (p : Peer) : Peer :=
  MkPeer (sk p) (rk p) (s_ck p) (r_ck p) v (_rn p) (ping_time p)
    (peer_pubkey p) (channels p) (channel_state p) (channel_reestablished p)
    (update_fail_htlc p) (attempted_route p) (secret_key p)
    (lightning_nodes p) (blacklist p) (clock p) (trace p) (peer_s p).

Definition set_rn (v : Z) (p : Peer) : Peer :=
  MkPeer (sk p) (rk p) (s_ck p) (r_ck p) (_sn p) v (ping_time p)
    (peer_pubkey p) (channels p) (channel_state p) (channel_reestablished p)
    (update_fail_htlc p) (attempted_route p) (secret_key p)
    (lightning_nodes p) (blacklist p) (clock p) (trace p) (peer_s p).

Definition set_ping_time (v : float) (p : Peer) : Peer :=
  MkPeer (sk p) (rk p) (s_ck p) (r_ck p) (_sn p) (_rn p) v (peer_pubkey p)
    (channels p) (channel_state p) (channel_reestablished p)
    (update_fail_htlc p) (attempted_route p) (secret_key p)
    (lightning_nodes p) (blacklist p) (clock p) (trace p) (peer_s p).

Definition set_peer_pubkey (v : bytes) (p : Peer) : Peer :=
  MkPeer (sk p) (rk p) (s_ck p) (r_ck p) (_sn p) (_rn p) (ping_time p) v
    (channels p) (channel_state p) (channel_reestablished p)
    (update_fail_htlc p) (attempted_route p) (secret_key p)
    (lightning_nodes p) (blacklist p) (clock p) (trace p) (peer_s p).

Definition set_channels (v : gmap bytes Channel) (p : Peer) : Peer :=
  MkPeer (sk p) (rk p) (s_ck p) (r_ck p) (_sn p) (_rn p) (ping_time p)
    (peer_pubkey p) v (channel_state p) (channel_reestablished p)
    (update_fail_htlc p) (attempted_route p) (secret_key p)
    (lightning_nodes p) (blacklist p) (clock p) (trace p) (peer_s p).

Definition set_channel_state (v : gmap bytes string) (p : Peer) : Peer :=
  MkPeer (sk p) (rk p) (s_ck p) (r_ck p) (_sn p) (_rn p) (ping_time p)
    (peer_pubkey p) (channels p) v (channel_reestablished p)
    (update_fail_htlc p) (attempted_route p) (secret_key p)
    (lightning_nodes p) (blacklist p) (clock p) (trace p) (peer_s p).

Definition set_channel_reestablished (v : gmap bytes Future) (p : Peer) : Peer :=
  MkPeer (sk p) (rk p) (s_ck p) (r_ck p) (_sn p) (_rn p) (ping_time p)
    (peer_pubkey p) (channels p) (channel_state p) v (update_fail_htlc p)
    (attempted_route p) (secret_key p) (lightning_nodes p) (blacklist p)
    (clock p) (trace p) (peer_s p).

Definition set_update_fail_htlc (v : gmap bytes (list string)) (p : Peer) : Peer :=
  MkPeer (sk p) (rk p) (s_ck p) (r_ck p) (_sn p) (_rn p) (ping_time p)
    (peer_pubkey p) (channels p) (channel_state p) (channel_reestablished p)
    v (attempted_route p) (secret_key p) (lightning_nodes p) (blacklist p)
    (clock p) (trace p) (peer_s p).

Definition set_attempted_route (v : gmap (bytes * Z) (list RouteEdge)) (p : Peer) : Peer :=
  MkPeer (sk p) (rk p) (s_ck p) (r_ck p) (_sn p) (_rn p) (ping_time p)
    (peer_pubkey p) (channels p) (channel_state p) (channel_reestablished p)
    (update_fail_htlc p) v (secret_key p) (lightning_nodes p) (blacklist p)
    (clock p) (trace p) (peer_s p).

Definition set_secret_key (v : option bytes) (p : Peer) : Peer :=
  MkPeer (sk p) (rk p) (s_ck p) (r_ck p) (_sn p) (_rn p) (ping_time p)
    (peer_pubkey p) (channels p) (channel_state p) (channel_reestablished p)
    (update_fail_htlc p) (attempted_route p) v (lightning_nodes p)
    (blacklist p) (clock p) (trace p) (peer_s p).

Definition set_lightning_nodes (v : gmap bytes (bytes * list address)) (p : Peer) : Peer :=
  MkPeer (sk p) (rk p) (s_ck p) (r_ck p) (_sn p) (_rn p) (ping_time p)
    (peer_pubkey p) (channels p) (channel_state p) (channel_reestablished p)
    (update_fail_htlc p) (attempted_route p) (secret_key p) v (blacklist p)
    (clock p) (trace p) (peer_s p).

Definition set_blacklist (v : gset bytes) (p : Peer) : Peer :=
  MkPeer (sk p) (rk p) (s_ck p) (r_ck p) (_sn p) (_rn p) (ping_time p)
    (peer_pubkey p) (channels p) (channel_state p) (channel_reestablished p)
    (update_fail_htlc p) (attempted_route p) (secret_key p)
    (lightning_nodes p) v (clock p) (trace p) (peer_s p).

Definition set_clock (v : float) (p : Peer) : Peer :=
  MkPeer (sk p) (rk p) (s_ck p) (r_ck p) (_sn p) (_rn p) (ping_time p)
    (peer_pubkey p) (channels p) (channel_state p) (channel_reestablished p)
    (update_fail_htlc p) (attempted_route p) (secret_key p)
    (lightning_nodes p) (blacklist p) v (trace p) (peer_s p).

Definition set_trace (v : list event) (p : Peer) : Peer :=
  MkPeer (sk p) (rk p) (s_ck p) (r_ck p) (_sn p) (_rn p) (ping_time p)
    (peer_pubkey p) (channels p) (channel_state p) (channel_reestablished p)
    (update_fail_htlc p) (attempted_route p) (secret_key p)
    (lightning_nodes p) (blacklist p) (clock p) v (peer_s p).

Definition set_peer_s (v : option bytes) (p : Peer) : Peer :=
  MkPeer (sk p) (rk p) (s_ck p) (r_ck p) (_sn p) (_rn p) (ping_time p)
    (peer_pubkey p) (channels p) (channel_state p) (channel_reestablished p)
    (update_fail_htlc p) (attempted_route p) (secret_key p)
    (lightning_nodes p) (blacklist p) (clock p) (trace p) v.

(** Methods of [Peer]: a state transformer whose state survives a raise. *)
Definition M (A : Type) : Type := Peer -> Peer * result A.

#[global] Instance M_ret : MRet M := fun A a p => (p, Ok a).
#[global] Instance M_bind : MBind M := fun A B f m p =>
  match m p with
  | (p', Ok a) => f a p'
  | (p', Raise e) => (p', Raise e)
  end.

Definition lift {A} (r : result A) : M A := fun p => (p, r).
Definition raise {A} (e : pyerr) : M A := fun p => (p, Raise e).
Definition gets {A} (f : Peer -> A) : M A := fun p => (p, Ok (f p)).
Definition modify (f : Peer -> Peer) : M unit := fun p => (f p, Ok tt).

(** Appends one call to the world's trace. *)
Definition emit (e : event) : M unit := modify (fun p => set_trace (trace p ++ [e]) p).

(** [self.writer.write(data)] *)
Definition writer_write (data : bytes) : M unit := emit (EvWrite data).

(** [time.time()] *)
Definition time_time : M float := gets clock.

Section PeerMethods.
Context `{Env}.

(** [Peer.rn] *)
Definition rn : M (Z * bytes) := fun p =>
  let o := (_rn p, rk p) in
  let p := set_rn (_rn p + 1) p in
  if _rn p =? 1000 then
    match get_bolt8_hkdf (r_ck p) (rk p) with
    | Ok (ck, k) => (set_rn 0 (set_rk k (set_r_ck ck p)), Ok o)
    | Raise e => (p, Raise e)
    end
  else (p, Ok o).

(** [Peer.sn] *)
Definition sn : M Z := fun p =>
  let o := _sn p in
  let p := set_sn (_sn p + 1) p in
  if _sn p =? 1000 then
    match get_bolt8_hkdf (s_ck p) (sk p) with
    | Ok (ck, k) => (set_sn 0 (set_sk k (set_s_ck ck p)), Ok o)
    | Raise e => (p, Raise e)
    end
  else (p, Ok o).

(** [Peer.send_message] *)
Definition send_message (msg : bytes) : M unit :=
  _ ← lift (decode_msg message_types msg);
  l ← lift (to_bytes (len msg) 2);
  k ← gets sk;
  n ← sn;
  lc ← lift (aead_encrypt k n [] l);
  k ← gets sk;
  n ← sn;
  c ← lift (aead_encrypt k n [] msg);
  _ ← lift (assert (len lc =? 18));
  _ ← lift (assert (len c =? len msg + 16));
  writer_write (lc ++ c).

(** Keyword arguments of a [gen_msg] call. *)
Definition kwargs (l : list (string * pyval)) : gmap string pyval := list_to_map l.

(** [Peer.ping_if_required] *)
Definition ping_if_required : M unit :=
  now ← time_time;
  last ← gets ping_time;
  if PrimFloat.ltb 120%float (PrimFloat.sub now last) then
    msg ← lift (gen_msg structured "ping"
                  (kwargs [("num_pong_bytes", VInt 4); ("byteslen", VInt 4)]%string));
    _ ← send_message msg;
    now ← time_time;
    modify (set_ping_time now)
  else mret tt.

(** The body of [main_loop]'s [while True]; [read_and_process] stands for
    [msg = await self.read_message(); self.process_message(msg)]. *)
Definition main_loop_iteration (read_and_process : M unit) : M unit :=
  _ ← ping_if_required;
  read_and_process.

(** [payload[k]] for a decoded field, which is a [bytes] object. *)
Definition getbytes (payload : gmap string pyval) (k : string) : result bytes :=
  v ← getitem payload k;
  match v with VBytes b => Ok b | _ => Raise TypeError end.

(** [Peer.on_ping] *)
Definition on_ping (payload : gmap string pyval) : M unit :=
  b ← lift (getbytes payload "num_pong_bytes");
  let l := int_from_bytes b in
  msg ← lift (gen_msg structured "pong" (kwargs [("byteslen", VInt l)]%string));
  send_message msg.

End PeerMethods.

(** ** Text helpers *)

Definition hex_digit (n : Z) : byte :=
  if n <? 10 then byte_of_Z (48 + n) else byte_of_Z (87 + n).

(** [binascii.hexlify(b)] *)
Definition hexlify (b : bytes) : bytes :=
  mjoin ((fun x => [hex_digit (byte_to_Z x / 16); hex_digit (byte_to_Z x mod 16)]) <$> b).

(** [bh2u(b)] *)
Definition bh2u (b : bytes) : string := string_of_list_byte (hexlify b).

(** [sep.join(parts)] on [bytes] *)
Fixpoint join_bytes (sep : bytes) (parts : list bytes) : bytes :=
  match parts with
  | [] => []
  | [x] => x
  | x :: rest => x ++ sep ++ join_bytes sep rest
  end.

(** [str(l)] for a list of strings free of quotes and escapes. *)
Definition repr_str_list (l : list string) : string :=
  "[" +:+ String.concat ", " ((fun s => "'" +:+ s +:+ "'") <$> l) +:+ "]".

(** [l[i]] on a list *)
Definition getitem_list {A} (l : list A) (i : Z) : result A :=
  let i' := if i <? 0 then i + len l else i in
  match (if i' <? 0 then None else l !! Z.to_nat i') with
  | Some x => Ok x
  | None => Raise IndexError
  end.

(** [b.rstrip(b'\x00')] *)
Definition rstrip_zero (b : bytes) : bytes :=
  reverse (skip_spaces (fun c => bool_decide (c = x00)) (reverse b)).

(** ** Address parsing of [on_node_announcement] *)

(** The local [read(n)]: the first [n] bytes of [self.s] and the new [self.s]. *)
Definition read (n : Z) (s : bytes) : bytes * bytes := (slice s 0 n, slice_from s n).

Lemma read_length (n : Z) (s : bytes) : (length (read n s).2 <= length s)%nat.
Proof. unfold read, slice_from. simpl. rewrite length_drop. lia. Qed.

Definition format_ipv4 (b : bytes) : string :=
  String.concat "." ((fun x => str_of_int (byte_to_Z x)) <$> b).

(** One pass through the body of the [while self.s:] loop, entered with
    [ord(read(1)) = atype] already taken off [self.s = s]: the addresses it
    appends and the new [self.s]. *)
Definition address_step (atype : Z) (s : bytes) : list address * bytes :=
  if atype =? 0 then ([], s)
  else if atype =? 1 then
    let '(b, s) := read 4 s in
    let ipv4_addr := format_ipv4 b in
    let '(b, s) := read 2 s in
    let port := int_from_bytes b in
    ([(HostStr ipv4_addr, port)], s)
  else if atype =? 2 then
    let '(g0, s) := read 2 s in
    let '(g1, s) := read 2 s in
    let '(g2, s) := read 2 s in
    let '(g3, s) := read 2 s in
    let ipv6_addr := join_bytes [":"%byte] (hexlify <$> [g0; g1; g2; g3]) in
    let '(b, s) := read 2 s in
    let port := int_from_bytes b in
    ([(HostBytes ipv6_addr, port)], s)
  else ([], s).

Lemma address_step_length (atype : Z) (s : bytes) :
  (length (address_step atype s).2 <= length s)%nat.
Proof.
  unfold address_step.
  repeat case_match; simpl; try lia;
    repeat match goal with
           | H : read ?n ?s = (_, ?s') |- _ =>
               let L := fresh in
               pose proof (read_length n s) as L; rewrite H in L; simpl in L; clear H
           end; lia.
Qed.

(** The [while self.s:] loop, with [self.s] as [s] and the list [addresses]
    built so far. *)
Equations? parse_addresses (s : bytes) (addresses : list address) : list address
    by wf (length s) lt :=
parse_addresses [] addresses := addresses;
parse_addresses (c :: s) addresses :=
  parse_addresses (address_step (byte_to_Z c) s).2
    (addresses ++ (address_step (byte_to_Z c) s).1).
Proof.
  pose proof (address_step_length (byte_to_Z c) s).
  change (length (c :: s)) with (S (length s)). lia.
Qed.

Section Handlers.
Context `{Env}.

(** [Peer.on_node_announcement]; the result is [Some false] for the early
    [return False] and [None] for falling off the end.  The attribute
    [self.s] holds the addresses while the loop reads them. *)
Definition on_node_announcement (payload : gmap string pyval) : M (option bool) :=
  pubkey ← lift (getbytes payload "node_id");
  signature ← lift (getbytes payload "signature");
  raw ← lift (getbytes payload "raw");
  let h := Hash (slice_from raw 66) in
  if negb (verify_signature pubkey signature h) then mret (Some false)
  else
    s ← lift (getbytes payload "addresses");
    _ ← modify (set_peer_s (Some s));
    let addresses := parse_addresses s [] in
    (* the loop has consumed [self.s]: it ends when [self.s] is empty *)
    _ ← modify (set_peer_s (Some []));
    alias ← lift (getbytes payload "alias");
    let alias := rstrip_zero alias in
    _ ← modify (fun p =>
           set_lightning_nodes (<[pubkey := (alias, addresses)]> (lightning_nodes p)) p);
    mret None.

(** [self.network.trigger_callback(name, chan)] *)
Definition trigger_callback (name : string) (chan : Channel) : M unit :=
  emit (EvCallback name (channel_id chan)).


(** [fut.set_result(value)] on [self.channel_reestablished[chan_id]], a
    [defaultdict(asyncio.Future)]. *)
Definition set_result (chan_id : bytes) (value : bool) : M unit := fun p =>
  match default Pending (channel_reestablished p !! chan_id) with
  | Pending => (set_channel_reestablished (<[chan_id := Done value]> (channel_reestablished p)) p, Ok tt)
  | _ =>
      (match channel_reestablished p !! chan_id with
       | Some _ => p
       | None => set_channel_reestablished (<[chan_id := Pending]> (channel_reestablished p)) p
       end, Raise InvalidStateError)
  end.

(** [Peer.on_channel_reestablish] *)
Definition on_channel_reestablish (payload : gmap string pyval) : M unit :=
  chan_id ← lift (getbytes payload "channel_id");
  chan ← gets (fun p => channels p !! chan_id);
  match chan with
  | None => mret tt
  | Some chan =>
      let channel_reestablish_msg := payload in
      b ← lift (getbytes channel_reestablish_msg "next_local_commitment_number");
      let remote_ctn_ := int_from_bytes b in
      if bool_decide (remote_ctn_ ≠ remote_ctn (remote_state chan) + 1) then
        raise (Exception ("expected remote ctn " +:+ str_of_int (remote_ctn (remote_state chan) + 1)
                          +:+ ", got " +:+ str_of_int remote_ctn_))
      else
        b ← lift (getbytes channel_reestablish_msg "next_remote_revocation_number");
        let local_ctn_ := int_from_bytes b in
        if bool_decide (local_ctn_ ≠ local_ctn (local_state chan)) then
          raise (Exception ("expected local ctn " +:+ str_of_int (local_ctn (local_state chan))
                            +:+ ", got " +:+ str_of_int local_ctn_))
        else
          their ← lift (getbytes channel_reestablish_msg "my_current_per_commitment_point");
          let our := match current_per_commitment_point (remote_state chan) with
                     | Some our => our
                     | None => next_per_commitment_point (remote_state chan)
                     end in
          if bool_decide (our ≠ their) then
            raise (Exception ("Remote PCP mismatch: " +:+ bh2u our +:+ " " +:+ bh2u their))
          else set_result chan_id true
  end.

(** The category list that [on_update_fail_htlc] builds from [code]. *)
Definition failure_categories (code : Z) : list string :=
  let codes := [] in
  let codes := if bool_decide (Z.land code 0x8000 ≠ 0) then codes ++ ["BADONION"%string] else codes in
  let codes := if bool_decide (Z.land code 0x4000 ≠ 0) then codes ++ ["PERM"%string] else codes in
  let codes := if bool_decide (Z.land code 0x2000 ≠ 0) then codes ++ ["NODE"%string] else codes in
  let codes := if bool_decide (Z.land code 0x1000 ≠ 0) then codes ++ ["UPDATE"%string] else codes in
  codes.

(** [Peer.on_update_fail_htlc] *)
Definition on_update_fail_htlc (payload : gmap string pyval) : M unit :=
  channel_id ← lift (getbytes payload "channel_id");
  b ← lift (getbytes payload "id");
  let htlc_id := int_from_bytes b in
  let key := (channel_id, htlc_id) in
  route ← (fun p => (p, getitem (attempted_route p) key));
  reason ← lift (getbytes payload "reason");
  secret ← (fun p => (p, match secret_key p with Some k => Ok k | None => Raise AttributeError end));
  '(failure_msg, sender_idx) ← lift (decode_onion_error reason (edge_node_id <$> route) secret);
  let code := code failure_msg in
  let codes := failure_categories code in
  short_chan_id ← lift (match getitem_list route (sender_idx + 1) with
                        | Ok edge => Ok (Some (edge_short_channel_id edge))
                        | Raise IndexError => Ok None
                        | Raise e => Raise e
                        end);
  short_chan_id ← lift (match short_chan_id with
                        | Some s => Ok s
                        | None => Raise UnboundLocalError
                        end);
  _ ← modify (fun p => set_blacklist ({[short_chan_id]} ∪ blacklist p) p);
  modify (fun p =>
    set_update_fail_htlc
      (<[channel_id := default [] (update_fail_htlc p !! channel_id)
                       ++ ["HTLC failure with code " +:+ str_of_int code
                           +:+ " (categories " +:+ repr_str_list codes +:+ ")"]]>
         (update_fail_htlc p)) p).

End Handlers.

(** ** Channel opening *)

Definition hex_value (c : byte) : option Z :=
  let n := byte_to_Z c in
  if (48 <=? n) && (n <=? 57) then Some (n - 48)
  else if (97 <=? n) && (n <=? 102) then Some (n - 87)
  else if (65 <=? n) && (n <=? 70) then Some (n - 55)
  else None.

(** The scan of [bytes.fromhex]: white space is skipped between bytes, and
    [hi] holds the first digit of a pair. *)
Fixpoint fromhex_loop (s : bytes) (hi : option Z) : option bytes :=
  match s with
  | [] => match hi with None => Some [] | Some _ => None end
  | c :: s' =>
      match hi with
      | None =>
          if is_space_bytes c then fromhex_loop s' None
          else match hex_value c with
               | Some v => fromhex_loop s' (Some v)
               | None => None
               end
      | Some h =>
          match hex_value c with
          | Some v => cons (byte_of_Z (16 * h + v)) <$> fromhex_loop s' None
          | None => None
          end
      end
  end.

(** [bytes.fromhex(s)] *)
Definition bytes_fromhex (s : string) : result bytes :=
  match fromhex_loop (str_bytes s) None with
  | Some b => Ok b
  | None => Raise ValueError
  end.

(** [channel_id_from_funding_tx(funding_txid, funding_index)] *)
Definition channel_id_from_funding_tx (funding_txid : string) (funding_index : Z)
    : result (bytes * bytes) :=
  b ← bytes_fromhex funding_txid;
  let funding_txid_bytes := reverse b in
  let i := Z.lxor (int_from_bytes funding_txid_bytes) funding_index in
  cid ← to_bytes i 32;
  Ok (cid, funding_txid_bytes).

(** [l.index(x)] *)
Fixpoint list_index {A} `{EqDecision A} (l : list A) (x : A) : result Z :=
  match l with
  | [] => Raise ValueError
  | y :: l' => if bool_decide (y = x) then Ok 0 else i ← list_index l' x; Ok (1 + i)
  end.

(** What the open flow keeps across its first [await]. *)
Record OpenRequest : Type := MkOpenRequest {
  req_local_config : ChannelConfig;
  req_per_commitment_secret_seed : bytes;
  req_local_feerate : Z
}.

(** What the open flow keeps across its second [await]. *)
Record OpenFunding : Type := MkOpenFunding {
  fund_m : Channel;
  fund_tx : Transaction;
  fund_channel_id : bytes
}.

Section OpenChannel.
Context `{Env}.
Variables (password : string) (funding_sat push_msat : Z) (temp_channel_id : bytes).

(** [channel_establishment_flow] up to [await self.channel_accepted[...].get()]. *)
Definition open_channel_begin : M OpenRequest :=
  let keyfamilymultisig := 0 in
  let keyfamilyrevocationbase := 1 in
  let keyfamilyhtlcbase := 2 in
  let keyfamilypaymentbase := 3 in
  let keyfamilydelaybase := 4 in
  let local_feerate := 20000 in
  let keypair_generator family i := get_keypair family i password in
  k_payment ← lift (keypair_generator keyfamilypaymentbase 0);
  k_multisig ← lift (keypair_generator keyfamilymultisig 0);
  k_htlc ← lift (keypair_generator keyfamilyhtlcbase 0);
  k_delayed ← lift (keypair_generator keyfamilydelaybase 0);
  k_revocation ← lift (keypair_generator keyfamilyrevocationbase 0);
  let local_config :=
    MkChannelConfig k_payment k_multisig k_htlc k_delayed k_revocation
      143 10 0xffffffffffffffff 5 in
  per_commitment_secret_seed ←
    lift (to_bytes 0x1f1e1d1c1b1a191817161514131211100f0e0d0c0b0a09080706050403020100 32);
  let per_commitment_secret_index := 2 ^ 48 - 1 in
  let per_commitment_secret_first :=
    get_per_commitment_secret_from_seed per_commitment_secret_seed per_commitment_secret_index in
  let per_commitment_point_first :=
    secret_to_pubkey (int_from_bytes per_commitment_secret_first) in
  msg ← lift (gen_msg structured "open_channel"
    (kwargs [("temporary_channel_id", VBytes temp_channel_id);
             ("chain_hash", VBytes REV_GENESIS);
             ("funding_satoshis", VInt funding_sat);
             ("push_msat", VInt push_msat);
             ("dust_limit_satoshis", VInt (dust_limit_sat local_config));
             ("feerate_per_kw", VInt local_feerate);
             ("max_accepted_htlcs", VInt (max_accepted_htlcs local_config));
             ("funding_pubkey", VBytes (pubkey (multisig_key local_config)));
             ("revocation_basepoint", VBytes (pubkey (revocation_basepoint local_config)));
             ("htlc_basepoint", VBytes (pubkey (htlc_basepoint local_config)));
             ("payment_basepoint", VBytes (pubkey (payment_basepoint local_config)));
             ("delayed_payment_basepoint", VBytes (pubkey (delayed_basepoint local_config)));
             ("first_per_commitment_point", VBytes per_commitment_point_first);
             ("to_self_delay", VInt (to_self_delay local_config));
             ("max_htlc_value_in_flight_msat", VInt (max_htlc_value_in_flight_msat local_config));
             ("channel_flags", VInt 0x01);
             ("channel_reserve_satoshis", VInt 10)]%string));
  _ ← send_message msg;
  mret (MkOpenRequest local_config per_commitment_secret_seed local_feerate).

(** The reading and sanity checks of the [accept_channel] payload: the
    remote's first per-commitment point, its [ChannelConfig], and
    [funding_txn_minimum_depth]. *)
Definition accept_channel_checks (payload : gmap string pyval)
    : result (bytes * ChannelConfig * Z) :=
  remote_per_commitment_point ← getbytes payload "first_per_commitment_point";
  payment ← getbytes payload "payment_basepoint";
  funding ← getbytes payload "funding_pubkey";
  htlc ← getbytes payload "htlc_basepoint";
  delayed ← getbytes payload "delayed_payment_basepoint";
  revocation ← getbytes payload "revocation_basepoint";
  delay ← getbytes payload "to_self_delay";
  dust ← getbytes payload "dust_limit_satoshis";
  in_flight ← getbytes payload "max_htlc_value_in_flight_msat";
  accepted ← getbytes payload "max_accepted_htlcs";
  let remote_config :=
    MkChannelConfig (OnlyPubkeyKeypair payment) (OnlyPubkeyKeypair funding)
      (OnlyPubkeyKeypair htlc) (OnlyPubkeyKeypair delayed) (OnlyPubkeyKeypair revocation)
      (int_from_bytes delay) (int_from_bytes dust) (int_from_bytes in_flight)
      (int_from_bytes accepted) in
  depth ← getbytes payload "minimum_depth";
  let funding_txn_minimum_depth := int_from_bytes depth in
  _ ← assert (dust_limit_sat remote_config <? 600);
  htlc_minimum ← getbytes payload "htlc_minimum_msat";
  _ ← assert (int_from_bytes htlc_minimum <? 600 * 1000);
  _ ← assert (198 * 1000 * 1000 <=? max_htlc_value_in_flight_msat remote_config);
  Ok (remote_per_commitment_point, remote_config, funding_txn_minimum_depth).

(** [channel_establishment_flow] from the funding transaction up to
    [await self.funding_signed[channel_id].get()]. *)
Definition open_channel_fund (req : OpenRequest)
    (remote_per_commitment_point : bytes) (remote_config : ChannelConfig)
    (funding_txn_minimum_depth : Z) : M OpenFunding :=
  let local_config := req_local_config req in
  redeem_script ← lift (funding_output_script local_config remote_config);
  funding_address ← lift (redeem_script_to_address "p2wsh" redeem_script);
  let funding_output : tx_output := (TYPE_ADDRESS, funding_address, funding_sat) in
  _ ← emit (EvMktx [funding_output] password);
  funding_tx ← lift (mktx [funding_output] password);
  let funding_txid := txid funding_tx in
  funding_index ← lift (list_index (outputs funding_tx) funding_output);
  let local_amount := funding_sat * 1000 - push_msat in
  let remote_amount := push_msat in
  '(channel_id, funding_txid_bytes) ← lift (channel_id_from_funding_tx funding_txid funding_index);
  let their_revocation_store : list bytes := [] in
  node ← gets peer_pubkey;
  let chan :=
    MkChannel node channel_id None (MkOutpoint funding_txid funding_index)
      local_config remote_config
      (MkRemoteState (-1) remote_per_commitment_point None remote_amount
         their_revocation_store 0 (req_local_feerate req))
      (MkLocalState (-1) (req_per_commitment_secret_seed req) local_amount 0
         false false None (req_local_feerate req))
      (MkChannelConstraints funding_sat true funding_txn_minimum_depth) in
  let m := HTLCStateMachine chan in
  '(sig_64, _, m) ← lift (sign_next_commitment m);
  msg ← lift (gen_msg structured "funding_created"
    (kwargs [("temporary_channel_id", VBytes temp_channel_id);
             ("funding_txid", VBytes funding_txid_bytes);
             ("funding_output_index", VInt funding_index);
             ("signature", VBytes sig_64)]%string));
  _ ← send_message msg;
  mret (MkOpenFunding m funding_tx channel_id).

(** [channel_establishment_flow] resumed with the [accept_channel] payload. *)
Definition open_channel_accepted (req : OpenRequest) (payload : gmap string pyval)
    : M OpenFunding :=
  '(remote_per_commitment_point, remote_config, funding_txn_minimum_depth) ←
    lift (accept_channel_checks payload);
  open_channel_fund req remote_per_commitment_point remote_config funding_txn_minimum_depth.

(** [m.remote_state._replace(ctn=0)] and
    [m.local_state._replace(ctn=0, current_commitment_signature=remote_sig)] *)
Definition replace_remote_ctn (s : RemoteState) (ctn : Z) : RemoteState :=
  MkRemoteState ctn (next_per_commitment_point s) (current_per_commitment_point s)
    (remote_amount_msat s) (revocation_store s) (remote_next_htlc_id s) (remote_feerate s).
Definition replace_local_ctn_sig (s : LocalState) (ctn : Z) (sig : bytes) : LocalState :=
  MkLocalState ctn (per_commitment_secret_seed s) (local_amount_msat s) (local_next_htlc_id s)
    (funding_locked_received s) (was_announced s) (Some sig) (local_feerate s).
Definition set_remote_state (m : Channel) (s : RemoteState) : Channel :=
  MkChannel (node_id m) (channel_id m) (short_channel_id m) (funding_outpoint m)
    (local_config m) (remote_config m) s (local_state m) (constraints m).
Definition set_local_state (m : Channel) (s : LocalState) : Channel :=
  MkChannel (node_id m) (channel_id m) (short_channel_id m) (funding_outpoint m)
    (local_config m) (remote_config m) (remote_state m) s (constraints m).

(** [channel_establishment_flow] resumed with the [funding_signed] payload. *)
Definition open_channel_signed (fund : OpenFunding) (payload : gmap string pyval)
    : M Channel :=
  remote_sig ← lift (getbytes payload "signature");
  m ← lift (receive_new_commitment (fund_m fund) remote_sig []);
  _ ← emit (EvBroadcast (fund_tx fund));
  let '(success, _txid) := broadcast_transaction (fund_tx fund) in
  _ ← lift (assert success);
  let m := set_remote_state m (replace_remote_ctn (remote_state m) 0) in
  let m := set_local_state m (replace_local_ctn_sig (local_state m) 0 remote_sig) in
  mret m.

(** [Peer.channel_establishment_flow], with the payloads that its two
    [await]s on the [accept_channel] and [funding_signed] queues return. *)
Definition channel_establishment_flow (accept_channel funding_signed : gmap string pyval)
    : M Channel :=
  req ← open_channel_begin;
  fund ← open_channel_accepted req accept_channel;
  open_channel_signed fund funding_signed.

End OpenChannel.

(** [n] successive calls of a method, with the values they return. *)
Fixpoint calls {A} (n : nat) (m : M A) : M (list A) :=
  match n with
  | O => mret []
  | S n' => a ← m; l ← calls n' m; mret (a :: l)
  end.

(** ** A scripted environment for running scenarios

    Stand-ins for the collaborators, used only to run the model on concrete
    inputs: a schema with the messages the peer sends, digest-shaped and
    tag-shaped functions in place of HMAC-SHA256 and ChaCha20-Poly1305, a
    wallet that pays the requested output, a commitment engine that accepts
    every signature, and an onion decoder that reads the failure code and
    the sender index off the first three bytes of [reason]. *)

(** Modelled from the spec: the [open_channel] and [funding_created] entries
    of the absent [lightning.json], with the fields the open flow sets and
    the widths of BOLT 2. *)
Definition open_channel_message : message :=
  Message "32"
    [("chain_hash", PosLen "0" "32" None);
     ("temporary_channel_id", PosLen "32" "32" None);
     ("funding_satoshis", PosLen "64" "8" None);
     ("push_msat", PosLen "72" "8" None);
     ("dust_limit_satoshis", PosLen "80" "8" None);
     ("max_htlc_value_in_flight_msat", PosLen "88" "8" None);
     ("channel_reserve_satoshis", PosLen "96" "8" None);
     ("htlc_minimum_msat", PosLen "104" "8" None);
     ("feerate_per_kw", PosLen "112" "4" None);
     ("to_self_delay", PosLen "116" "2" None);
     ("max_accepted_htlcs", PosLen "118" "2" None);
     ("funding_pubkey", PosLen "120" "33" None);
     ("revocation_basepoint", PosLen "153" "33" None);
     ("payment_basepoint", PosLen "186" "33" None);
     ("delayed_payment_basepoint", PosLen "219" "33" None);
     ("htlc_basepoint", PosLen "252" "33" None);
     ("first_per_commitment_point", PosLen "285" "33" None);
     ("channel_flags", PosLen "318" "1" None);
     ("shutdown_len", PosLen "319" "2" (Some "option_upfront_shutdown_script"));
     ("shutdown_scriptpubkey", PosLen "321" "shutdown_len" (Some "option_upfront_shutdown_script"))]%string.

Definition funding_created_message : message :=
  Message "34"
    [("temporary_channel_id", PosLen "0" "32" None);
     ("funding_txid", PosLen "32" "32" None);
     ("funding_output_index", PosLen "64" "2" None);
     ("signature", PosLen "66" "64" None)]%string.

Definition scenario_schema : schema :=
  base_schema ++
  [("open_channel", open_channel_message);
   ("funding_created", funding_created_message);
   ("channel_reestablish", channel_reestablish_message)]%string.

Definition scenario_message_types : gmap bytes (string * message) :=
  match load_message_types scenario_schema with Ok mt => mt | Raise _ => ∅ end.

Definition scenario_hmac (key msg : bytes) : bytes :=
  be_digits 32 ((int_from_bytes key + 3 * int_from_bytes msg + 1) mod 2 ^ 256).

Definition scenario_encrypt (k nonce data associated_data : bytes) : bytes :=
  data ++ be_digits 16 ((int_from_bytes k + int_from_bytes nonce) mod 2 ^ 128).

Definition scenario_decode_onion_error (reason : bytes) (node_ids : list bytes) (secret : bytes)
    : result (OnionRoutingFailureMessage * Z) :=
  match reason with
  | hi :: lo :: idx :: data => Ok (MkFailure (int_from_bytes [hi; lo]) data, byte_to_Z idx)
  | _ => Raise ValueError
  end.

Definition scenario_txid : string :=
  "00000000000000000000000000000000000000000000000000000000000000aa".

#[global] Instance scenario_env : Env := {|
  structured := scenario_schema;
  message_types := scenario_message_types;
  hmac_sha256 := scenario_hmac;
  chacha20poly1305_encrypt := scenario_encrypt;
  verify_signature := fun _ _ _ => true;
  Hash := fun b => scenario_hmac [] b;
  decode_onion_error := scenario_decode_onion_error;
  REV_GENESIS := replicate 32 x6f;
  TYPE_ADDRESS := 0;
  get_keypair := fun family i _ =>
    Ok (MkKeypair (x02 :: replicate 32 (byte_of_Z family)) (Some (replicate 32 (byte_of_Z family))));
  get_per_commitment_secret_from_seed := fun seed i => scenario_hmac seed (be_digits 8 i);
  secret_to_pubkey := fun n => x03 :: be_digits 32 n;
  funding_output_script := fun l r => Ok "0020"%string;
  redeem_script_to_address := fun kind script => Ok "bc1qfunding"%string;
  mktx := fun outs _ => Ok (MkTransaction scenario_txid outs);
  HTLCStateMachine := fun chan => chan;
  sign_next_commitment := fun m => Ok (replicate 64 x51, [], m);
  receive_new_commitment := fun m sig htlc_sigs => Ok m;
  broadcast_transaction := fun tx => (true, txid tx)
|}.

(** A peer right after the handshake, with no channels. *)
Definition scenario_peer : Peer :=
  MkPeer (replicate 32 x01) (replicate 32 x02) (replicate 32 x03) (replicate 32 x03) 0 0
    0%float (x02 :: replicate 32 x99) ∅ ∅ ∅ ∅ ∅ None ∅ ∅ 0%float [] None.

(** A three-hop route and a peer that has recorded it for htlc 0 of the
    channel [replicate 32 x07]. *)
Definition scenario_route : list RouteEdge :=
  [MkRouteEdge (x02 :: replicate 32 x0a) [x00; x00; x00; x00; x00; x00; x00; x01];
   MkRouteEdge (x02 :: replicate 32 x0b) [x00; x00; x00; x00; x00; x00; x00; x02];
   MkRouteEdge (x02 :: replicate 32 x0c) [x00; x00; x00; x00; x00; x00; x00; x03]].

Definition scenario_paying_peer : Peer :=
  set_secret_key (Some (replicate 32 x09))
    (set_attempted_route {[ (replicate 32 x07, 0) := scenario_route ]} scenario_peer).

(** A funded channel with both commitment numbers at 0, and a peer that
    knows it. *)
Definition scenario_channel : Channel :=
  let key b := MkKeypair (x02 :: replicate 32 b) None in
  let config := MkChannelConfig (key x21) (key x22) (key x23) (key x24) (key x25) 143 10 1000000 5 in
  MkChannel (x02 :: replicate 32 x99) (replicate 32 x07) None (MkOutpoint scenario_txid 0)
    config config
    (MkRemoteState 0 (x03 :: replicate 32 x0d) None 0 [] 0 20000)
    (MkLocalState 0 (replicate 32 x0e) 100000000 0 false false None 20000)
    (MkChannelConstraints 100000 true 3).

Definition scenario_peer_with_channel : Peer :=
  set_channels {[ replicate 32 x07 := scenario_channel ]} scenario_peer.

(** The [channel_reestablish] payload that matches [scenario_channel]. *)
Definition scenario_reestablish_payload : gmap string pyval :=
  kwargs [("channel_id", VBytes (replicate 32 x07));
          ("next_local_commitment_number", VBytes [x00; x00; x00; x00; x00; x00; x00; x01]);
          ("next_remote_revocation_number", VBytes [x00; x00; x00; x00; x00; x00; x00; x00]);
          ("my_current_per_commitment_point", VBytes (x03 :: replicate 32 x0d))]%string.

(** The decoded [accept_channel] of a scripted remote: dust limit 500,
    htlc minimum 1000 msat, at most 200000000 msat in flight, depth 3. *)
Definition scenario_accept_channel : gmap string pyval :=
  kwargs [("temporary_channel_id", VBytes (replicate 32 x07));
          ("dust_limit_satoshis", VBytes (be_digits 8 500));
          ("max_htlc_value_in_flight_msat", VBytes (be_digits 8 200000000));
          ("channel_reserve_satoshis", VBytes (be_digits 8 1000));
          ("htlc_minimum_msat", VBytes (be_digits 8 1000));
          ("minimum_depth", VBytes (be_digits 4 3));
          ("to_self_delay", VBytes (be_digits 2 144));
          ("max_accepted_htlcs", VBytes (be_digits 2 483));
          ("funding_pubkey", VBytes (x02 :: replicate 32 x31));
          ("revocation_basepoint", VBytes (x02 :: replicate 32 x32));
          ("payment_basepoint", VBytes (x02 :: replicate 32 x33));
          ("delayed_payment_basepoint", VBytes (x02 :: replicate 32 x34));
          ("htlc_basepoint", VBytes (x02 :: replicate 32 x35));
          ("first_per_commitment_point", VBytes (x03 :: replicate 32 x36))]%string.

(** The same reply with a dust limit of 600. *)
Definition scenario_accept_channel_dusty : gmap string pyval :=
  <["dust_limit_satoshis"%string := VBytes (be_digits 8 600)]> scenario_accept_channel.

Definition scenario_funding_signed : gmap string pyval :=
  kwargs [("channel_id", VBytes (replicate 32 x07));
          ("signature", VBytes (replicate 64 x52))]%string.

(** Whether a remote state holds the byte string [b] in one of its
    byte-valued fields. *)
Definition remote_state_holds (s : RemoteState) (b : bytes) : Prop :=
  next_per_commitment_point s = b
  \/ current_per_commitment_point s = Some b
  \/ b ∈ revocation_store s.

(** The value of [message_types] for [base_schema]. *)
Definition base_message_types : gmap bytes (string * message) :=
  match load_message_types base_schema with Ok mt => mt | Raise _ => ∅ end.

(** ** Vocabulary of the further properties *)

(** The entries of [structured] that the module-level loop does not skip:
    the name is not one of the two colliding ones, the payload is not empty,
    and [int(v["type"])] does not raise. *)
Definition registrable (k : string) (v : message) : Prop :=
  (k ∉ ["final_incorrect_cltv_expiry"; "final_incorrect_htlc_amount"]%string)
  /\ payload v ≠ []
  /\ is_Some (int_of_str (type v)).

(** What holds of a table that the loop has filled from the entries [s]:
    each handler comes from one of them, under its own type code, and no
    name occurs twice. *)
Definition table_sound (s : schema) (mt : gmap bytes (string * message)) : Prop :=
  (forall tcode k v, mt !! tcode = Some (k, v) ->
     (k, v) ∈ s /\ registrable k v
     /\ exists num, int_of_str (type v) = Some num /\ to_bytes num 2 = Ok tcode)
  /\ (forall c1 c2 k v1 v2, mt !! c1 = Some (k, v1) -> mt !! c2 = Some (k, v2) -> c1 = c2).

(** The call [gen_msg(msg_type, **kwargs)]: the arguments are bound before
    the body runs, and a keyword named [msg_type] collides with the
    positional parameter, which is a [TypeError]. *)
Definition gen_msg_call (s : schema) (msg_type : string) (kwargs : gmap string pyval)
    : result bytes :=
  if bool_decide (is_Some (kwargs !! "msg_type"%string)) then Raise TypeError
  else gen_msg s msg_type kwargs.


Section Rotation.
Context `{Env}.

(** The pair that [get_bolt8_hkdf(salt, ikm)] returns when its two
    assertions hold. *)
Definition hkdf_halves (salt ikm : bytes) : bytes * bytes :=
  let prk := hmac_sha256 salt ikm in
  let T1 := hmac_sha256 prk [x01] in
  (T1, hmac_sha256 prk (T1 ++ [x02])).

(** A chaining key and a traffic key after [n] rotations. *)
Definition rotations (n : nat) (ck k : bytes) : bytes * bytes :=
  Nat.iter n (fun ckk => hkdf_halves ckk.1 ckk.2) (ck, k).

End Rotation.

(** ** The rest of the peer: input, queues and the dispatch layer

    [Node] adds to [Peer] the attributes that the remaining methods touch:
    the node's own keys and feature bits, the read buffer, what the stream reader will
    deliver, the [initialized] future, the per-channel queues, the invoices,
    and the calls made on [lnworker], [channel_db] and the event loop. *)

(** What lies behind the modules that only these methods import. *)
Class Crypto : Type := {
  (** [crypto.sha256] *)
  sha256 : bytes -> bytes;
  (** [lnutil.get_ecdh(priv, pub)] *)
  get_ecdh : bytes -> bytes -> result bytes;
  (** [ecc.ECPrivkey(priv).get_public_key_bytes()] *)
  get_public_key_bytes : bytes -> result bytes;
  (** [AEAD.ChaCha20Poly1305(k).decrypt(nonce, data, associated_data)], which
      raises when the tag does not verify *)
  chacha20poly1305_decrypt : bytes -> bytes -> bytes -> bytes -> result bytes;
  (** [ecc.ECPrivkey(k).sign(h, sigencode_string_canonize, sigdecode_string)] *)
  sign : option bytes -> bytes -> result bytes;
  (** [lnaddr.lndecode(req, expected_hrp=constants.net.SEGWIT_HRP)] and the
      type of what it returns *)
  LnAddr : Type;
  lndecode : string -> result LnAddr;
  (** [chan.update_fee(feerate)] of [HTLCStateMachine] *)
  update_fee : Channel -> Z -> result Channel
}.

(** [aead_decrypt(k, nonce, associated_data, data)] *)
Definition aead_decrypt `{Crypto} (k : bytes) (nonce : Z) (associated_data data : bytes)
    : result bytes :=
  nonce_bytes ← get_nonce_bytes nonce;
  chacha20poly1305_decrypt k nonce_bytes data associated_data.

(** Calls that leave the peer: [lnworker.save_channel], the two methods of
    [channel_db], and coroutines handed to the event loop with
    [asyncio.run_coroutine_threadsafe]. *)
Inductive call `{Crypto} : Type :=
| SaveChannel (chan : Channel)
| DbChannelAnnouncement (msg : gmap string pyval)
| DbChannelUpdate (msg : gmap string pyval)
| SpawnReceiveCommitmentRevokeAck (htlc : gmap string pyval) (decoded : LnAddr)
    (payment_preimage : bytes)
| SpawnHandleAnnouncements (chan : Channel).

(** An [asyncio.Queue] is the list of its items, oldest first; a
    [defaultdict(asyncio.Queue)] is a map to such lists. *)
Abbreviation queues := (gmap bytes (list (gmap string pyval))).

Record Node `{Crypto} : Type := MkNode {
  peer : Peer;
  (** [self.privkey] and [self.lnworker.pubkey] *)
  node_privkey : bytes;
  lnworker_pubkey : bytes;
  localfeatures : Z;
  read_buffer : bytes;
  (** the byte strings that successive [reader.read(2**10)] calls return *)
  inbox : list bytes;
  initialized : Future;
  channel_accepted : queues;
  funding_signed : queues;
  revoke_and_ack : queues;
  update_fulfill_htlc : queues;
  commitment_signed : queues;
  announcement_signatures : queues;
  (** [self.invoices], in key order *)
  invoices : list (string * string);
  (** whether [self.channel_update_event] is set *)
  channel_update_event : bool;
  outside : list call
}.
Arguments MkNode {_}.

Section NodeState.
Context `{Crypto}.

Definition with_peer (v : Peer) (nd : Node) : Node :=
  MkNode v (node_privkey nd) (lnworker_pubkey nd) (localfeatures nd) (read_buffer nd)
    (inbox nd) (initialized nd) (channel_accepted nd) (funding_signed nd)
    (revoke_and_ack nd) (update_fulfill_htlc nd) (commitment_signed nd)
    (announcement_signatures nd) (invoices nd) (channel_update_event nd) (outside nd).

Definition with_read_buffer (v : bytes) (nd : Node) : Node :=
  MkNode (peer nd) (node_privkey nd) (lnworker_pubkey nd) (localfeatures nd) v
    (inbox nd) (initialized nd) (channel_accepted nd) (funding_signed nd)
    (revoke_and_ack nd) (update_fulfill_htlc nd) (commitment_signed nd)
    (announcement_signatures nd) (invoices nd) (channel_update_event nd) (outside nd).

Definition with_inbox (v : list bytes) (nd : Node) : Node :=
  MkNode (peer nd) (node_privkey nd) (lnworker_pubkey nd) (localfeatures nd)
    (read_buffer nd) v (initialized nd) (channel_accepted nd) (funding_signed nd)
    (revoke_and_ack nd) (update_fulfill_htlc nd) (commitment_signed nd)
    (announcement_signatures nd) (invoices nd) (channel_update_event nd) (outside nd).

Definition with_initialized (v : Future) (nd : Node) : Node :=
  MkNode (peer nd) (node_privkey nd) (lnworker_pubkey nd) (localfeatures nd)
    (read_buffer nd) (inbox nd) v (channel_accepted nd) (funding_signed nd)
    (revoke_and_ack nd) (update_fulfill_htlc nd) (commitment_signed nd)
    (announcement_signatures nd) (invoices nd) (channel_update_event nd) (outside nd).

Definition with_channel_accepted (v : queues) (nd : Node) : Node :=
  MkNode (peer nd) (node_privkey nd) (lnworker_pubkey nd) (localfeatures nd)
    (read_buffer nd) (inbox nd) (initialized nd) v (funding_signed nd)
    (revoke_and_ack nd) (update_fulfill_htlc nd) (commitment_signed nd)
    (announcement_signatures nd) (invoices nd) (channel_update_event nd) (outside nd).

Definition with_funding_signed (v : queues) (nd : Node) : Node :=
  MkNode (peer nd) (node_privkey nd) (lnworker_pubkey nd) (localfeatures nd)
    (read_buffer nd) (inbox nd) (initialized nd) (channel_accepted nd) v
    (revoke_and_ack nd) (update_fulfill_htlc nd) (commitment_signed nd)
    (announcement_signatures nd) (invoices nd) (channel_update_event nd) (outside nd).

Definition with_revoke_and_ack (v : queues) (nd : Node) : Node :=
  MkNode (peer nd) (node_privkey nd) (lnworker_pubkey nd) (localfeatures nd)
    (read_buffer nd) (inbox nd) (initialized nd) (channel_accepted nd)
    (funding_signed nd) v (update_fulfill_htlc nd) (commitment_signed nd)
    (announcement_signatures nd) (invoices nd) (channel_update_event nd) (outside nd).

Definition with_update_fulfill_htlc (v : queues) (nd : Node) : Node :=
  MkNode (peer nd) (node_privkey nd) (lnworker_pubkey nd) (localfeatures nd)
    (read_buffer nd) (inbox nd) (initialized nd) (channel_accepted nd)
    (funding_signed nd) (revoke_and_ack nd) v (commitment_signed nd)
    (announcement_signatures nd) (invoices nd) (channel_update_event nd) (outside nd).

Definition with_commitment_signed (v : queues) (nd : Node) : Node :=
  MkNode (peer nd) (node_privkey nd) (lnworker_pubkey nd) (localfeatures nd)
    (read_buffer nd) (inbox nd) (initialized nd) (channel_accepted nd)
    (funding_signed nd) (revoke_and_ack nd) (update_fulfill_htlc nd) v
    (announcement_signatures nd) (invoices nd) (channel_update_event nd) (outside nd).

Definition with_announcement_signatures (v : queues) (nd : Node) : Node :=
  MkNode (peer nd) (node_privkey nd) (lnworker_pubkey nd) (localfeatures nd)
    (read_buffer nd) (inbox nd) (initialized nd) (channel_accepted nd)
    (funding_signed nd) (revoke_and_ack nd) (update_fulfill_htlc nd)
    (commitment_signed nd) v (invoices nd) (channel_update_event nd) (outside nd).

Definition with_channel_update_event (v : bool) (nd : Node) : Node :=
  MkNode (peer nd) (node_privkey nd) (lnworker_pubkey nd) (localfeatures nd)
    (read_buffer nd) (inbox nd) (initialized nd) (channel_accepted nd)
    (funding_signed nd) (revoke_and_ack nd) (update_fulfill_htlc nd)
    (commitment_signed nd) (announcement_signatures nd) (invoices nd) v (outside nd).

Definition with_outside (v : list call) (nd : Node) : Node :=
  MkNode (peer nd) (node_privkey nd) (lnworker_pubkey nd) (localfeatures nd)
    (read_buffer nd) (inbox nd) (initialized nd) (channel_accepted nd)
    (funding_signed nd) (revoke_and_ack nd) (update_fulfill_htlc nd)
    (commitment_signed nd) (announcement_signatures nd) (invoices nd)
    (channel_update_event nd) v.

End NodeState.

(** How a step of one of the node's coroutines ends: it returns, it raises,
    it raises [LightningPeerConnectionClosed], or it stays suspended in an
    [await] that the scripted input does not complete. *)
Inductive outcome (A : Type) : Type :=
| Return (a : A)
| Raised (e : pyerr)
| ConnectionClosed
| Suspended.
Arguments Return {A} a.
Arguments Raised {A} e.
Arguments ConnectionClosed {A}.
Arguments Suspended {A}.

(** Methods over [Node]; as for [M], the state survives a raise. *)
Definition NodeM `{Crypto} (A : Type) : Type := Node -> Node * outcome A.

#[global] Instance NodeM_ret `{Crypto} : MRet NodeM := fun A a nd => (nd, Return a).
#[global] Instance NodeM_bind `{Crypto} : MBind NodeM := fun A B f m nd =>
  match m nd with
  | (nd', Return a) => f a nd'
  | (nd', Raised e) => (nd', Raised e)
  | (nd', ConnectionClosed) => (nd', ConnectionClosed)
  | (nd', Suspended) => (nd', Suspended)
  end.

Section NodeMonad.
Context `{Crypto}.

(** A method of [Peer] run on the node's peer. *)
Definition liftP {A} (m : M A) : NodeM A := fun nd =>
  match m (peer nd) with
  | (p', Ok a) => (with_peer p' nd, Return a)
  | (p', Raise e) => (with_peer p' nd, Raised e)
  end.

Definition liftR {A} (r : result A) : NodeM A := fun nd =>
  (nd, match r with Ok a => Return a | Raise e => Raised e end).

Definition raiseN {A} (e : pyerr) : NodeM A := fun nd => (nd, Raised e).
Definition getsN {A} (f : Node -> A) : NodeM A := fun nd => (nd, Return (f nd)).
Definition modifyN (f : Node -> Node) : NodeM unit := fun nd => (f nd, Return tt).

(** One more call on the outside world. *)
Definition callN (c : call) : NodeM unit := modifyN (fun nd => with_outside (outside nd ++ [c]) nd).

(** [await self.reader.read(2**10)] *)
Definition reader_read : NodeM bytes := fun nd =>
  match inbox nd with
  | [] => (nd, Suspended)
  | s :: rest => (with_inbox rest nd, Return s)
  end.

End NodeMonad.

(** ** Reading a frame *)

(** The [while True:] loop of [read_message], run on the read buffer and on
    the chunks that the reader will deliver: the new read buffer, the chunks
    left, and how the loop ends. *)
Fixpoint read_loop `{Crypto} (rn_l : Z) (rk_l : bytes) (rn_m : Z) (rk_m : bytes)
    (buffer : bytes) (chunks : list bytes) : bytes * list bytes * outcome bytes :=
  let waiting :=
    match chunks with
    | [] => (buffer, [], Suspended)
    | s :: chunks' =>
        if bool_decide (s = []) then (buffer, chunks', ConnectionClosed)
        else read_loop rn_l rk_l rn_m rk_m (buffer ++ s) chunks'
    end in
  if 18 <=? len buffer then
    let lc := slice_to buffer 18 in
    match aead_decrypt rk_l rn_l [] lc with
    | Raise e => (buffer, chunks, Raised e)
    | Ok l =>
        let length := int_from_bytes l in
        let offset := 18 + length + 16 in
        if offset <=? len buffer then
          let c := slice buffer 18 offset in
          let buffer := slice_from buffer offset in
          match aead_decrypt rk_m rn_m [] c with
          | Raise e => (buffer, chunks, Raised e)
          | Ok msg => (buffer, chunks, Return msg)
          end
        else waiting
    end
  else waiting.

Section Transport.
Context `{Env} `{Crypto}.

(** [Peer.read_message] *)
Definition read_message : NodeM bytes :=
  '(rn_l, rk_l) ← liftP rn;
  '(rn_m, rk_m) ← liftP rn;
  ((fun nd =>
      let '(buffer, chunks, o) :=
        read_loop rn_l rk_l rn_m rk_m (read_buffer nd) (inbox nd) in
      (with_inbox chunks (with_read_buffer buffer nd), o)) : NodeM bytes).

End Transport.

(** ** The handshake *)

(** [HandshakeState]: the remote static key, the running hash [h] and the
    chaining key [ck]. *)
Record HandshakeState : Type := MkHandshakeState {
  responder_pub : bytes;
  hs_h : bytes;
  hs_ck : bytes
}.

Definition prologue : bytes := str_bytes "lightning".
Definition protocol_name : bytes := str_bytes "Noise_XK_secp256k1_ChaChaPoly_SHA256".
Definition handshake_version : bytes := [x00].

Section Handshake.
Context `{Env} `{Crypto}.

(** [hs.update(data)]: the state afterwards, whose [hs_h] is the value
    returned. *)
Definition hs_update (hs : HandshakeState) (data : bytes) : HandshakeState :=
  MkHandshakeState (responder_pub hs) (sha256 (hs_h hs ++ data)) (hs_ck hs).

(** [hs.ck = ck] *)
Definition hs_set_ck (hs : HandshakeState) (ck : bytes) : HandshakeState :=
  MkHandshakeState (responder_pub hs) (hs_h hs) ck.

(** [HandshakeState(responder_pub)] *)
Definition HandshakeState_init (responder_pub : bytes) : HandshakeState :=
  let h := sha256 protocol_name in
  let hs := MkHandshakeState responder_pub h h in
  let hs := hs_update hs prologue in
  hs_update hs responder_pub.

(** [privkey_to_pubkey(priv)] *)
Definition privkey_to_pubkey (priv : bytes) : result bytes :=
  get_public_key_bytes (slice_to priv 32).

(** [create_ephemeral_key(privkey)] *)
Definition create_ephemeral_key (privkey : bytes) : result (bytes * bytes) :=
  pub ← privkey_to_pubkey privkey;
  Ok (slice_to privkey 32, pub).

(** [act1_initiator_message(hs, my_privkey)]: the state afterwards and the
    message. *)
Definition act1_initiator_message (hs : HandshakeState) (my_privkey : bytes)
    : result (HandshakeState * bytes) :=
  '(epriv, epub) ← create_ephemeral_key my_privkey;
  let hs := hs_update hs epub in
  ss ← get_ecdh epriv (responder_pub hs);
  '(ck2, temp_k1) ← get_bolt8_hkdf (hs_ck hs) ss;
  let hs := hs_set_ck hs ck2 in
  c ← aead_encrypt temp_k1 0 (hs_h hs) [];
  let hs := hs_update hs c in
  let msg := handshake_version ++ epub ++ c in
  _ ← assert (len msg =? 50);
  Ok (hs, msg).

(** [Peer.handshake] *)
Definition handshake : NodeM unit :=
  pubkey ← getsN (fun nd => peer_pubkey (peer nd));
  privkey ← getsN node_privkey;
  let hs := HandshakeState_init pubkey in
  '(hs, msg) ← liftR (act1_initiator_message hs privkey);
  _ ← liftP (writer_write msg);
  rspns ← reader_read;
  _ ← liftR (assert (len rspns =? 50));
  hver ← liftR (getitem_list rspns 0);
  let alice_epub := slice rspns 1 34 in
  let tag := slice_from rspns 34 in
  _ ← liftR (assert (bool_decide ([hver] = handshake_version)));
  let hs := hs_update hs alice_epub in
  '(myepriv, myepub) ← liftR (create_ephemeral_key privkey);
  ss ← liftR (get_ecdh myepriv alice_epub);
  '(ck, temp_k2) ← liftR (get_bolt8_hkdf (hs_ck hs) ss);
  let hs := hs_set_ck hs ck in
  p ← liftR (aead_decrypt temp_k2 0 (hs_h hs) tag);
  let hs := hs_update hs tag in
  my_pubkey ← liftR (privkey_to_pubkey privkey);
  c ← liftR (aead_encrypt temp_k2 1 (hs_h hs) my_pubkey);
  let hs := hs_update hs c in
  ss ← liftR (get_ecdh (slice_to privkey 32) alice_epub);
  '(ck, temp_k3) ← liftR (get_bolt8_hkdf (hs_ck hs) ss);
  let hs := hs_set_ck hs ck in
  t ← liftR (aead_encrypt temp_k3 0 (hs_h hs) []);
  '(sk, rk) ← liftR (get_bolt8_hkdf (hs_ck hs) []);
  _ ← liftP (modify (fun p => set_rk rk (set_sk sk p)));
  let msg := handshake_version ++ c ++ t in
  _ ← liftP (writer_write msg);
  liftP (modify (fun p => set_s_ck ck (set_r_ck ck (set_rn 0 (set_sn 0 p))))).

End Handshake.

(** ** Handlers that use the queues and the channel database *)

(** [repr(b)] for a [bytes] object. *)
Definition repr_byte (quote : byte) (c : byte) : bytes :=
  let n := byte_to_Z c in
  if bool_decide (c = quote) || bool_decide (c = "\"%byte) then ["\"%byte; c]
  else if n =? 9 then str_bytes "\t"
  else if n =? 10 then str_bytes "\n"
  else if n =? 13 then str_bytes "\r"
  else if (n <? 32) || (127 <=? n) then
    str_bytes "\x" ++ [hex_digit (n / 16); hex_digit (n mod 16)]
  else [c].

Definition repr_bytes (b : bytes) : string :=
  let quote : byte :=
    if bool_decide ("'"%byte ∈ b) && negb (bool_decide (x22 ∈ b)) then x22 else "'"%byte in
  string_of_list_byte (["b"%byte; quote] ++ mjoin (repr_byte quote <$> b) ++ [quote]).

(** [LocalState._replace(current_commitment_signature=sig)],
    [LocalState._replace(funding_locked_received=True)] and
    [RemoteState._replace(next_per_commitment_point=next,
    current_per_commitment_point=current)] *)
Definition replace_current_commitment_signature (s : LocalState) (sig : bytes) : LocalState :=
  MkLocalState (local_ctn s) (per_commitment_secret_seed s) (local_amount_msat s)
    (local_next_htlc_id s) (funding_locked_received s) (was_announced s) (Some sig)
    (local_feerate s).
Definition replace_funding_locked_received (s : LocalState) (v : bool) : LocalState :=
  MkLocalState (local_ctn s) (per_commitment_secret_seed s) (local_amount_msat s)
    (local_next_htlc_id s) v (was_announced s) (current_commitment_signature s)
    (local_feerate s).
Definition replace_per_commitment_points (s : RemoteState) (next current : bytes)
    : RemoteState :=
  MkRemoteState (remote_ctn s) next (Some current) (remote_amount_msat s)
    (revocation_store s) (remote_next_htlc_id s) (remote_feerate s).

(** The value of [chan.short_channel_id] as a keyword argument or dict
    entry, and its truth value. *)
Definition short_channel_id_value (chan : Channel) : pyval :=
  match short_channel_id chan with Some b => VBytes b | None => VNone end.
Definition short_channel_id_truthy (chan : Channel) : bool :=
  match short_channel_id chan with Some (_ :: _) => true | _ => false end.

(** [a < b] on [bytes], and [sorted([a, b])]. *)
Fixpoint bytes_lt (a b : bytes) : bool :=
  match a, b with
  | _, [] => false
  | [], _ :: _ => true
  | x :: a', y :: b' =>
      if byte_to_Z x <? byte_to_Z y then true
      else if byte_to_Z y <? byte_to_Z x then false
      else bytes_lt a' b'
  end.
Definition sorted_pair (a b : bytes) : bytes * bytes :=
  if bytes_lt b a then (b, a) else (a, b).

Section QueueHandlers.
Context `{Env} `{Crypto}.

(** [q[key].put_nowait(item)] on a [defaultdict(asyncio.Queue)] *)
Definition put_nowait (key : bytes) (item : gmap string pyval) (q : queues) : queues :=
  <[key := default [] (q !! key) ++ [item]]> q.

(** [self.lnworker.save_channel(chan)] *)
Definition save_channel (chan : Channel) : NodeM unit := callN (SaveChannel chan).

(** [chan = self.channels[channel_id]] *)
Definition channels_getitem (channel_id : bytes) : NodeM Channel :=
  liftP (fun p => (p, getitem (channels p) channel_id)).

(** The effect on [self.channels] of assigning to an attribute of the
    channel object stored under [channel_id]. *)
Definition channels_store (channel_id : bytes) (chan : Channel) : NodeM unit :=
  liftP (modify (fun p => set_channels (<[channel_id := chan]> (channels p)) p)).

(** [Peer.on_error] and [Peer.on_init] *)
Definition on_error (payload : gmap string pyval) : NodeM unit := mret tt.
Definition on_init (payload : gmap string pyval) : NodeM unit := mret tt.

(** [Peer.on_accept_channel] *)
Definition on_accept_channel (payload : gmap string pyval) : NodeM unit :=
  temp_chan_id ← liftR (getbytes payload "temporary_channel_id");
  q ← getsN channel_accepted;
  if bool_decide (q !! temp_chan_id = None) then
    raiseN (Exception "Got unknown accept_channel")
  else modifyN (with_channel_accepted (put_nowait temp_chan_id payload q)).

(** [Peer.on_funding_signed] *)
Definition on_funding_signed (payload : gmap string pyval) : NodeM unit :=
  channel_id ← liftR (getbytes payload "channel_id");
  q ← getsN funding_signed;
  if bool_decide (q !! channel_id = None) then
    raiseN (Exception "Got unknown funding_signed")
  else modifyN (with_funding_signed (put_nowait channel_id payload q)).

(** [Peer.on_channel_update] and [Peer.on_channel_announcement] *)
Definition on_channel_update (payload : gmap string pyval) : NodeM unit :=
  _ ← callN (DbChannelUpdate payload);
  modifyN (with_channel_update_event true).
Definition on_channel_announcement (payload : gmap string pyval) : NodeM unit :=
  _ ← callN (DbChannelAnnouncement payload);
  modifyN (with_channel_update_event true).

(** [Peer.mark_open] *)
Definition mark_open (chan : Channel) : NodeM unit :=
  state ← liftP (fun p => (p, getitem (channel_state p) (channel_id chan)));
  if bool_decide (state = "OPEN"%string) then mret tt
  else
    _ ← liftR (assert (funding_locked_received (local_state chan)));
    _ ← liftP (modify (fun p =>
           set_channel_state (<[channel_id chan := "OPEN"%string]> (channel_state p)) p));
    _ ← liftP (trigger_callback "channel" chan);
    pubkey ← getsN (fun nd => peer_pubkey (peer nd));
    own ← getsN lnworker_pubkey;
    let sorted_keys := sorted_pair pubkey own in
    _ ← callN (DbChannelAnnouncement
                 (kwargs [("short_channel_id", short_channel_id_value chan);
                          ("node_id_1", VBytes sorted_keys.1);
                          ("node_id_2", VBytes sorted_keys.2)]%string));
    _ ← callN (DbChannelUpdate
                 (kwargs [("short_channel_id", short_channel_id_value chan);
                          ("flags", VBytes [x01]);
                          ("cltv_expiry_delta", VBytes [x90]);
                          ("htlc_minimum_msat", VBytes [x03; xe8]);
                          ("fee_base_msat", VBytes [x03; xe8]);
                          ("fee_proportional_millionths", VBytes [x01])]%string));
    callN (DbChannelUpdate
             (kwargs [("short_channel_id", short_channel_id_value chan);
                      ("flags", VBytes [x00]);
                      ("cltv_expiry_delta", VBytes [x90]);
                      ("htlc_minimum_msat", VBytes [x03; xe8]);
                      ("fee_base_msat", VBytes [x03; xe8]);
                      ("fee_proportional_millionths", VBytes [x01])]%string)).

(** [Peer.funding_locked] *)
Definition funding_locked (chan : Channel) : NodeM unit :=
  let channel_id := channel_id chan in
  let per_commitment_secret_index := 2 ^ 48 - 2 in
  let per_commitment_point_second :=
    secret_to_pubkey (int_from_bytes
      (get_per_commitment_secret_from_seed
         (per_commitment_secret_seed (local_state chan)) per_commitment_secret_index)) in
  msg ← liftR (gen_msg structured "funding_locked"
                 (kwargs [("channel_id", VBytes channel_id);
                          ("next_per_commitment_point",
                           VBytes per_commitment_point_second)]%string));
  _ ← liftP (send_message msg);
  if funding_locked_received (local_state chan) then mark_open chan else mret tt.

(** [Peer.on_funding_locked] *)
Definition on_funding_locked (payload : gmap string pyval) : NodeM unit :=
  channel_id ← liftR (getbytes payload "channel_id");
  chan ← getsN (fun nd => channels (peer nd) !! channel_id);
  match chan with
  | None =>
      raiseN (Exception ("('Got unknown funding_locked', " +:+ repr_bytes channel_id +:+ ")"))
  | Some chan =>
      chan ← (if negb (funding_locked_received (local_state chan)) then
                let our_next_point := next_per_commitment_point (remote_state chan) in
                their_next_point ← liftR (getbytes payload "next_per_commitment_point");
                let new_remote_state :=
                  replace_per_commitment_points (remote_state chan)
                    their_next_point our_next_point in
                let new_local_state :=
                  replace_funding_locked_received (local_state chan) true in
                let chan := set_local_state (set_remote_state chan new_remote_state)
                              new_local_state in
                _ ← channels_store channel_id chan;
                _ ← save_channel chan;
                mret chan
              else mret chan);
      if short_channel_id_truthy chan then mark_open chan else mret tt
  end.

(** [Peer.on_commitment_signed] *)
Definition on_commitment_signed (payload : gmap string pyval) : NodeM unit :=
  channel_id ← liftR (getbytes payload "channel_id");
  chan ← channels_getitem channel_id;
  sig ← liftR (getbytes payload "signature");
  let chan := set_local_state chan
                (replace_current_commitment_signature (local_state chan) sig) in
  _ ← channels_store channel_id chan;
  _ ← save_channel chan;
  q ← getsN commitment_signed;
  modifyN (with_commitment_signed (put_nowait channel_id payload q)).

(** [Peer.on_update_fulfill_htlc] *)
Definition on_update_fulfill_htlc (payload : gmap string pyval) : NodeM unit :=
  channel_id ← liftR (getbytes payload "channel_id");
  q ← getsN update_fulfill_htlc;
  modifyN (with_update_fulfill_htlc (put_nowait channel_id payload q)).

(** [Peer.on_update_fail_malformed_htlc] *)
Definition on_update_fail_malformed_htlc (payload : gmap string pyval) : NodeM unit :=
  on_error payload.

(** The [for k in self.invoices.keys()] loop of [on_update_add_htlc]: the
    request and preimage of the first invoice whose preimage hashes to
    [payment_hash], if any. *)
Fixpoint find_invoice (invoices : list (string * string)) (payment_hash : bytes)
    : result (option (string * bytes)) :=
  match invoices with
  | [] => Ok None
  | (k, req) :: rest =>
      preimage ← bytes_fromhex k;
      if bool_decide (sha256 preimage = payment_hash) then Ok (Some (req, preimage))
      else find_invoice rest payment_hash
  end.

(** [Peer.on_update_add_htlc] *)
Definition on_update_add_htlc (payload : gmap string pyval) : NodeM unit :=
  payment_hash ← liftR (getbytes payload "payment_hash");
  invs ← getsN invoices;
  found ← liftR (find_invoice invs payment_hash);
  match found with
  | Some (req, preimage) =>
      decoded ← liftR (lndecode req);
      callN (SpawnReceiveCommitmentRevokeAck payload decoded preimage)
  | None => liftR (assert false)
  end.

(** [Peer.on_revoke_and_ack] *)
Definition on_revoke_and_ack (payload : gmap string pyval) : NodeM unit :=
  channel_id ← liftR (getbytes payload "channel_id");
  q ← getsN revoke_and_ack;
  modifyN (with_revoke_and_ack (put_nowait channel_id payload q)).

(** [Peer.on_update_fee] *)
Definition on_update_fee (payload : gmap string pyval) : NodeM unit :=
  channel_id ← liftR (getbytes payload "channel_id");
  chan ← channels_getitem channel_id;
  feerate ← liftR (getbytes payload "feerate_per_kw");
  chan ← liftR (update_fee chan (int_from_bytes feerate));
  channels_store channel_id chan.

(** The two lists that [send_announcement_signatures] orders:
    [(node_ids, bitcoin_keys)] after its [if sorted_node_ids != node_ids]. *)
Definition announcement_order_signing (node_ids bitcoin_keys : bytes * bytes)
    : (bytes * bytes) * (bytes * bytes) :=
  let sorted_node_ids := sorted_pair node_ids.1 node_ids.2 in
  if bool_decide (sorted_node_ids ≠ node_ids) then
    (sorted_node_ids, (bitcoin_keys.2, bitcoin_keys.1))
  else (node_ids, bitcoin_keys).

(** [Peer.send_announcement_signatures] *)
Definition send_announcement_signatures (chan : Channel) : NodeM (bytes * bytes * bytes) :=
  let bitcoin_keys := (pubkey (multisig_key (local_config chan)),
                       pubkey (multisig_key (remote_config chan))) in
  own_privkey ← getsN node_privkey;
  own ← liftR (privkey_to_pubkey own_privkey);
  remote ← getsN (fun nd => peer_pubkey (peer nd));
  let '(node_ids, bitcoin_keys) := announcement_order_signing (own, remote) bitcoin_keys in
  chan_ann ← liftR (gen_msg structured "channel_announcement"
                (kwargs [("len", VInt 0);
                         ("chain_hash", VBytes REV_GENESIS);
                         ("short_channel_id", short_channel_id_value chan);
                         ("node_id_1", VBytes node_ids.1);
                         ("node_id_2", VBytes node_ids.2);
                         ("bitcoin_key_1", VBytes bitcoin_keys.1);
                         ("bitcoin_key_2", VBytes bitcoin_keys.2)]%string));
  let to_hash := slice_from chan_ann (256 + 2) in
  let h := Hash to_hash in
  bitcoin_signature ← liftR (sign (privkey (multisig_key (local_config chan))) h);
  node_signature ← liftR (sign (Some own_privkey) h);
  msg ← liftR (gen_msg structured "announcement_signatures"
                (kwargs [("channel_id", VBytes (channel_id chan));
                         ("short_channel_id", short_channel_id_value chan);
                         ("node_signature", VBytes node_signature);
                         ("bitcoin_signature", VBytes bitcoin_signature)]%string));
  _ ← liftP (send_message msg);
  mret (h, node_signature, bitcoin_signature).

(** [Peer.on_announcement_signatures] *)
Definition on_announcement_signatures (payload : gmap string pyval) : NodeM unit :=
  channel_id ← liftR (getbytes payload "channel_id");
  chan ← channels_getitem channel_id;
  if was_announced (local_state chan) then
    _ ← send_announcement_signatures chan;
    mret tt
  else
    q ← getsN announcement_signatures;
    modifyN (with_announcement_signatures (put_nowait channel_id payload q)).

(** The four lists that [handle_announcements] orders, after its
    [if node_ids[0] > node_ids[1]]. *)
Definition announcement_order_final {A B C : Type} (node_ids : bytes * bytes)
    (node_sigs : A * A) (bitcoin_sigs : B * B) (bitcoin_keys : C * C)
    : (bytes * bytes) * (A * A) * (B * B) * (C * C) :=
  if bytes_lt node_ids.2 node_ids.1 then
    ((node_ids.2, node_ids.1), (node_sigs.2, node_sigs.1),
     (bitcoin_sigs.2, bitcoin_sigs.1), (bitcoin_keys.2, bitcoin_keys.1))
  else (node_ids, node_sigs, bitcoin_sigs, bitcoin_keys).

(** [Peer.handle_announcements] from the point where its [await] on the
    [announcement_signatures] queue has returned the payload. *)
Definition handle_announcements_resume (chan : Channel)
    (h local_node_sig local_bitcoin_sig : bytes)
    (announcement_signatures_msg : gmap string pyval) : NodeM unit :=
  remote_node_sig ← liftR (getbytes announcement_signatures_msg "node_signature");
  remote_bitcoin_sig ← liftR (getbytes announcement_signatures_msg "bitcoin_signature");
  if negb (verify_signature (pubkey (multisig_key (remote_config chan))) remote_bitcoin_sig h)
  then raiseN (Exception "bitcoin_sig invalid in announcement_signatures")
  else
    remote ← getsN (fun nd => peer_pubkey (peer nd));
    if negb (verify_signature remote remote_node_sig h)
    then raiseN (Exception "node_sig invalid in announcement_signatures")
    else
      own_privkey ← getsN node_privkey;
      own ← liftR (privkey_to_pubkey own_privkey);
      let '(node_ids, node_sigs, bitcoin_sigs, bitcoin_keys) :=
        announcement_order_final (own, remote)
          (local_node_sig, remote_node_sig) (local_bitcoin_sig, remote_bitcoin_sig)
          (pubkey (multisig_key (local_config chan)),
           pubkey (multisig_key (remote_config chan))) in
      channel_announcement ← liftR (gen_msg structured "channel_announcement"
        (kwargs [("node_signatures_1", VBytes node_sigs.1);
                 ("node_signatures_2", VBytes node_sigs.2);
                 ("bitcoin_signature_1", VBytes bitcoin_sigs.1);
                 ("bitcoin_signature_2", VBytes bitcoin_sigs.2);
                 ("len", VInt 0);
                 ("chain_hash", VBytes REV_GENESIS);
                 ("short_channel_id", short_channel_id_value chan);
                 ("node_id_1", VBytes node_ids.1);
                 ("node_id_2", VBytes node_ids.2);
                 ("bitcoin_key_1", VBytes bitcoin_keys.1);
                 ("bitcoin_key_2", VBytes bitcoin_keys.2)]%string));
      liftP (send_message channel_announcement).

(** [Peer.handle_announcements], with the payload that its [await] on the
    [announcement_signatures] queue returns. *)
Definition handle_announcements (chan : Channel)
    (announcement_signatures_msg : gmap string pyval) : NodeM unit :=
  '(h, local_node_sig, local_bitcoin_sig) ← send_announcement_signatures chan;
  handle_announcements_resume chan h local_node_sig local_bitcoin_sig
    announcement_signatures_msg.

(** The method that [getattr(self, 'on_' + message_type)] finds, if any.
    [on_network_update] takes two arguments, so that the call [f(payload)]
    raises [TypeError]; the value a handler returns is dropped. *)
Definition handler_method (message_type : string)
    : option (gmap string pyval -> NodeM unit) :=
  if bool_decide (message_type = "error"%string) then Some on_error
  else if bool_decide (message_type = "ping"%string) then
    Some (fun payload => liftP (on_ping payload))
  else if bool_decide (message_type = "accept_channel"%string) then Some on_accept_channel
  else if bool_decide (message_type = "funding_signed"%string) then Some on_funding_signed
  else if bool_decide (message_type = "node_announcement"%string) then
    Some (fun payload => _ ← liftP (on_node_announcement payload); mret tt)
  else if bool_decide (message_type = "init"%string) then Some on_init
  else if bool_decide (message_type = "channel_update"%string) then Some on_channel_update
  else if bool_decide (message_type = "channel_announcement"%string) then
    Some on_channel_announcement
  else if bool_decide (message_type = "announcement_signatures"%string) then
    Some on_announcement_signatures
  else if bool_decide (message_type = "channel_reestablish"%string) then
    Some (fun payload => liftP (on_channel_reestablish payload))
  else if bool_decide (message_type = "funding_locked"%string) then Some on_funding_locked
  else if bool_decide (message_type = "network_update"%string) then
    Some (fun payload => raiseN TypeError)
  else if bool_decide (message_type = "update_fail_htlc"%string) then
    Some (fun payload => liftP (on_update_fail_htlc payload))
  else if bool_decide (message_type = "commitment_signed"%string) then
    Some on_commitment_signed
  else if bool_decide (message_type = "update_fulfill_htlc"%string) then
    Some on_update_fulfill_htlc
  else if bool_decide (message_type = "update_fail_malformed_htlc"%string) then
    Some on_update_fail_malformed_htlc
  else if bool_decide (message_type = "update_add_htlc"%string) then Some on_update_add_htlc
  else if bool_decide (message_type = "revoke_and_ack"%string) then Some on_revoke_and_ack
  else if bool_decide (message_type = "update_fee"%string) then Some on_update_fee
  else None.

(** [Peer.process_message] *)
Definition process_message (message : bytes) : NodeM unit :=
  '(message_type, payload) ← liftR (decode_msg message_types message);
  match handler_method message_type with
  | None => mret tt
  | Some f =>
      let payload :=
        if bool_decide (message_type = "node_announcement"%string)
        then <["raw"%string := VBytes message]> payload else payload in
      f payload
  end.

(** [self.initialized.set_result(True)] *)
Definition initialized_set_result : NodeM unit := fun nd =>
  match initialized nd with
  | Pending => (with_initialized (Done true) nd, Return tt)
  | _ => (nd, Raised InvalidStateError)
  end.

(** [Peer.main_loop] from the handshake to the first pass of its
    [while True:], on a connection that is already open. *)
Definition main_loop_begin : NodeM unit :=
  _ ← handshake;
  features ← getsN localfeatures;
  msg ← liftR (gen_msg structured "init"
                 (kwargs [("gflen", VInt 0); ("lflen", VInt 1);
                          ("localfeatures", VInt features)]%string));
  _ ← liftP (send_message msg);
  msg ← read_message;
  _ ← process_message msg;
  initialized_set_result.

(** One pass of [main_loop]'s [while True:]. *)
Definition main_loop_pass : NodeM unit :=
  _ ← liftP ping_if_required;
  msg ← read_message;
  process_message msg.

End QueueHandlers.

(** ** Paying: amounts and signatures *)

(** [route_edge.channel_policy], as far as [pay] reads it, and a route edge
    together with its policy. *)
Record ChannelPolicy : Type := MkChannelPolicy {
  cltv_expiry_delta : Z;
  fee_base_msat : Z;
  fee_proportional_millionths : Z
}.

Record PolicyEdge : Type := MkPolicyEdge {
  route_edge : RouteEdge;
  channel_policy : ChannelPolicy
}.

(** [OnionHopsDataSingle(OnionPerHop(short_channel_id, amt_to_forward,
    outgoing_cltv_value))] *)
Record OnionPerHop : Type := MkOnionPerHop {
  hop_short_channel_id : bytes;
  amt_to_forward : bytes;
  outgoing_cltv_value : bytes
}.

(** [UpdateAddHtlc(amount_msat, payment_hash, cltv_expiry, total_fee)] *)
Record UpdateAddHtlc : Type := MkUpdateAddHtlc {
  htlc_amount_msat : Z;
  htlc_payment_hash : bytes;
  htlc_cltv_expiry : Z;
  htlc_total_fee : Z
}.

(** What [pay] has computed when it sends [update_add_htlc]. *)
Record PayPlan : Type := MkPayPlan {
  hops_data : list OnionPerHop;
  total_fee : Z;
  final_cltv_expiry_with_deltas : Z;
  msat_local : Z;
  msat_remote : Z;
  htlc : UpdateAddHtlc;
  (** [amount_msat] after [amount_msat += total_fee] *)
  sent_amount_msat : Z;
  (** [onion.to_bytes()] *)
  onion_routing_packet : bytes
}.

(** [sum(...)] over a list of integers *)
Definition sum_list (l : list Z) : Z := foldl Z.add 0 l.

(** The [for idx, route_edge in enumerate(route[1:])] loop of [pay], with
    the running [hops_data] and [total_fee]. *)
Fixpoint pay_hops (edges : list PolicyEdge) (amount_msat final_cltv_expiry_without_deltas : Z)
    (hops_data : list OnionPerHop) (total_fee : Z) : result (list OnionPerHop * Z) :=
  match edges with
  | [] => Ok (hops_data, total_fee)
  | edge :: edges' =>
      amt ← to_bytes amount_msat 8;
      cltv ← to_bytes final_cltv_expiry_without_deltas 4;
      pay_hops edges' amount_msat final_cltv_expiry_without_deltas
        (hops_data ++ [MkOnionPerHop (edge_short_channel_id (route_edge edge))
                         amt cltv])
        (total_fee + (fee_base_msat (channel_policy edge)
                      + amount_msat * fee_proportional_millionths (channel_policy edge)
                        / 1000000))
  end.

Section Pay.
(** [new_onion_packet(node_ids, secret_key, hops_data, associated_data)],
    read through its [to_bytes()]. *)
Variable new_onion_packet : list bytes -> bytes -> list OnionPerHop -> bytes -> result bytes.

(** [Peer.pay] from its second assertion to the values it has computed when
    it sends [update_add_htlc]; [height] is [network.get_local_height()],
    [route] what [create_route_from_path] returned, [secret_key] what
    [os.urandom(32)] returned, and the two amounts those of
    [chan.local_state] and [chan.remote_state]. *)
Definition pay_prepare (route : list PolicyEdge) (local_amount remote_amount : Z)
    (amount_msat : Z) (payment_hash : bytes) (height min_final_cltv_expiry : Z)
    (secret_key : bytes) : result PayPlan :=
  _ ← assert (0 <? amount_msat);
  let sum_of_deltas :=
    sum_list ((fun e => cltv_expiry_delta (channel_policy e)) <$> slice_from route 1) in
  let total_fee := 0 in
  let final_cltv_expiry_without_deltas := height + min_final_cltv_expiry in
  let final_cltv_expiry_with_deltas := final_cltv_expiry_without_deltas + sum_of_deltas in
  '(hops_data, total_fee) ←
    pay_hops (slice_from route 1) amount_msat final_cltv_expiry_without_deltas [] total_fee;
  let associated_data := payment_hash in
  amt ← to_bytes amount_msat 8;
  cltv ← to_bytes final_cltv_expiry_without_deltas 4;
  let hops_data := hops_data ++ [MkOnionPerHop (replicate 8 x00) amt cltv] in
  onion ← new_onion_packet ((fun x => edge_node_id (route_edge x)) <$> route) secret_key
             hops_data associated_data;
  let msat_local := local_amount - (amount_msat + total_fee) in
  let msat_remote := remote_amount + (amount_msat + total_fee) in
  let htlc := MkUpdateAddHtlc amount_msat payment_hash final_cltv_expiry_with_deltas
                total_fee in
  let amount_msat := amount_msat + total_fee in
  Ok (MkPayPlan hops_data total_fee final_cltv_expiry_with_deltas msat_local msat_remote
        htlc amount_msat onion).

End Pay.

(** [range(0, stop, step)] for a positive [step] *)
Definition range_step (stop step : Z) : list Z :=
  (fun k => step * k) <$> seqZ 0 ((stop + step - 1) / step).

(** [[data[i:i+64] for i in range(0, len(data), 64)]] *)
Definition htlc_sig_chunks (data : bytes) : list bytes :=
  (fun i => slice data i (i + 64)) <$> range_step (len data) 64.

(** [Peer.receive_commitment], with the payload that its [await] on the
    [commitment_signed] queue returns: the channel afterwards and the number
    returned. *)
Definition receive_commitment `{Env} (m : Channel) (commitment_signed_msg : gmap string pyval)
    : result (Channel * Z) :=
  data ← getbytes commitment_signed_msg "htlc_signature";
  let htlc_sigs := htlc_sig_chunks data in
  sig ← getbytes commitment_signed_msg "signature";
  m ← receive_new_commitment m sig htlc_sigs;
  Ok (m, len htlc_sigs).

(** ** A scripted [Crypto] and a node for running scenarios

    The stand-in for decryption checks the tag that [scenario_encrypt]
    appends and returns the rest. *)

Definition scenario_decrypt (k nonce data associated_data : bytes) : result bytes :=
  let n := (length data - 16)%nat in
  if (16 <=? len data)
     && bool_decide (drop n data
                     = be_digits 16 ((int_from_bytes k + int_from_bytes nonce) mod 2 ^ 128))
  then Ok (take n data)
  else Raise (Exception "InvalidTag").

#[global] Instance scenario_crypto : Crypto := {|
  sha256 := fun b => scenario_hmac [] b;
  get_ecdh := fun priv pub => Ok (scenario_hmac priv pub);
  get_public_key_bytes := fun priv => Ok (x02 :: priv);
  chacha20poly1305_decrypt := scenario_decrypt;
  sign := fun k h =>
    match k with
    | Some k => Ok (scenario_hmac k h ++ scenario_hmac h k)
    | None => Raise TypeError
    end;
  LnAddr := string;
  lndecode := fun req => Ok req;
  update_fee := fun chan feerate => Ok chan
|}.

(** A node right after connecting, around [scenario_peer]. *)
Definition scenario_node : Node :=
  MkNode scenario_peer (replicate 32 x11 ++ [x01]) (x02 :: replicate 32 x11) 0
    [] [] Pending ∅ ∅ ∅ ∅ ∅ ∅ [] false [].

(** Modelled from the spec: the [channel_announcement] entry of the absent
    [lightning.json], in the layout of BOLT 7.  Its four leading 64-byte
    signatures put the signed part at byte 258 of the serialization, the
    offset [send_announcement_signatures] hashes from. *)
Definition channel_announcement_message : message :=
  Message "256"
    [("node_signature_1", PosLen "0" "64" None);
     ("node_signature_2", PosLen "64" "64" None);
     ("bitcoin_signature_1", PosLen "128" "64" None);
     ("bitcoin_signature_2", PosLen "192" "64" None);
     ("len", PosLen "256" "2" None);
     ("features", PosLen "258" "len" None);
     ("chain_hash", PosLen "258+len" "32" None);
     ("short_channel_id", PosLen "290+len" "8" None);
     ("node_id_1", PosLen "298+len" "33" None);
     ("node_id_2", PosLen "331+len" "33" None);
     ("bitcoin_key_1", PosLen "364+len" "33" None);
     ("bitcoin_key_2", PosLen "397+len" "33" None)]%string.

(** The scenario's schema with that entry, the handlers loaded from it,
    and the scenario's collaborators around both. *)
Definition announcing_schema : schema :=
  scenario_schema ++ [("channel_announcement", channel_announcement_message)]%string.

Definition announcing_message_types : gmap bytes (string * message) :=
  match load_message_types announcing_schema with Ok mt => mt | Raise _ => ∅ end.

Definition announcing_env : Env := {|
  structured := announcing_schema;
  message_types := announcing_message_types;
  hmac_sha256 := scenario_hmac;
  chacha20poly1305_encrypt := scenario_encrypt;
  verify_signature := fun _ _ _ => true;
  Hash := fun b => scenario_hmac [] b;
  decode_onion_error := scenario_decode_onion_error;
  REV_GENESIS := replicate 32 x6f;
  TYPE_ADDRESS := 0;
  get_keypair := get_keypair;
  get_per_commitment_secret_from_seed := get_per_commitment_secret_from_seed;
  secret_to_pubkey := secret_to_pubkey;
  funding_output_script := funding_output_script;
  redeem_script_to_address := redeem_script_to_address;
  mktx := mktx;
  HTLCStateMachine := HTLCStateMachine;
  sign_next_commitment := sign_next_commitment;
  receive_new_commitment := receive_new_commitment;
  broadcast_transaction := broadcast_transaction
|}.

(** [scenario_channel] once its funding is buried: block 1, transaction 2,
    output 0. *)
Definition scenario_buried_channel : Channel :=
  MkChannel (node_id scenario_channel) (channel_id scenario_channel)
    (Some [x00; x00; x01; x00; x00; x02; x00; x00])
    (funding_outpoint scenario_channel) (local_config scenario_channel)
    (remote_config scenario_channel) (remote_state scenario_channel)
    (local_state scenario_channel) (constraints scenario_channel).

Section Opened.
Context `{Crypto}.

(** The node after [mark_open] has run to its end: the channel is [OPEN],
    the callback has fired, and the channel database has been told the
    announcement and the two updates. *)
Definition opened (chan : Channel) (nd : Node) : Node :=
  let cid := channel_id chan in
  let scid := short_channel_id_value chan in
  let keys := sorted_pair (peer_pubkey (peer nd)) (lnworker_pubkey nd) in
  let update flags :=
    kwargs [("short_channel_id", scid); ("flags", VBytes flags);
            ("cltv_expiry_delta", VBytes [x90]); ("htlc_minimum_msat", VBytes [x03; xe8]);
            ("fee_base_msat", VBytes [x03; xe8]);
            ("fee_proportional_millionths", VBytes [x01])]%string in
  with_outside
    (outside nd ++
     [DbChannelAnnouncement
        (kwargs [("short_channel_id", scid); ("node_id_1", VBytes keys.1);
                 ("node_id_2", VBytes keys.2)]%string);
      DbChannelUpdate (update [x01]); DbChannelUpdate (update [x00])])
    (with_peer
       (set_trace (trace (peer nd) ++ [EvCallback "channel" cid])
          (set_channel_state (<[cid := "OPEN"%string]> (channel_state (peer nd))) (peer nd)))
       nd).

End Opened.

(** * Properties *)

#[local] Set Warnings "-clear-no-such-hyp".

(** ** The loader *)

Lemma register_entries mt0 k v mt :
  register mt0 k v = Ok mt ->
  forall b h, mt !! b = Some h -> mt0 !! b = Some h \/ h = (k, v).
Proof.
  unfold register. intros Hreg b h Hb.
  repeat case_match; simplify_eq; auto.
  destruct (to_bytes _ 2) as [byts|] eqn:Hbyts; simpl in Hreg; [|done].
  destruct (assert (bool_decide (mt0 !! byts = None))); simpl in Hreg; [|done].
  destruct (assert (bool_decide (k ∉ _))); simpl in Hreg; [|done].
  simplify_eq. destruct (decide (byts = b)) as [->|Hne].
  - rewrite lookup_insert_eq in Hb. right. congruence.
  - rewrite lookup_insert_ne in Hb by done. auto.
Qed.

Lemma register_all_entries s : forall mt0 mt,
  register_all s mt0 = Ok mt ->
  forall b h, mt !! b = Some h -> mt0 !! b = Some h \/ h ∈ s.
Proof.
  induction s as [|[k v] s IH]; simpl; intros mt0 mt Hreg b h Hb.
  - simplify_eq. auto.
  - destruct (register mt0 k v) as [mt1|] eqn:H1; simpl in Hreg; [|done].
    destruct (IH _ _ Hreg _ _ Hb) as [Hin|Hin].
    + destruct (register_entries _ _ _ _ H1 _ _ Hin) as [?| ->]; [auto|].
      right. apply list_elem_of_here.
    + right. by apply list_elem_of_further.
Qed.

Lemma ordered_getitem_elem {A} (d : list (string * A)) k v :
  NoDup d.*1 -> (k, v) ∈ d -> ordered_getitem d k = Ok v.
Proof.
  induction d as [|[k' v'] d IH]; simpl; intros Hnd Hin.
  - by apply elem_of_nil in Hin.
  - apply NoDup_cons in Hnd as [Hk Hnd].
    apply elem_of_cons in Hin as [Heq|Hin].
    + simplify_eq. by rewrite bool_decide_eq_true_2.
    + rewrite bool_decide_eq_false_2; [by apply IH|].
      intros ->. apply Hk. apply list_elem_of_fmap. by exists (k, v).
Qed.

(** After a successful import, the handler stored under a type code is the
    closure over one entry of [structured]. *)
Lemma loaded_handler s mt b k v :
  NoDup s.*1 ->
  load_message_types s = Ok mt ->
  mt !! b = Some (k, v) ->
  ordered_getitem s k = Ok v.
Proof.
  unfold load_message_types. intros Hnd Hload Hb.
  destruct (register_all s ∅) as [mt'|] eqn:Hreg; simpl in Hload; [|done].
  destruct (getitem mt' _) as [h|]; simpl in Hload; [|done].
  destruct (assert _); simpl in Hload; [|done]. simplify_eq.
  destruct (register_all_entries _ _ _ Hreg _ _ Hb) as [Hin|Hin].
  - by rewrite lookup_empty in Hin.
  - by apply ordered_getitem_elem.
Qed.

Lemma loaded_init s mt :
  NoDup s.*1 ->
  load_message_types s = Ok mt ->
  exists v, mt !! [x00; x10] = Some ("init"%string, v) /\ ordered_getitem s "init" = Ok v.
Proof.
  intros Hnd Hload. pose proof Hload as Hload'. unfold load_message_types in Hload.
  destruct (register_all s ∅) as [mt'|] eqn:Hreg; simpl in Hload; [|done].
  unfold getitem in Hload.
  destruct (mt' !! [x00; x10]) as [[k v]|] eqn:Hget; simpl in Hload; [|done].
  destruct (bool_decide (k = "init"%string)) eqn:Hk; simpl in Hload; [|done].
  apply bool_decide_eq_true_1 in Hk. simplify_eq.
  exists v. split; [done|]. eapply loaded_handler; eauto.
Qed.

Lemma loaded_value (s : schema) :
  is_ok (load_message_types s) = true ->
  load_message_types s
  = Ok (match load_message_types s with Ok mt => mt | Raise _ => ∅ end).
Proof. by destruct (load_message_types s). Qed.

(** ** C8: the codec scenario for [init] *)

(** C8.  With the [init] entry of the schema, [gen_msg("init", gflen=0,
    lflen=1, localfeatures=0x08)] is the byte string [0010 0000 0001 08], and
    [decode_msg] of [0010 0000 0000] is ["init"] with a field map whose
    [gflen] and [lflen] are the two-byte strings [0000], that is the
    integer 0 (the two feature-length payloads are empty). *)
Theorem init_codec_scenario (s : schema) (mt : gmap bytes (string * message)) :
  NoDup s.*1 ->
  ordered_getitem s "init" = Ok init_message ->
  load_message_types s = Ok mt ->
  gen_msg s "init" (kwargs [("gflen", VInt 0); ("lflen", VInt 1); ("localfeatures", VInt 0x08)]%string)
    = Ok [x00; x10; x00; x00; x00; x01; x08]
  /\ decode_msg mt [x00; x10; x00; x00; x00; x00]
       = Ok ("init"%string,
             kwargs [("gflen", VBytes [x00; x00]); ("globalfeatures", VBytes []);
                     ("lflen", VBytes [x00; x00]); ("localfeatures", VBytes [])]%string)
  /\ int_from_bytes [x00; x00] = 0.
Proof.
  intros Hnd Hinit Hload. split; [|split; [|reflexivity]].
  - unfold gen_msg. rewrite Hinit. vm_compute. reflexivity.
  - destruct (loaded_init _ _ Hnd Hload) as (v & Hmt & Hv).
    rewrite Hinit in Hv. simplify_eq.
    unfold decode_msg, getitem.
    change (slice_to [x00; x10; x00; x00; x00; x00] 2) with [x00; x10].
    rewrite Hmt. vm_compute. reflexivity.
Qed.

Lemma init_codec_scenario_witness :
  gen_msg base_schema "init" (kwargs [("gflen", VInt 0); ("lflen", VInt 1); ("localfeatures", VInt 0x08)]%string)
    = Ok [x00; x10; x00; x00; x00; x01; x08]
  /\ decode_msg base_message_types [x00; x10; x00; x00; x00; x00]
       = Ok ("init"%string,
             kwargs [("gflen", VBytes [x00; x00]); ("globalfeatures", VBytes []);
                     ("lflen", VBytes [x00; x00]); ("localfeatures", VBytes [])]%string)
  /\ int_from_bytes [x00; x00] = 0.
Proof.
  apply (init_codec_scenario base_schema base_message_types).
  - apply (bool_decide_unpack (NoDup base_schema.*1)). vm_compute. exact I.
  - vm_compute. reflexivity.
  - apply loaded_value. vm_compute. reflexivity.
Defined.

(** ** C2: nonce counters and key rotation *)

Section Transport.
Context `{Env}.

Lemma calls_S {A} (n : nat) (m : M A) (p : Peer) :
  calls (S n) m p =
  match m p with
  | (p', Ok a) =>
      match calls n m p' with
      | (p'', Ok l) => (p'', Ok (a :: l))
      | (p'', Raise e) => (p'', Raise e)
      end
  | (p', Raise e) => (p', Raise e)
  end.
Proof.
  simpl. unfold mbind, M_bind, mret, M_ret.
  destruct (m p) as [p' [a|e]]; [|done].
  by destruct (calls n m p') as [p'' [l|e]].
Qed.

Lemma calls_snoc {A} (n : nat) (m : M A) : forall (p : Peer),
  calls (n + 1) m p =
  match calls n m p with
  | (p', Ok l) =>
      match m p' with
      | (p'', Ok a) => (p'', Ok (l ++ [a]))
      | (p'', Raise e) => (p'', Raise e)
      end
  | (p', Raise e) => (p', Raise e)
  end.
Proof.
  induction n as [|n IH]; intros p.
  - change (0 + 1)%nat with 1%nat. rewrite calls_S. simpl.
    unfold mret, M_ret. by destruct (m p) as [p' [a|e]].
  - change (S n + 1)%nat with (S (n + 1)). rewrite !calls_S.
    destruct (m p) as [p' [a|e]]; [|done]. rewrite IH.
    destruct (calls n m p') as [p'' [l|e]]; [|done].
    by destruct (m p'') as [p3 [b|e]].
Qed.

Lemma sn_within_epoch (p : Peer) :
  _sn p + 1 ≠ 1000 -> sn p = (set_sn (_sn p + 1) p, Ok (_sn p)).
Proof.
  intros Hne. unfold sn. cbn -[Z.add].
  destruct (Z.eqb_spec (_sn p + 1) 1000); [done|reflexivity].
Qed.

Lemma rn_within_epoch (p : Peer) :
  _rn p + 1 ≠ 1000 -> rn p = (set_rn (_rn p + 1) p, Ok (_rn p, rk p)).
Proof.
  intros Hne. unfold rn. cbn -[Z.add].
  destruct (Z.eqb_spec (_rn p + 1) 1000); [done|reflexivity].
Qed.

Lemma sn_rotates (p : Peer) ck k :
  _sn p = 999 -> get_bolt8_hkdf (s_ck p) (sk p) = Ok (ck, k) ->
  sn p = (set_sn 0 (set_sk k (set_s_ck ck p)), Ok 999).
Proof.
  intros Hc Hk. unfold sn. cbn -[Z.add get_bolt8_hkdf]. rewrite Hc. simpl Z.eqb.
  cbn iota. rewrite Hk. reflexivity.
Qed.

Lemma rn_rotates (p : Peer) ck k :
  _rn p = 999 -> get_bolt8_hkdf (r_ck p) (rk p) = Ok (ck, k) ->
  rn p = (set_rn 0 (set_rk k (set_r_ck ck p)), Ok (999, rk p)).
Proof.
  intros Hc Hk. unfold rn. cbn -[Z.add get_bolt8_hkdf]. rewrite Hc. simpl Z.eqb.
  cbn iota. rewrite Hk. reflexivity.
Qed.

Lemma calls_sn_epoch (n : nat) : forall (p : Peer),
  0 <= _sn p -> _sn p + Z.of_nat n < 1000 ->
  calls n sn p = (set_sn (_sn p + Z.of_nat n) p, Ok (seqZ (_sn p) (Z.of_nat n))).
Proof.
  induction n as [|n IH]; intros p H0 Hlt.
  - simpl. unfold mret, M_ret. rewrite Z.add_0_r. by destruct p.
  - rewrite calls_S, sn_within_epoch by lia.
    rewrite IH by (simpl; lia). simpl _sn.
    replace (_sn p + 1 + Z.of_nat n) with (_sn p + Z.of_nat (S n)) by lia.
    rewrite (seqZ_cons (_sn p) (Z.of_nat (S n))) by lia.
    replace (Z.succ (_sn p)) with (_sn p + 1) by lia.
    replace (Z.pred (Z.of_nat (S n))) with (Z.of_nat n) by lia.
    reflexivity.
Qed.

Lemma calls_rn_epoch (n : nat) : forall (p : Peer),
  0 <= _rn p -> _rn p + Z.of_nat n < 1000 ->
  calls n rn p = (set_rn (_rn p + Z.of_nat n) p,
                  Ok ((fun i => (i, rk p)) <$> seqZ (_rn p) (Z.of_nat n))).
Proof.
  induction n as [|n IH]; intros p H0 Hlt.
  - simpl. unfold mret, M_ret. rewrite Z.add_0_r. by destruct p.
  - rewrite calls_S, rn_within_epoch by lia.
    rewrite IH by (simpl; lia). simpl _rn. simpl rk.
    replace (_rn p + 1 + Z.of_nat n) with (_rn p + Z.of_nat (S n)) by lia.
    rewrite (seqZ_cons (_rn p) (Z.of_nat (S n))) by lia.
    replace (Z.succ (_rn p)) with (_rn p + 1) by lia.
    replace (Z.pred (Z.of_nat (S n))) with (Z.of_nat n) by lia.
    reflexivity.
Qed.

(** C2.  In each direction the counter handed out by successive calls counts
    up from its current value as long as it stays below 1000, leaving the
    keys alone; and a direction whose counter starts at 0 hands out
    0, 1, ..., 999 over its first 1000 calls, after which its chaining key
    and key are the two halves of [get_bolt8_hkdf(chain, key)], its counter
    is 0, and nothing else of the peer - in particular the other
    direction - has changed.  All 1000 uses of [rn] still return the old
    receiving key. *)
Theorem nonce_counters_rotate (p : Peer) :
  (forall n : nat, 0 <= _sn p -> _sn p + Z.of_nat n < 1000 ->
     calls n sn p = (set_sn (_sn p + Z.of_nat n) p, Ok (seqZ (_sn p) (Z.of_nat n))))
  /\ (forall ck k, _sn p = 0 -> get_bolt8_hkdf (s_ck p) (sk p) = Ok (ck, k) ->
        calls 1000 sn p = (set_sn 0 (set_sk k (set_s_ck ck p)), Ok (seqZ 0 1000)))
  /\ (forall n : nat, 0 <= _rn p -> _rn p + Z.of_nat n < 1000 ->
        calls n rn p = (set_rn (_rn p + Z.of_nat n) p,
                        Ok ((fun i => (i, rk p)) <$> seqZ (_rn p) (Z.of_nat n))))
  /\ (forall ck k, _rn p = 0 -> get_bolt8_hkdf (r_ck p) (rk p) = Ok (ck, k) ->
        calls 1000 rn p = (set_rn 0 (set_rk k (set_r_ck ck p)),
                           Ok ((fun i => (i, rk p)) <$> seqZ 0 1000))).
Proof.
  split; [|split; [|split]].
  - intros n. apply calls_sn_epoch.
  - intros ck k H0 Hk.
    change 1000%nat with (999 + 1)%nat. rewrite calls_snoc.
    rewrite calls_sn_epoch by lia. rewrite H0.
    rewrite (sn_rotates _ ck k) by (simpl; first [lia|done]).
    change 1000 with (Z.of_nat (S 999)).
    rewrite seqZ_S. reflexivity.
  - intros n. apply calls_rn_epoch.
  - intros ck k H0 Hk.
    change 1000%nat with (999 + 1)%nat. rewrite calls_snoc.
    rewrite calls_rn_epoch by lia. rewrite H0.
    rewrite (rn_rotates _ ck k) by (simpl; first [lia|done]).
    change 1000 with (Z.of_nat (S 999)).
    rewrite seqZ_S, fmap_app. reflexivity.
Qed.

End Transport.

Lemma nonce_counters_rotate_witness :
  calls 1000 sn scenario_peer
    = (set_sn 0 (set_sk (scenario_hmac (scenario_hmac (replicate 32 x03) (replicate 32 x01))
                           (scenario_hmac (scenario_hmac (replicate 32 x03) (replicate 32 x01)) [x01]
                            ++ [x02]))
                   (set_s_ck (scenario_hmac (scenario_hmac (replicate 32 x03) (replicate 32 x01)) [x01])
                      scenario_peer)),
       Ok (seqZ 0 1000)).
Proof.
  apply (proj1 (proj2 (nonce_counters_rotate scenario_peer))).
  - reflexivity.
  - vm_compute. reflexivity.
Defined.

(** ** C10: the encoder skips feature fields *)

Lemma handlesingle_agree (x : string) (ma1 ma2 : gmap string pyval) :
  ma1 !! x = ma2 !! x -> handlesingle x ma1 = handlesingle x ma2.
Proof. unfold handlesingle, getitem. by intros ->. Qed.

Lemma handlesingle_bound (x : string) (ma : gmap string pyval) (n : Z) :
  handlesingle x ma = Ok n -> is_Some (int_of_str x) \/ is_Some (ma !! x).
Proof.
  unfold handlesingle, getitem. destruct (int_of_str x); [eauto|].
  destruct (ma !! x); [eauto|done].
Qed.

(** A term that evaluates over [lengths] does not look at a name that
    [lengths] leaves unbound, whatever the caller supplies under it. *)
Lemma handlesingle_ignores (x f : string) (v : pyval) (kw lengths : gmap string pyval) (n : Z) :
  lengths !! f = None ->
  handlesingle x lengths = Ok n ->
  handlesingle x (<[f := v]> kw ∪ lengths) = handlesingle x (kw ∪ lengths).
Proof.
  intros Hf Hx. destruct (handlesingle_bound _ _ _ Hx) as [[m Hm]|[w Hw]].
  - unfold handlesingle. by rewrite Hm.
  - apply handlesingle_agree. rewrite !lookup_union.
    rewrite lookup_insert_ne; [done|]. intros ->. congruence.
Qed.

Lemma sum_terms_ignores (f : string) (v : pyval) (kw lengths : gmap string pyval) terms :
  lengths !! f = None ->
  forall acc acc' n, sum_terms terms lengths acc = Ok n ->
  sum_terms terms (<[f := v]> kw ∪ lengths) acc' = sum_terms terms (kw ∪ lengths) acc'.
Proof.
  intros Hf. induction terms as [|t terms IH]; intros acc acc' n Hsum; [done|].
  simpl in *. destruct (handlesingle t lengths) as [x|] eqn:Hx; [|done].
  rewrite (handlesingle_ignores _ _ _ _ _ _ Hf Hx).
  destruct (handlesingle t (kw ∪ lengths)); [|done]. simpl in *. eauto.
Qed.

Lemma product_terms_ignores (f : string) (v : pyval) (kw lengths : gmap string pyval) terms :
  lengths !! f = None ->
  forall acc acc' n, product_terms terms lengths acc = Ok n ->
  product_terms terms (<[f := v]> kw ∪ lengths) acc' = product_terms terms (kw ∪ lengths) acc'.
Proof.
  intros Hf. induction terms as [|t terms IH]; intros acc acc' n Hsum; [done|].
  simpl in *. destruct (handlesingle t lengths) as [x|] eqn:Hx; [|done].
  rewrite (handlesingle_ignores _ _ _ _ _ _ Hf Hx).
  destruct (handlesingle t (kw ∪ lengths)); [|done]. simpl in *. eauto.
Qed.

Lemma calcexp_ignores (f : string) (v : pyval) (kw lengths : gmap string pyval) exp n :
  lengths !! f = None ->
  calcexp exp lengths = Ok n ->
  calcexp exp (<[f := v]> kw ∪ lengths) = calcexp exp (kw ∪ lengths).
Proof.
  unfold calcexp. intros Hf Hc. destruct (contains "*" exp).
  - destruct (assert _); [|done]. simpl in *. eauto using product_terms_ignores.
  - eauto using sum_terms_ignores.
Qed.

Lemma encode_field_ignores (k f : string) (v : pyval) (p : poslen)
    (kw lengths : gmap string pyval) :
  k ≠ f -> lengths !! f = None ->
  encode_field k p (<[f := v]> kw) lengths = encode_field k p kw lengths.
Proof.
  intros Hk Hf. unfold encode_field.
  destruct (calcexp (length_exp p) lengths) as [leng|] eqn:Hc; [|done].
  simpl. rewrite (calcexp_ignores _ _ _ _ _ _ Hf Hc).
  by rewrite lookup_insert_ne.
Qed.

Lemma gen_loop_ignores (f : string) (v : pyval) (kw : gmap string pyval) fields :
  (forall p, (f, p) ∈ fields -> has_feature p = true) ->
  forall lengths data, lengths !! f = None ->
  gen_loop fields (<[f := v]> kw) lengths data = gen_loop fields kw lengths data.
Proof.
  induction fields as [|[k p] fields IH]; intros Hfeat lengths data Hf; [done|].
  simpl. destruct (has_feature p) eqn:Hp.
  - apply IH; [|done]. intros q Hq. apply Hfeat. by apply list_elem_of_further.
  - assert (k ≠ f) as Hk.
    { intros ->. rewrite Hfeat in Hp; [done|]. apply list_elem_of_here. }
    rewrite encode_field_ignores by done.
    destruct (encode_field k p kw lengths) as [param|]; [|done]. simpl.
    apply IH.
    + intros q Hq. apply Hfeat. by apply list_elem_of_further.
    + by rewrite lookup_insert_ne.
Qed.

Lemma gen_loop_filter (kw : gmap string pyval) fields : forall lengths data,
  gen_loop fields kw lengths data
  = gen_loop (List.filter (fun kp => negb (has_feature kp.2)) fields) kw lengths data.
Proof.
  induction fields as [|[k p] fields IH]; intros lengths data; [done|].
  simpl. destruct (has_feature p) eqn:Hp; simpl; [done|]. rewrite Hp.
  destruct (encode_field k p kw lengths); [|done]. simpl. apply IH.
Qed.

Lemma ordered_getitem_strip (s : schema) (k : string) :
  ordered_getitem (strip_features s) k = without_features <$> ordered_getitem s k.
Proof.
  induction s as [|[k' v] s IH]; [done|].
  cbn [strip_features fmap list_fmap ordered_getitem fst snd].
  destruct (bool_decide (k' = k)); [done|]. apply IH.
Qed.

(** C10.  [gen_msg] produces the bytes (or raises the exception) that it
    produces for the schema with all feature fields deleted, and a value
    supplied under the name of a feature field - of any kind, [None]
    included - changes neither the bytes nor the exception. *)
Theorem gen_msg_skips_feature_fields (s : schema) (msg_type : string)
    (kw : gmap string pyval) :
  gen_msg s msg_type kw = gen_msg (strip_features s) msg_type kw
  /\ (forall typ f v,
        ordered_getitem s msg_type = Ok typ ->
        (forall p, (f, p) ∈ payload typ -> has_feature p = true) ->
        gen_msg s msg_type (<[f := v]> kw) = gen_msg s msg_type kw).
Proof.
  split.
  - unfold gen_msg. rewrite ordered_getitem_strip.
    destruct (ordered_getitem s msg_type) as [typ|]; [|done]. simpl.
    destruct (int_of_str (type typ)); [|done]. simpl.
    destruct (to_bytes _ 2); [|done]. simpl. apply gen_loop_filter.
  - intros typ f v Htyp Hfeat. unfold gen_msg. rewrite Htyp. simpl.
    destruct (int_of_str (type typ)); [|done]. simpl.
    destruct (to_bytes _ 2); [|done]. simpl.
    by apply gen_loop_ignores.
Qed.

Lemma gen_msg_skips_feature_fields_witness :
  gen_msg scenario_schema "channel_reestablish"
    (<["my_current_per_commitment_point"%string := VNone]>
       (kwargs [("channel_id", VBytes (replicate 32 x07));
                ("next_local_commitment_number", VInt 1);
                ("next_remote_revocation_number", VInt 0)]%string))
  = gen_msg scenario_schema "channel_reestablish"
      (kwargs [("channel_id", VBytes (replicate 32 x07));
               ("next_local_commitment_number", VInt 1);
               ("next_remote_revocation_number", VInt 0)]%string).
Proof.
  apply (proj2 (gen_msg_skips_feature_fields scenario_schema "channel_reestablish" _)
           channel_reestablish_message).
  - vm_compute. reflexivity.
  - intros p Hin. simpl in Hin.
    repeat (apply elem_of_cons in Hin as [Heq|Hin]; [by simplify_eq|]).
    by apply elem_of_nil in Hin.
Defined.

(** ** C6: address parsing in [on_node_announcement] *)

Lemma read_app (n : Z) (pre rest : bytes) :
  len pre = n -> read n (pre ++ rest) = (pre, rest).
Proof.
  intros <-. unfold read, slice, slice_from, adjust_index, len.
  rewrite length_app.
  destruct (Z.ltb_spec (Z.of_nat (length pre)) 0); [lia|].
  rewrite Z.min_l by lia. change (0 <? 0) with false. cbv iota.
  rewrite Z.min_l by lia. rewrite Z.sub_0_r, Nat2Z.id.
  change (Z.to_nat 0) with 0%nat. rewrite drop_0.
  by rewrite take_app_length, drop_app_length.
Qed.

Lemma parse_addresses_cons (c : byte) (s : bytes) (addresses : list address) :
  parse_addresses (c :: s) addresses
  = parse_addresses (address_step (byte_to_Z c) s).2
      (addresses ++ (address_step (byte_to_Z c) s).1).
Proof. by simp parse_addresses. Qed.

(** C6, as the code has it.  The loop stops when the block is exhausted; a
    type byte 1 followed by six bytes yields the dotted IPv4 address of the
    first four and the big-endian port of the last two and goes on behind
    them; a type byte other than 1 and 2 - 0 or unknown - consumes nothing
    but itself, and parsing goes on with the next byte. *)
Theorem parse_addresses_spec (addresses : list address) :
  parse_addresses [] addresses = addresses
  /\ (forall a b c d p1 p2 rest,
        parse_addresses (x01 :: a :: b :: c :: d :: p1 :: p2 :: rest) addresses
        = parse_addresses rest
            (addresses ++
             [(HostStr (str_of_int (byte_to_Z a) +:+ "." +:+ str_of_int (byte_to_Z b) +:+ "."
                        +:+ str_of_int (byte_to_Z c) +:+ "." +:+ str_of_int (byte_to_Z d)),
               256 * byte_to_Z p1 + byte_to_Z p2)]))
  /\ (forall t rest, byte_to_Z t ≠ 1 -> byte_to_Z t ≠ 2 ->
        parse_addresses (t :: rest) addresses = parse_addresses rest addresses).
Proof.
  split; [by simp parse_addresses|split].
  - intros a b c d p1 p2 rest. rewrite parse_addresses_cons.
    change (byte_to_Z x01) with 1. unfold address_step. cbn [Z.eqb Pos.eqb].
    change (a :: b :: c :: d :: p1 :: p2 :: rest) with ([a; b; c; d] ++ [p1; p2] ++ rest).
    rewrite (read_app 4 [a; b; c; d] ([p1; p2] ++ rest)) by done.
    rewrite (read_app 2 [p1; p2] rest) by done.
    cbn [fst snd]. reflexivity.
  - intros t rest H1 H2. rewrite parse_addresses_cons. unfold address_step.
    destruct (Z.eqb_spec (byte_to_Z t) 0); [by rewrite app_nil_r|].
    destruct (Z.eqb_spec (byte_to_Z t) 1); [done|].
    destruct (Z.eqb_spec (byte_to_Z t) 2); [done|].
    by rewrite app_nil_r.
Qed.

Lemma parse_addresses_spec_witness :
  parse_addresses [x03; x01; x7f; x00; x00; x01; x26; x07] []
  = parse_addresses [x01; x7f; x00; x00; x01; x26; x07] [].
Proof.
  apply (proj2 (proj2 (parse_addresses_spec []))); vm_compute; discriminate.
Defined.

(** An unknown type byte (3) in front of an IPv4 entry: the entry behind it
    is parsed all the same. *)
Lemma parse_addresses_unknown_type_counterexample :
  parse_addresses [x03; x01; x7f; x00; x00; x01; x26; x07] []
  = [(HostStr "127.0.0.1", 9735)]
  /\ parse_addresses [x03; x01; x7f; x00; x00; x01; x26; x07] [] ≠ [].
Proof.
  assert (parse_addresses [x03; x01; x7f; x00; x00; x01; x26; x07] []
          = [(HostStr "127.0.0.1", 9735)]) as ->; [|done].
  repeat (rewrite parse_addresses_cons; vm_compute address_step; cbn [fst snd app]).
  by simp parse_addresses.
Qed.

(** ** C5: [on_update_fail_htlc] *)

Lemma failure_categories_spec (code : Z) :
  ("BADONION"%string ∈ failure_categories code <-> Z.land code 0x8000 ≠ 0)
  /\ ("PERM"%string ∈ failure_categories code <-> Z.land code 0x4000 ≠ 0)
  /\ ("NODE"%string ∈ failure_categories code <-> Z.land code 0x2000 ≠ 0)
  /\ ("UPDATE"%string ∈ failure_categories code <-> Z.land code 0x1000 ≠ 0)
  /\ failure_categories code ⊆ ["BADONION"; "PERM"; "NODE"; "UPDATE"]%string.
Proof.
  unfold failure_categories.
  repeat case_bool_decide; cbn [app];
    repeat split; intros; try done; set_solver.
Qed.

Section UpdateFail.
Context `{Env}.

(** C5, as the code has it.  For an [update_fail_htlc] on a recorded route
    whose failing hop has a successor in the route, the handler blacklists
    that successor's short channel id and enqueues, under the channel id,
    "HTLC failure with code <code> (categories <list>)", the list holding
    BADONION, PERM, NODE, UPDATE, in this order, for the bits 0x8000,
    0x4000, 0x2000, 0x1000 that are set in the code.  For a three-hop route,
    sender index 0 and code 0x1007 (4103, which has the UPDATE bit only)
    the hop is the second one and the string is
    "HTLC failure with code 4103 (categories ['UPDATE'])". *)
Theorem on_update_fail_htlc_spec (payload : gmap string pyval) (p : Peer)
    (cid idb reason secret : bytes) (route : list RouteEdge)
    (failure : OnionRoutingFailureMessage) (sender_idx : Z) (edge : RouteEdge) :
  getbytes payload "channel_id" = Ok cid ->
  getbytes payload "id" = Ok idb ->
  attempted_route p !! (cid, int_from_bytes idb) = Some route ->
  getbytes payload "reason" = Ok reason ->
  secret_key p = Some secret ->
  decode_onion_error reason (edge_node_id <$> route) secret = Ok (failure, sender_idx) ->
  getitem_list route (sender_idx + 1) = Ok edge ->
  let msg := ("HTLC failure with code " +:+ str_of_int (code failure)
              +:+ " (categories " +:+ repr_str_list (failure_categories (code failure)) +:+ ")")%string in
  on_update_fail_htlc payload p
  = (set_update_fail_htlc
       (<[cid := default [] (update_fail_htlc p !! cid) ++ [msg]]> (update_fail_htlc p))
       (set_blacklist ({[edge_short_channel_id edge]} ∪ blacklist p) p), Ok tt)
  /\ ("BADONION"%string ∈ failure_categories (code failure) <-> Z.land (code failure) 0x8000 ≠ 0)
  /\ ("PERM"%string ∈ failure_categories (code failure) <-> Z.land (code failure) 0x4000 ≠ 0)
  /\ ("NODE"%string ∈ failure_categories (code failure) <-> Z.land (code failure) 0x2000 ≠ 0)
  /\ ("UPDATE"%string ∈ failure_categories (code failure) <-> Z.land (code failure) 0x1000 ≠ 0)
  /\ (code failure = 0x1007 ->
      msg = "HTLC failure with code 4103 (categories ['UPDATE'])"%string)
  /\ (forall e1 e2 e3, route = [e1; e2; e3] -> sender_idx = 0 -> edge = e2).
Proof.
  intros Hcid Hid Hroute Hreason Hsecret Hdecode Hedge msg.
  split; [|split; [|split; [|split; [|split; [|split]]]]];
    try apply failure_categories_spec.
  - unfold on_update_fail_htlc, mbind, M_bind, lift, modify, getitem.
    rewrite Hcid, Hid. simpl. rewrite Hroute, Hreason. simpl.
    rewrite Hsecret, Hdecode, Hedge. reflexivity.
  - intros Hc. subst msg. rewrite Hc. vm_compute. reflexivity.
  - intros e1 e2 e3 -> ->. vm_compute in Hedge. congruence.
Qed.

End UpdateFail.

Lemma on_update_fail_htlc_spec_witness :
  on_update_fail_htlc
    (kwargs [("channel_id", VBytes (replicate 32 x07));
             ("id", VBytes (replicate 8 x00));
             ("reason", VBytes [x10; x07; x00])]%string)
    scenario_paying_peer
  = (set_update_fail_htlc
       {[ replicate 32 x07 := ["HTLC failure with code 4103 (categories ['UPDATE'])"%string] ]}
       (set_blacklist {[ [x00; x00; x00; x00; x00; x00; x00; x02] ]} scenario_paying_peer),
     Ok tt).
Proof.
  refine (eq_trans (proj1 (on_update_fail_htlc_spec _ scenario_paying_peer
            (replicate 32 x07) (replicate 8 x00) [x10; x07; x00] (replicate 32 x09)
            scenario_route (MkFailure 0x1007 []) 0
            (MkRouteEdge (x02 :: replicate 32 x0b) [x00; x00; x00; x00; x00; x00; x00; x02])
            _ _ _ _ _ _ _)) _);
    vm_compute; reflexivity.
Defined.

(** The spec's scenario: three hops, code 0x1007.  The queue receives the
    string with the single category UPDATE, not the one naming NODE. *)
Lemma on_update_fail_htlc_0x1007_counterexample :
  let payload := kwargs [("channel_id", VBytes (replicate 32 x07));
                         ("id", VBytes (replicate 8 x00));
                         ("reason", VBytes [x10; x07; x00])]%string in
  let p' := (on_update_fail_htlc payload scenario_paying_peer).1 in
  (on_update_fail_htlc payload scenario_paying_peer).2 = Ok tt
  /\ blacklist p' = {[ [x00; x00; x00; x00; x00; x00; x00; x02] ]}
  /\ update_fail_htlc p' !! replicate 32 x07
     = Some ["HTLC failure with code 4103 (categories ['UPDATE'])"%string]
  /\ update_fail_htlc p' !! replicate 32 x07
     ≠ Some ["HTLC failure with code 4103 (categories ['NODE', 'UPDATE'])"%string].
Proof.
  cbv zeta. split; [vm_compute; reflexivity|].
  split; [vm_compute; reflexivity|].
  assert (update_fail_htlc (on_update_fail_htlc
            (kwargs [("channel_id", VBytes (replicate 32 x07));
                     ("id", VBytes (replicate 8 x00));
                     ("reason", VBytes [x10; x07; x00])]%string) scenario_paying_peer).1
          !! replicate 32 x07
          = Some ["HTLC failure with code 4103 (categories ['UPDATE'])"%string]) as ->.
  { vm_compute. reflexivity. }
  split; [reflexivity|discriminate].
Qed.

(** ** Facts about the integer codec *)

Lemma be_digits_length (n : nat) : forall (z : Z), length (be_digits n z) = n.
Proof.
  induction n as [|n IH]; intros z; [done|].
  simpl. rewrite length_app, IH. simpl. lia.
Qed.

Lemma to_bytes_ok (n l : Z) :
  0 <= l -> 0 <= n < 256 ^ l -> to_bytes n l = Ok (be_digits (Z.to_nat l) n).
Proof.
  intros Hl Hn. unfold to_bytes.
  destruct (Z.ltb_spec l 0); [lia|].
  destruct (Z.ltb_spec n 0); [lia|].
  destruct (Z.leb_spec (256 ^ l) n); [lia|done].
Qed.

Lemma to_bytes_length (n l : Z) (b : bytes) : to_bytes n l = Ok b -> len b = l.
Proof.
  unfold to_bytes. repeat case_match; intros; simplify_eq.
  unfold len. rewrite be_digits_length. lia.
Qed.

(** An expression that is a single integer literal evaluates to it in every
    environment. *)
Lemma calcexp_literal (exp : string) (n : Z) (ma : gmap string pyval) :
  contains "*" exp = false -> contains "+" exp = false -> int_of_str exp = Some n ->
  calcexp exp ma = Ok n.
Proof.
  intros Hstar Hplus Hint. unfold calcexp. rewrite Hstar.
  assert (split "+" exp = [exp]) as ->.
  { clear Hstar Hint. induction exp as [|c exp IH]; [done|].
    simpl in *. apply orb_false_iff in Hplus as [Hc Hplus].
    rewrite Hc, IH by done. done. }
  simpl. unfold handlesingle. rewrite Hint. reflexivity.
Qed.


Lemma encode_field_literal_int k p (kw lengths : gmap string pyval) (w n : Z) :
  contains "*" (length_exp p) = false -> contains "+" (length_exp p) = false ->
  int_of_str (length_exp p) = Some w ->
  kw !! k = Some (VInt n) -> 0 <= w -> 0 <= n < 256 ^ w ->
  encode_field k p kw lengths = Ok (be_digits (Z.to_nat w) n).
Proof.
  intros H1 H2 H3 Hk Hw Hn. unfold encode_field.
  rewrite !(calcexp_literal _ w) by done. cbn [mbind result_bind].
  rewrite Hk. cbn [default from_option id]. rewrite to_bytes_ok by done.
  cbn [mbind result_bind]. unfold len. rewrite be_digits_length.
  by rewrite bool_decide_eq_false_2 by (intros ?; lia).
Qed.

(** ** Channel reestablishment: the message and the handler's checks *)

Section Reestablish.
Context `{Env}.


Lemma on_channel_reestablish_unfold (payload : gmap string pyval) (p : Peer)
    (cid : bytes) (chan : Channel) :
  getbytes payload "channel_id" = Ok cid ->
  channels p !! cid = Some chan ->
  on_channel_reestablish payload p =
  match getbytes payload "next_local_commitment_number" with
  | Raise e => (p, Raise e)
  | Ok b1 =>
      if bool_decide (int_from_bytes b1 ≠ remote_ctn (remote_state chan) + 1) then
        (p, Raise (Exception ("expected remote ctn "
                              +:+ str_of_int (remote_ctn (remote_state chan) + 1)
                              +:+ ", got " +:+ str_of_int (int_from_bytes b1))))
      else
        match getbytes payload "next_remote_revocation_number" with
        | Raise e => (p, Raise e)
        | Ok b2 =>
            if bool_decide (int_from_bytes b2 ≠ local_ctn (local_state chan)) then
              (p, Raise (Exception ("expected local ctn "
                                    +:+ str_of_int (local_ctn (local_state chan))
                                    +:+ ", got " +:+ str_of_int (int_from_bytes b2))))
            else
              match getbytes payload "my_current_per_commitment_point" with
              | Raise e => (p, Raise e)
              | Ok their =>
                  let our := match current_per_commitment_point (remote_state chan) with
                             | Some our => our
                             | None => next_per_commitment_point (remote_state chan)
                             end in
                  if bool_decide (our ≠ their) then
                    (p, Raise (Exception ("Remote PCP mismatch: " +:+ bh2u our
                                          +:+ " " +:+ bh2u their)))
                  else set_result cid true p
              end
        end
  end.
Proof.
  intros Hcid Hchan. unfold on_channel_reestablish, mbind, M_bind, lift, gets, raise.
  rewrite Hcid, Hchan.
  destruct (getbytes payload "next_local_commitment_number") as [b1|]; [|done].
  case_bool_decide; [done|].
  destruct (getbytes payload "next_remote_revocation_number") as [b2|]; [|done].
  case_bool_decide; [done|].
  destruct (getbytes payload "my_current_per_commitment_point") as [their|]; [|done].
  cbv zeta. by case_bool_decide.
Qed.

End Reestablish.

(** ** Effects of [send_message] *)

Section SendMessage.
Context `{Env}.

Lemma sn_frame (p : Peer) :
  ping_time (sn p).1 = ping_time p /\ clock (sn p).1 = clock p /\ trace (sn p).1 = trace p.
Proof. unfold sn. by repeat case_match. Qed.

(** A send leaves the ping timer and the clock alone and writes at most one
    frame. *)
Lemma send_message_frame (msg : bytes) (p : Peer) :
  ping_time (send_message msg p).1 = ping_time p
  /\ clock (send_message msg p).1 = clock p
  /\ (trace (send_message msg p).1 = trace p
      \/ exists d, trace (send_message msg p).1 = trace p ++ [EvWrite d]).
Proof.
  unfold send_message, mbind, M_bind, lift, gets, writer_write, emit, modify.
  pose proof (sn_frame p) as (Hp1 & Hc1 & Ht1).
  destruct (decode_msg _ _); [|by auto].
  destruct (to_bytes _ 2); [|by auto].
  destruct (sn p) as [p1 [n1|]]; simpl in Hp1, Hc1, Ht1;
    [|simpl; split_and?; [congruence..|left; congruence]].
  pose proof (sn_frame p1) as (Hp2 & Hc2 & Ht2).
  destruct (aead_encrypt _ _ _ _);
    [|simpl; split_and?; [congruence..|left; congruence]].
  destruct (sn p1) as [p2 [n2|]]; simpl in Hp2, Hc2, Ht2;
    [|simpl; split_and?; [congruence..|left; congruence]].
  destruct (aead_encrypt _ _ _ _);
    [|simpl; split_and?; [congruence..|left; congruence]].
  destruct (assert _);
    [|simpl; split_and?; [congruence..|left; congruence]].
  destruct (assert _);
    [|simpl; split_and?; [congruence..|left; congruence]].
  simpl; split_and?; [congruence..|right; eexists; f_equal; congruence].
Qed.

Lemma get_nonce_bytes_ok (n : Z) :
  0 <= n < 1000 -> get_nonce_bytes n = Ok (replicate 4 x00 ++ reverse (be_digits 8 n)).
Proof.
  intros Hn. unfold get_nonce_bytes, to_bytes_little.
  rewrite to_bytes_ok by (change (256 ^ 8) with 18446744073709551616; lia).
  reflexivity.
Qed.

(** A send that does not cross a key rotation writes the two frames of
    BOLT 8: the encrypted 2-byte length under nonce [sn], then the encrypted
    message under nonce [sn + 1], both under the current sending key. *)
Lemma send_message_plain (msg : bytes) (p : Peer) (decoded : string * gmap string pyval) :
  (forall k n d a, len (chacha20poly1305_encrypt k n d a) = len d + 16) ->
  decode_msg message_types msg = Ok decoded ->
  len msg < 65536 ->
  0 <= _sn p -> _sn p + 2 < 1000 ->
  send_message msg p
  = (set_trace
       (trace p ++
        [EvWrite
           (chacha20poly1305_encrypt (sk p)
              (replicate 4 x00 ++ reverse (be_digits 8 (_sn p)))
              (be_digits 2 (len msg)) []
            ++ chacha20poly1305_encrypt (sk p)
                 (replicate 4 x00 ++ reverse (be_digits 8 (_sn p + 1))) msg [])])
       (set_sn (_sn p + 2) p), Ok tt).
Proof.
  intros Haead Hdec Hlen H0 Hsn.
  unfold send_message, mbind, M_bind, lift, gets, writer_write, emit, modify.
  rewrite Hdec.
  rewrite to_bytes_ok by (unfold len in *; change (256 ^ 2) with 65536; lia).
  rewrite sn_within_epoch by lia. unfold aead_encrypt.
  rewrite get_nonce_bytes_ok by lia. cbn [mbind result_bind].
  rewrite sn_within_epoch by (simpl; lia).
  cbn [_sn set_sn sk]. rewrite get_nonce_bytes_ok by lia. cbn [mbind result_bind].
  rewrite !Haead. unfold len at 1. rewrite be_digits_length.
  change (Z.of_nat (Z.to_nat 2) + 16 =? 18) with true.
  rewrite Z.eqb_refl. cbn [assert].
  replace (_sn p + 1 + 1) with (_sn p + 2) by lia.
  reflexivity.
Qed.

End SendMessage.

(** ** C4: channel reestablishment *)

Section ReestablishFlow.
Context `{Env}.


End ReestablishFlow.




(** ** C9: the ping timer *)

Section Ping.
Context `{Env}.

(** C9, as the code has it.  An iteration of the dispatch loop sends a ping
    exactly when the clock is more than 120 seconds past [ping_time], the
    time of the previous ping (0 at start): if not, the iteration goes
    straight to reading; if so, it sends [gen_msg('ping', num_pong_bytes=4,
    byteslen=4)] - with the schema's ping entry the bytes 0012 0004 0004
    and four zero bytes, written as the two encrypted frames - and moves
    [ping_time] to the clock.  No send moves [ping_time], so sends other
    than pings do not postpone the next ping.  A clock 121 seconds past the
    previous ping is due, one 120 seconds past it is not. *)
Theorem ping_if_required_spec (p : Peer) (read_and_process : M unit) :
  let ping_kw := kwargs [("num_pong_bytes", VInt 4); ("byteslen", VInt 4)]%string in
  (PrimFloat.ltb 120 (PrimFloat.sub (clock p) (ping_time p)) = false ->
     main_loop_iteration read_and_process p = read_and_process p)
  /\ (forall msg p',
        PrimFloat.ltb 120 (PrimFloat.sub (clock p) (ping_time p)) = true ->
        gen_msg structured "ping" ping_kw = Ok msg ->
        send_message msg p = (p', Ok tt) ->
        main_loop_iteration read_and_process p
        = read_and_process (set_ping_time (clock p) p'))
  /\ (forall msg,
        ping_time (send_message msg p).1 = ping_time p
        /\ clock (send_message msg p).1 = clock p)
  /\ (ordered_getitem structured "ping" = Ok ping_message ->
      gen_msg structured "ping" ping_kw
      = Ok [x00; x12; x00; x04; x00; x04; x00; x00; x00; x00])
  /\ (forall msg decoded,
        (forall k n d a, len (chacha20poly1305_encrypt k n d a) = len d + 16) ->
        decode_msg message_types msg = Ok decoded ->
        len msg < 65536 -> 0 <= _sn p -> _sn p + 2 < 1000 ->
        send_message msg p
        = (set_trace
             (trace p ++
              [EvWrite
                 (chacha20poly1305_encrypt (sk p)
                    (replicate 4 x00 ++ reverse (be_digits 8 (_sn p)))
                    (be_digits 2 (len msg)) []
                  ++ chacha20poly1305_encrypt (sk p)
                       (replicate 4 x00 ++ reverse (be_digits 8 (_sn p + 1))) msg [])])
             (set_sn (_sn p + 2) p), Ok tt))
  /\ PrimFloat.ltb 120 (PrimFloat.sub 1121 1000) = true
  /\ PrimFloat.ltb 120 (PrimFloat.sub 1120 1000) = false.
Proof.
  intros ping_kw. split_and?.
  - intros Hdue. unfold main_loop_iteration, ping_if_required, mbind, M_bind,
      time_time, gets, mret, M_ret.
    by rewrite Hdue.
  - intros msg p' Hdue Hmsg Hsend.
    pose proof (send_message_frame msg p) as (_ & Hclock & _).
    rewrite Hsend in Hclock. simpl in Hclock.
    unfold main_loop_iteration, ping_if_required, mbind, M_bind,
      time_time, gets, mret, M_ret, lift, modify.
    fold ping_kw. rewrite Hdue, Hmsg, Hsend, Hclock. reflexivity.
  - intros msg. pose proof (send_message_frame msg p). tauto.
  - intros Hping. unfold gen_msg. rewrite Hping. vm_compute. reflexivity.
  - intros msg decoded. apply send_message_plain.
  - vm_compute. reflexivity.
  - vm_compute. reflexivity.
Qed.

End Ping.

Lemma ping_if_required_spec_witness :
  let p := set_clock 1121 (set_ping_time 1000 scenario_peer) in
  main_loop_iteration (mret tt) p
  = (set_ping_time 1121
       (set_trace
          [EvWrite
             (scenario_encrypt (sk p) (replicate 4 x00 ++ reverse (be_digits 8 0))
                [x00; x0a] []
              ++ scenario_encrypt (sk p) (replicate 4 x00 ++ reverse (be_digits 8 1))
                   [x00; x12; x00; x04; x00; x04; x00; x00; x00; x00] [])]
          (set_sn 2 p)), Ok tt).
Proof.
  intros p.
  refine (eq_trans (proj1 (proj2 (ping_if_required_spec p (mret tt)))
            [x00; x12; x00; x04; x00; x04; x00; x00; x00; x00]
            (send_message [x00; x12; x00; x04; x00; x04; x00; x00; x00; x00] p).1 _ _ _) _);
    vm_compute; reflexivity.
Defined.

(** A pong is sent at clock 1100, one hundred seconds after the last ping;
    at clock 1121, twenty-one seconds after that send, the loop pings
    again. *)
Lemma ping_after_recent_send_counterexample :
  let p0 := set_clock 1100 (set_ping_time 1000 scenario_peer) in
  let sent := on_ping (kwargs [("num_pong_bytes", VBytes [x00; x04])]%string) p0 in
  let p1 := set_clock 1121 sent.1 in
  let pinged := ping_if_required p1 in
  sent.2 = Ok tt
  /\ (exists pong, trace sent.1 = [EvWrite pong])
  /\ pinged.2 = Ok tt
  /\ (exists ping, trace pinged.1 = trace sent.1 ++ [EvWrite ping])
  /\ ping_time pinged.1 = 1121%float.
Proof.
  cbv zeta. split_and?.
  - vm_compute. reflexivity.
  - eexists. vm_compute. reflexivity.
  - vm_compute. reflexivity.
  - eexists. vm_compute. reflexivity.
  - vm_compute. reflexivity.
Qed.

(** ** C7 and C3: the channel-open flow *)

Lemma bind_ok_inv {A B} (m : M A) (k : A -> M B) (p p' : Peer) (b : B) :
  (a ← m; k a) p = (p', Ok b) -> exists a p1, m p = (p1, Ok a) /\ k a p1 = (p', Ok b).
Proof.
  unfold mbind, M_bind. destruct (m p) as [p1 [a|e]]; [eauto|done].
Qed.

Section OpenChannelProperties.
Context `{Env}.
Variables (password : string) (funding_sat push_msat : Z) (temp_channel_id : bytes).

Lemma send_message_keeps (e : event) (msg : bytes) (p : Peer) :
  e ∈ trace p -> e ∈ trace (send_message msg p).1.
Proof.
  intros He. destruct (send_message_frame msg p) as (_ & _ & [-> | [d ->]]); [done|].
  apply elem_of_app. by left.
Qed.

(** Once the wallet has been asked for the funding transaction, the request
    stays in the trace whatever the rest of the flow does. *)
Lemma open_channel_fund_asks_wallet (req : OpenRequest) (pcp : bytes)
    (remote_config : ChannelConfig) (depth : Z) (p : Peer) (script addr : string) :
  funding_output_script (req_local_config req) remote_config = Ok script ->
  redeem_script_to_address "p2wsh" script = Ok addr ->
  EvMktx [(TYPE_ADDRESS, addr, funding_sat)] password
  ∈ trace (open_channel_fund password funding_sat push_msat temp_channel_id
             req pcp remote_config depth p).1.
Proof.
  intros Hscript Haddr.
  unfold open_channel_fund, mbind, M_bind, lift, gets, emit, modify, mret, M_ret.
  rewrite Hscript, Haddr.
  set (p1 := set_trace _ p).
  assert (EvMktx [(TYPE_ADDRESS, addr, funding_sat)] password ∈ trace p1) as Hin.
  { subst p1. simpl. apply elem_of_app. right. apply list_elem_of_here. }
  clearbody p1.
  destruct (mktx _ _); [|done].
  destruct (list_index _ _); [|done].
  destruct (channel_id_from_funding_tx _ _) as [[cid txb]|]; [|done].
  destruct (sign_next_commitment _) as [[[sig sigs] m]|]; [|done].
  destruct (gen_msg _ _ _) as [msg|]; [|done].
  pose proof (send_message_keeps _ msg p1 Hin).
  by destruct (send_message msg p1) as [p2 [[]|]].
Qed.

(** C7.  For an [accept_channel] payload that carries the fields the flow
    reads, the flow goes on to build the funding transaction if and only
    if the remote's [dust_limit_satoshis] is below 600, its
    [htlc_minimum_msat] below 600000 and its
    [max_htlc_value_in_flight_msat] at least 198000000: then it continues
    with the funding part, whose request to the wallet is recorded; on any
    violation it raises [AssertionError] with the peer untouched - nothing
    sent, the wallet not asked. *)
Theorem accept_channel_sanity_checks (req : OpenRequest) (payload : gmap string pyval)
    (p : Peer)
    (pcp payment funding htlc delayed revocation delay dust in_flight accepted depth
       htlc_minimum : bytes) :
  getbytes payload "first_per_commitment_point" = Ok pcp ->
  getbytes payload "payment_basepoint" = Ok payment ->
  getbytes payload "funding_pubkey" = Ok funding ->
  getbytes payload "htlc_basepoint" = Ok htlc ->
  getbytes payload "delayed_payment_basepoint" = Ok delayed ->
  getbytes payload "revocation_basepoint" = Ok revocation ->
  getbytes payload "to_self_delay" = Ok delay ->
  getbytes payload "dust_limit_satoshis" = Ok dust ->
  getbytes payload "max_htlc_value_in_flight_msat" = Ok in_flight ->
  getbytes payload "max_accepted_htlcs" = Ok accepted ->
  getbytes payload "minimum_depth" = Ok depth ->
  getbytes payload "htlc_minimum_msat" = Ok htlc_minimum ->
  let remote_config :=
    MkChannelConfig (OnlyPubkeyKeypair payment) (OnlyPubkeyKeypair funding)
      (OnlyPubkeyKeypair htlc) (OnlyPubkeyKeypair delayed) (OnlyPubkeyKeypair revocation)
      (int_from_bytes delay) (int_from_bytes dust) (int_from_bytes in_flight)
      (int_from_bytes accepted) in
  let sane := int_from_bytes dust < 600
              /\ int_from_bytes htlc_minimum < 600000
              /\ 198000000 <= int_from_bytes in_flight in
  let accepted_flow :=
    open_channel_accepted password funding_sat push_msat temp_channel_id req payload p in
  (sane <-> is_ok (accept_channel_checks payload) = true)
  /\ (sane ->
      accepted_flow
      = open_channel_fund password funding_sat push_msat temp_channel_id
          req pcp remote_config (int_from_bytes depth) p)
  /\ (sane -> forall script addr,
        funding_output_script (req_local_config req) remote_config = Ok script ->
        redeem_script_to_address "p2wsh" script = Ok addr ->
        EvMktx [(TYPE_ADDRESS, addr, funding_sat)] password ∈ trace accepted_flow.1)
  /\ (~ sane -> accepted_flow = (p, Raise AssertionError)).
Proof.
  intros H1 H2 H3 H4 H5 H6 H7 H8 H9 H10 H11 H12 remote_config sane accepted_flow.
  assert (accept_channel_checks payload =
          (_ ← assert (int_from_bytes dust <? 600);
           _ ← assert (int_from_bytes htlc_minimum <? 600 * 1000);
           _ ← assert (198 * 1000 * 1000 <=? int_from_bytes in_flight);
           Ok (pcp, remote_config, int_from_bytes depth))) as Hchecks.
  { unfold accept_channel_checks.
    rewrite H1, H2, H3, H4, H5, H6, H7, H8, H9, H10, H11. cbn [mbind result_bind].
    cbn [dust_limit_sat max_htlc_value_in_flight_msat].
    destruct (assert (int_from_bytes dust <? 600)); [|done]. cbn [mbind result_bind].
    by rewrite H12. }
  subst accepted_flow. unfold open_channel_accepted, mbind at 1, M_bind, lift.
  rewrite Hchecks. subst sane. change (600 * 1000) with 600000.
  change (198 * 1000 * 1000) with 198000000.
  destruct (Z.ltb_spec (int_from_bytes dust) 600) as [Hd|Hd];
    [|cbn; split_and?; [split; [lia|done]|lia|lia|done]].
  destruct (Z.ltb_spec (int_from_bytes htlc_minimum) 600000) as [Hh|Hh];
    [|cbn; split_and?; [split; [lia|done]|lia|lia|done]].
  destruct (Z.leb_spec 198000000 (int_from_bytes in_flight)) as [Hf|Hf];
    [|cbn; split_and?; [split; [lia|done]|lia|lia|done]].
  cbn [assert mbind result_bind is_ok]. split_and?.
  - done.
  - done.
  - intros _ script addr Hs Ha. by apply (open_channel_fund_asks_wallet _ _ _ _ _ script).
  - intros Hn. exfalso. apply Hn. lia.
Qed.

(** C3, as the code has it.  When the commitment engine accepts the
    [funding_signed] signature and the broadcast succeeds, the last part of
    the open flow returns the state machine with both commitment numbers set
    to 0 and the remote's signature stored as the local state's
    [current_commitment_signature]; the remote state is changed in its
    commitment number only.  Every completed run of the whole flow ends
    this way. *)
Theorem open_channel_completes (accept_channel funding_signed : gmap string pyval)
    (p : Peer) :
  (forall fund sig m0,
     getbytes funding_signed "signature" = Ok sig ->
     receive_new_commitment (fund_m fund) sig [] = Ok m0 ->
     (broadcast_transaction (fund_tx fund)).1 = true ->
     open_channel_signed fund funding_signed p
     = (set_trace (trace p ++ [EvBroadcast (fund_tx fund)]) p,
        Ok (set_local_state (set_remote_state m0 (replace_remote_ctn (remote_state m0) 0))
              (replace_local_ctn_sig (local_state m0) 0 sig))))
  /\ (forall p' m,
        channel_establishment_flow password funding_sat push_msat temp_channel_id
          accept_channel funding_signed p = (p', Ok m) ->
        exists sig fund m0,
          getbytes funding_signed "signature" = Ok sig
          /\ receive_new_commitment (fund_m fund) sig [] = Ok m0
          /\ local_ctn (local_state m) = 0
          /\ remote_ctn (remote_state m) = 0
          /\ current_commitment_signature (local_state m) = Some sig
          /\ remote_state m = replace_remote_ctn (remote_state m0) 0).
Proof.
  split.
  - intros fund sig m0 Hsig Hrecv Hbroadcast.
    unfold open_channel_signed, mbind, M_bind, lift, emit, modify, mret, M_ret.
    rewrite Hsig, Hrecv.
    destruct (broadcast_transaction (fund_tx fund)) as [success txid_].
    simpl in Hbroadcast. subst success. reflexivity.
  - intros p' m Hflow. unfold channel_establishment_flow in Hflow.
    apply bind_ok_inv in Hflow as (req & p1 & _ & Hflow).
    apply bind_ok_inv in Hflow as (fund & p2 & _ & Hflow).
    unfold open_channel_signed, mbind, M_bind, lift, emit, modify, mret, M_ret in Hflow.
    destruct (getbytes funding_signed "signature") as [sig|]; [|done].
    destruct (receive_new_commitment (fund_m fund) sig []) as [m0|] eqn:Hrecv; [|done].
    destruct (broadcast_transaction (fund_tx fund)) as [[] txid_]; [|done].
    simpl in Hflow. simplify_eq. by exists sig, fund, m0.
Qed.

End OpenChannelProperties.

Lemma accept_channel_sanity_checks_witness :
  open_channel_accepted "pw" 100000 0 (replicate 32 x07)
    (MkOpenRequest (local_config scenario_channel) (replicate 32 x0e) 20000)
    scenario_accept_channel_dusty scenario_peer
  = (scenario_peer, Raise AssertionError).
Proof.
  refine (proj2 (proj2 (proj2
            (accept_channel_sanity_checks "pw" 100000 0 (replicate 32 x07)
               (MkOpenRequest (local_config scenario_channel) (replicate 32 x0e) 20000)
               scenario_accept_channel_dusty scenario_peer
               (x03 :: replicate 32 x36) (x02 :: replicate 32 x33) (x02 :: replicate 32 x31)
               (x02 :: replicate 32 x35) (x02 :: replicate 32 x34) (x02 :: replicate 32 x32)
               (be_digits 2 144) (be_digits 8 600) (be_digits 8 200000000)
               (be_digits 2 483) (be_digits 4 3) (be_digits 8 1000)
               _ _ _ _ _ _ _ _ _ _ _ _))) _);
    try (vm_compute; reflexivity).
  intros [Hdust _]. vm_compute in Hdust. discriminate.
Defined.

Lemma open_channel_completes_witness :
  let run := channel_establishment_flow "pw" 100000 0 (replicate 32 x07)
               scenario_accept_channel scenario_funding_signed scenario_peer in
  exists m sig fund m0,
    run.2 = Ok m
    /\ getbytes scenario_funding_signed "signature" = Ok sig
    /\ receive_new_commitment (fund_m fund) sig [] = Ok m0
    /\ local_ctn (local_state m) = 0
    /\ remote_ctn (remote_state m) = 0
    /\ current_commitment_signature (local_state m) = Some sig
    /\ remote_state m = replace_remote_ctn (remote_state m0) 0.
Proof.
  intros run.
  destruct run as [p' [m|e]] eqn:Hrun.
  - destruct (proj2 (open_channel_completes "pw" 100000 0 (replicate 32 x07)
                       scenario_accept_channel scenario_funding_signed scenario_peer)
                p' m Hrun) as (sig & fund & m0 & Hw).
    exists m, sig, fund, m0. split; [reflexivity|exact Hw].
  - exfalso. subst run.
    assert (is_ok (channel_establishment_flow "pw" 100000 0 (replicate 32 x07)
                     scenario_accept_channel scenario_funding_signed scenario_peer).2 = true)
      as Hok by (vm_compute; reflexivity).
    rewrite Hrun in Hok. discriminate.
Defined.

(** The scripted open: the remote signs with 64 bytes 0x52, the local
    signature is 64 bytes 0x51.  The run completes, the local state holds the
    remote's signature, and the remote state holds neither signature. *)
Lemma open_channel_remote_state_counterexample :
  exists p' m,
    channel_establishment_flow "pw" 100000 0 (replicate 32 x07)
      scenario_accept_channel scenario_funding_signed scenario_peer = (p', Ok m)
    /\ local_ctn (local_state m) = 0
    /\ remote_ctn (remote_state m) = 0
    /\ current_commitment_signature (local_state m) = Some (replicate 64 x52)
    /\ ~ remote_state_holds (remote_state m) (replicate 64 x52)
    /\ ~ remote_state_holds (remote_state m) (replicate 64 x51).
Proof.
  eexists _, _. split; [vm_compute; reflexivity|].
  split; [reflexivity|]. split; [reflexivity|]. split; [reflexivity|].
  split; intros [Hh|[Hh|Hh]]; try discriminate; by apply elem_of_nil in Hh.
Qed.

(** ** C1: encoding then decoding *)

Lemma byte_to_Z_of_Z (n : Z) : byte_to_Z (byte_of_Z n) = n mod 256.
Proof.
  unfold byte_to_Z, byte_of_Z.
  assert (0 <= n mod 256 < 256) as Hr by (apply Z.mod_pos_bound; lia).
  destruct (Byte.of_N (Z.to_N (n mod 256))) as [b|] eqn:Hb.
  - apply Byte.to_of_N in Hb. rewrite Hb. lia.
  - apply Byte.of_N_None_iff in Hb. lia.
Qed.

Lemma int_from_bytes_snoc (b : bytes) (x : byte) :
  int_from_bytes (b ++ [x]) = 256 * int_from_bytes b + byte_to_Z x.
Proof. unfold int_from_bytes. by rewrite fold_left_app. Qed.

Lemma int_from_bytes_be_digits (l : nat) : forall n,
  0 <= n < 256 ^ Z.of_nat l -> int_from_bytes (be_digits l n) = n.
Proof.
  induction l as [|l IH]; intros n Hn.
  - simpl in *. unfold int_from_bytes. simpl. lia.
  - cbn [be_digits]. rewrite int_from_bytes_snoc, byte_to_Z_of_Z, IH.
    + pose proof (Z.div_mod n 256). lia.
    + rewrite Nat2Z.inj_succ, Z.pow_succ_r in Hn by lia.
      split; [apply Z.div_pos; lia|]. apply Z.div_lt_upper_bound; lia.
Qed.

Lemma to_bytes_value (n l : Z) (b : bytes) :
  to_bytes n l = Ok b -> int_from_bytes b = n /\ len b = l.
Proof.
  intros Hb. split; [|by eapply to_bytes_length].
  unfold to_bytes in Hb. repeat case_match; simplify_eq.
  apply int_from_bytes_be_digits. rewrite Z2Nat.id by lia. lia.
Qed.

Lemma slice_middle {A} (pre b suf : list A) :
  slice (pre ++ b ++ suf) (len pre) (len pre + len b) = b.
Proof.
  unfold slice, adjust_index, len. rewrite !length_app.
  destruct (Z.ltb_spec (Z.of_nat (length pre)) 0); [lia|].
  destruct (Z.ltb_spec (Z.of_nat (length pre) + Z.of_nat (length b)) 0); [lia|].
  rewrite !Z.min_l by lia.
  replace (Z.of_nat (length pre) + Z.of_nat (length b) - Z.of_nat (length pre))
    with (Z.of_nat (length b)) by lia.
  rewrite !Nat2Z.id, drop_app_length. by rewrite take_app_length.
Qed.

Lemma slice_to_app {A} (pre suf : list A) (n : Z) :
  len pre = n -> slice_to (pre ++ suf) n = pre.
Proof.
  intros <-. unfold slice_to, adjust_index, len. rewrite length_app.
  destruct (Z.ltb_spec (Z.of_nat (length pre)) 0); [lia|].
  rewrite Z.min_l by lia. by rewrite Nat2Z.id, take_app_length.
Qed.

Lemma slice_from_app {A} (pre suf : list A) (n : Z) :
  len pre = n -> slice_from (pre ++ suf) n = suf.
Proof.
  intros <-. unfold slice_from, adjust_index, len. rewrite length_app.
  destruct (Z.ltb_spec (Z.of_nat (length pre)) 0); [lia|].
  rewrite Z.min_l by lia. by rewrite Nat2Z.id, drop_app_length.
Qed.

(** *** Evaluation of expressions depends on their terms only *)

Lemma sum_terms_ext (m1 m2 : gmap string pyval) ts :
  (forall t, t ∈ ts -> handlesingle t m1 = handlesingle t m2) ->
  forall acc, sum_terms ts m1 acc = sum_terms ts m2 acc.
Proof.
  induction ts as [|t ts IH]; intros Hts acc; [done|]. simpl.
  rewrite (Hts t) by apply list_elem_of_here.
  destruct (handlesingle t m2); [|done]. simpl.
  apply IH. intros t' Ht'. apply Hts. by apply list_elem_of_further.
Qed.

Lemma product_terms_ext (m1 m2 : gmap string pyval) ts :
  (forall t, t ∈ ts -> handlesingle t m1 = handlesingle t m2) ->
  forall acc, product_terms ts m1 acc = product_terms ts m2 acc.
Proof.
  induction ts as [|t ts IH]; intros Hts acc; [done|]. simpl.
  rewrite (Hts t) by apply list_elem_of_here.
  destruct (handlesingle t m2); [|done]. simpl.
  apply IH. intros t' Ht'. apply Hts. by apply list_elem_of_further.
Qed.

Lemma calcexp_ext (m1 m2 : gmap string pyval) (exp : string) :
  (forall t, t ∈ terms exp -> handlesingle t m1 = handlesingle t m2) ->
  calcexp exp m1 = calcexp exp m2.
Proof.
  unfold calcexp, terms. intros Hts. destruct (contains "*" exp).
  - destruct (assert _); [|done]. simpl. by apply product_terms_ext.
  - by apply sum_terms_ext.
Qed.

Lemma sum_terms_ok (m : gmap string pyval) ts : forall acc n,
  sum_terms ts m acc = Ok n -> forall t, t ∈ ts -> is_ok (handlesingle t m) = true.
Proof.
  induction ts as [|t ts IH]; intros acc n Hsum t' Ht'.
  - by apply elem_of_nil in Ht'.
  - simpl in Hsum. destruct (handlesingle t m) as [x|] eqn:Hx; [|done].
    apply elem_of_cons in Ht' as [->|Ht']; [by rewrite Hx|]. eauto.
Qed.

Lemma product_terms_ok (m : gmap string pyval) ts : forall acc n,
  product_terms ts m acc = Ok n -> forall t, t ∈ ts -> is_ok (handlesingle t m) = true.
Proof.
  induction ts as [|t ts IH]; intros acc n Hsum t' Ht'.
  - by apply elem_of_nil in Ht'.
  - simpl in Hsum. destruct (handlesingle t m) as [x|] eqn:Hx; [|done].
    apply elem_of_cons in Ht' as [->|Ht']; [by rewrite Hx|]. eauto.
Qed.

Lemma calcexp_ok_terms (m : gmap string pyval) (exp : string) (n : Z) :
  calcexp exp m = Ok n -> forall t, t ∈ terms exp -> is_ok (handlesingle t m) = true.
Proof.
  unfold calcexp, terms. destruct (contains "*" exp).
  - destruct (assert _); [|done]. simpl. apply product_terms_ok.
  - apply sum_terms_ok.
Qed.

(** A term that evaluates is a literal or a bound name. *)
Lemma handlesingle_ok_bound (t : string) (m : gmap string pyval) :
  is_ok (handlesingle t m) = true -> is_Some (int_of_str t) \/ is_Some (m !! t).
Proof.
  unfold handlesingle, getitem. destruct (int_of_str t); [eauto|].
  destruct (m !! t); [eauto|done].
Qed.

Lemma handlesingle_literal (t : string) (m1 m2 : gmap string pyval) :
  is_Some (int_of_str t) -> handlesingle t m1 = handlesingle t m2.
Proof. intros [n Hn]. unfold handlesingle. by rewrite Hn. Qed.

(** An expression that evaluates keeps its value in a larger environment. *)
Lemma calcexp_weaken (m1 m2 : gmap string pyval) (exp : string) (n : Z) :
  m1 ⊆ m2 -> calcexp exp m1 = Ok n -> calcexp exp m2 = Ok n.
Proof.
  intros Hsub Hc. rewrite <- Hc. symmetry. apply calcexp_ext.
  intros t Ht. pose proof (calcexp_ok_terms _ _ _ Hc t Ht) as Hok.
  destruct (handlesingle_ok_bound _ _ Hok) as [Hlit|[v Hv]].
  - by apply handlesingle_literal.
  - apply handlesingle_agree. rewrite Hv. symmetry.
    by eapply lookup_weaken.
Qed.

Lemma sum_terms_raise (m : gmap string pyval) ts : forall acc e,
  sum_terms ts m acc = Raise e -> exists t, t ∈ ts /\ handlesingle t m = Raise e.
Proof.
  induction ts as [|t ts IH]; intros acc e Hsum; [done|].
  simpl in Hsum. destruct (handlesingle t m) as [x|e'] eqn:Hx.
  - simpl in Hsum. destruct (IH _ _ Hsum) as (t' & Ht' & He).
    exists t'. split; [by apply list_elem_of_further|done].
  - simpl in Hsum. simplify_eq. exists t. split; [apply list_elem_of_here|done].
Qed.

Lemma product_terms_raise (m : gmap string pyval) ts : forall acc e,
  product_terms ts m acc = Raise e -> exists t, t ∈ ts /\ handlesingle t m = Raise e.
Proof.
  induction ts as [|t ts IH]; intros acc e Hsum; [done|].
  simpl in Hsum. destruct (handlesingle t m) as [x|e'] eqn:Hx.
  - simpl in Hsum. destruct (IH _ _ Hsum) as (t' & Ht' & He).
    exists t'. split; [by apply list_elem_of_further|done].
  - simpl in Hsum. simplify_eq. exists t. split; [apply list_elem_of_here|done].
Qed.

(** The [except KeyError] of [gen_msg] never fires: once the expression has
    evaluated over [lengths], every name in it is bound in the clone too. *)
Lemma calcexp_clone_no_keyerror (kw lengths : gmap string pyval) (exp : string) (n : Z) :
  calcexp exp lengths = Ok n -> calcexp exp (kw ∪ lengths) ≠ Raise KeyError.
Proof.
  intros Hc Hk.
  assert (exists t, t ∈ terms exp /\ handlesingle t (kw ∪ lengths) = Raise KeyError)
    as (t & Ht & He).
  { unfold calcexp, terms in *. destruct (contains "*" exp).
    - destruct (assert _); [|done]. simpl in *. by eapply product_terms_raise.
    - by eapply sum_terms_raise. }
  pose proof (calcexp_ok_terms _ _ _ Hc t Ht) as Hok.
  unfold handlesingle, getitem in He.
  destruct (handlesingle_ok_bound _ _ Hok) as [[m Hm]|[v Hv]].
  - rewrite Hm in He. done.
  - destruct (int_of_str t); [done|].
    assert (is_Some ((kw ∪ lengths) !! t)) as [w Hw].
    { rewrite lookup_union. destruct (kw !! t); rewrite Hv; by eexists. }
    rewrite Hw in He. simpl in He. by repeat case_match.
Qed.

(** *** The encoder, field by field *)

(** What a successful [encode_field] has computed: the length, which is the
    value of the length expression over the clone, and the bytes, which are
    the caller's [bytes] value, or the big-endian digits of the caller's
    [int], or zeros when the caller supplied nothing. *)
Lemma encode_field_inv (k : string) (p : poslen) (kw lengths : gmap string pyval) (b : bytes) :
  encode_field k p kw lengths = Ok b ->
  (exists l0, calcexp (length_exp p) lengths = Ok l0)
  /\ calcexp (length_exp p) (kw ∪ lengths) = Ok (len b)
  /\ match kw !! k with
     | Some (VBytes b') => b' = b
     | Some (VInt n) => to_bytes n (len b) = Ok b
     | Some VNone => False
     | None => to_bytes 0 (len b) = Ok b
     end.
Proof.
  unfold encode_field. intros He.
  destruct (calcexp (length_exp p) lengths) as [l0|] eqn:Hl0; [|done].
  cbn [mbind result_bind] in He.
  pose proof (calcexp_clone_no_keyerror kw _ _ _ Hl0) as Hnk.
  destruct (calcexp (length_exp p) (kw ∪ lengths)) as [leng|e] eqn:Hleng;
    [|by destruct e].
  cbn [mbind result_bind] in He.
  assert (forall n, match to_bytes n leng with
                    | Ok b0 => Ok b0
                    | Raise ValueError =>
                        Raise (Exception (k +:+ " does not fit in " +:+ str_of_int leng +:+ " bytes"))
                    | Raise e => Raise e
                    end
                    ≫= (fun param : bytes =>
                          if bool_decide (len param ≠ leng)
                          then Raise (Exception ("field " +:+ k +:+ " is " +:+ str_of_int (len param)
                                                 +:+ " bytes long, should be " +:+ str_of_int leng
                                                 +:+ " bytes long"))
                          else Ok param) = Ok b ->
                    len b = leng /\ to_bytes n leng = Ok b) as Hint.
  { intros n Hn. destruct (to_bytes n leng) as [b0|e] eqn:Hb0; [|by destruct e].
    cbn [mbind result_bind] in Hn. case_bool_decide as Hlen; [done|].
    by simplify_eq. }
  destruct (kw !! k) as [[n|b'|]|] eqn:Hk; cbn [default from_option id] in He.
  - apply Hint in He as [<- Hb]. eauto.
  - cbn [mbind result_bind] in He. case_bool_decide as Hlen; [done|].
    simplify_eq. eauto.
  - done.
  - apply Hint in He as [<- Hb]. eauto.
Qed.

Lemma gen_loop_fields (kw : gmap string pyval) fields : forall lengths data,
  gen_loop fields kw lengths data
  = (emitted ← gen_fields fields kw lengths; Ok (data ++ mjoin emitted.*2)).
Proof.
  induction fields as [|[k p] fields IH]; intros lengths data.
  - simpl. by rewrite app_nil_r.
  - simpl. destruct (has_feature p); [apply IH|].
    destruct (encode_field k p kw lengths) as [param|]; [|done]. simpl.
    rewrite IH. destruct (gen_fields _ _ _) as [emitted|]; [|done]. simpl.
    by rewrite app_assoc.
Qed.

Lemma gen_fields_features (kw lengths : gmap string pyval) fields :
  forallb (fun kp => has_feature kp.2) fields = true ->
  gen_fields fields kw lengths = Ok [].
Proof.
  induction fields as [|[k p] fields IH]; [done|]. simpl.
  intros [Hp Hrest]%andb_true_iff. rewrite Hp. by apply IH.
Qed.

(** The emitted names are those of the fields that are not feature fields,
    and the emitted bytes carry the caller's values. *)
Lemma gen_fields_spec (kw : gmap string pyval) fields : forall lengths emitted,
  gen_fields fields kw lengths = Ok emitted ->
  emitted.*1 = (List.filter (fun kp => negb (has_feature kp.2)) fields).*1
  /\ forall k b, (k, b) ∈ emitted ->
       match kw !! k with
       | Some (VBytes b') => b' = b
       | Some (VInt n) => int_from_bytes b = n
       | Some VNone => False
       | None => int_from_bytes b = 0
       end.
Proof.
  induction fields as [|[k p] fields IH]; intros lengths emitted Hgen.
  - simpl in Hgen. simplify_eq. split; [done|]. intros k b Hin. by apply elem_of_nil in Hin.
  - simpl in Hgen. simpl. destruct (has_feature p); simpl; [by eapply IH|].
    destruct (encode_field k p kw lengths) as [param|] eqn:Henc; [|done].
    cbn [mbind result_bind] in Hgen.
    destruct (gen_fields fields kw _) as [rest|] eqn:Hrest; [|done].
    cbn [mbind result_bind] in Hgen. simplify_eq.
    destruct (IH _ _ Hrest) as [Hnames Hvals]. split.
    + rewrite fmap_cons. cbn [fst]. f_equal. exact Hnames.
    + intros k' b' [Heq|Hin]%elem_of_cons; [|by apply Hvals].
      injection Heq as -> ->. apply encode_field_inv in Henc as (_ & _ & Hv).
      destruct (kw !! k) as [[n|b0|]|]; try done; by apply to_bytes_value in Hv as [? _].
Qed.

(** *** The decoder on what the encoder emitted *)

Lemma handler_loop_features (data : bytes) fields : forall ma,
  forallb (fun kp => has_feature kp.2) fields = true ->
  handler_loop fields data ma (len data) = Ok (ma, len data).
Proof.
  induction fields as [|[k p] fields IH]; intros ma; [done|]. simpl.
  intros [Hp Hrest]%andb_true_iff. rewrite Hp, Z.eqb_refl. simpl. by apply IH.
Qed.

Section RoundTrip.
Variable kw : gmap string pyval.
Variable V : list string.
Hypothesis supplied : forall x, x ∈ V -> is_Some (kw !! x).

Local Abbreviation agree := (agree kw V).

Lemma variables_elem (t : string) (exp : string) :
  t ∈ terms exp -> is_Some (int_of_str t) \/ t ∈ variables exp.
Proof.
  intros Ht. destruct (int_of_str t) as [n|] eqn:Hn; [eauto|]. right.
  unfold variables. apply list_elem_of_In, filter_In. split; [by apply list_elem_of_In|].
  rewrite Hn. apply negb_true_iff, bool_decide_eq_false_2. by intros [? ?].
Qed.

Lemma agree_calcexp (lengths ma : gmap string pyval) (exp : string) (l0 : Z) :
  agree lengths ma ->
  (forall x, x ∈ variables exp -> x ∈ V) ->
  calcexp exp lengths = Ok l0 ->
  calcexp exp ma = calcexp exp (kw ∪ lengths).
Proof.
  intros Hagree Hvars Hl0. apply calcexp_ext. intros t Ht.
  destruct (variables_elem _ _ Ht) as [Hlit|Hvar]; [by apply handlesingle_literal|].
  symmetry. apply Hagree; [by apply Hvars|].
  pose proof (calcexp_ok_terms _ _ _ Hl0 t Ht) as Hok.
  destruct (handlesingle_ok_bound _ _ Hok) as [[n Hn]|Hb]; [|done].
  unfold variables in Hvar. apply list_elem_of_In, filter_In in Hvar as [_ Hvar].
  rewrite Hn in Hvar. apply negb_true_iff, bool_decide_eq_false_1 in Hvar.
  exfalso. apply Hvar. by eexists.
Qed.

Lemma agree_insert (lengths ma : gmap string pyval) (k : string) (p : poslen) (b : bytes) :
  agree lengths ma ->
  encode_field k p kw lengths = Ok b ->
  (forall n, k ∈ V -> kw !! k = Some (VInt n) -> int_of_bytes_literal b = None) ->
  agree (<[k := VInt (len b)]> lengths) (<[k := VBytes b]> ma).
Proof.
  intros Hagree Henc Hlit x Hx Hbound.
  destruct (decide (x = k)) as [->|Hne].
  - unfold handlesingle, getitem. destruct (int_of_str k); [done|].
    rewrite lookup_union, lookup_insert_eq, lookup_insert_eq.
    destruct (supplied k Hx) as [v Hv]. rewrite Hv. cbn [union option_union union_with option_union_with].
    apply encode_field_inv in Henc as (_ & _ & Hval). rewrite Hv in Hval.
    destruct v as [n|b'|]; [|by subst|done].
    cbn [mbind result_bind]. rewrite (Hlit n Hx Hv).
    by apply to_bytes_value in Hval as [-> _].
  - rewrite lookup_insert_ne in Hbound by done.
    transitivity (handlesingle x (kw ∪ lengths)).
    { apply handlesingle_agree. rewrite !lookup_union. by rewrite lookup_insert_ne. }
    transitivity (handlesingle x ma); [by apply Hagree|].
    apply handlesingle_agree. by rewrite lookup_insert_ne.
Qed.

Lemma roundtrip_loop fields : forall lengths ma pre emitted,
  NoDup fields.*1 ->
  (forall k, k ∈ fields.*1 -> ma !! k = None) ->
  features_trailing fields = true ->
  (forall x, x ∈ length_variables fields -> x ∈ V) ->
  gen_fields fields kw lengths = Ok emitted ->
  (forall x b n, (x, b) ∈ emitted -> x ∈ V -> kw !! x = Some (VInt n) ->
     int_of_bytes_literal b = None) ->
  agree lengths ma ->
  (forall ma', ma ⊆ ma' ->
     positions_from (List.filter (fun kp => negb (has_feature kp.2)) fields) ma' (len pre)) ->
  handler_loop fields (pre ++ mjoin emitted.*2) ma (len pre)
  = Ok (foldl (fun m kb => <[kb.1 := VBytes kb.2]> m) ma emitted,
        len (pre ++ mjoin emitted.*2)).
Proof.
  induction fields as [|[k p] fields IH];
    intros lengths ma pre emitted Hnd Hfresh Htrail Hvars Hgen Hlit Hagree Hpos.
  - simpl in Hgen. simplify_eq. simpl. by rewrite app_nil_r.
  - apply NoDup_cons in Hnd as [Hk Hnd]. simpl in Hgen, Htrail.
    cbn [handler_loop]. destruct (has_feature p) eqn:Hp.
    + rewrite gen_fields_features in Hgen by done. simplify_eq.
      simpl. rewrite app_nil_r, Z.eqb_refl. simpl.
      by apply handler_loop_features.
    + destruct (encode_field k p kw lengths) as [b|] eqn:Henc; [|done].
      cbn [mbind result_bind] in Hgen.
      destruct (gen_fields fields kw _) as [rest|] eqn:Hrest; [|done].
      cbn [mbind result_bind] in Hgen. simplify_eq.
      cbn [andb fmap list_fmap mjoin list_join snd].
      pose proof (Hpos ma (reflexivity ma)) as Hpos0.
      cbn [List.filter snd] in Hpos0. rewrite Hp in Hpos0. cbn [negb positions_from] in Hpos0.
      destruct Hpos0 as [Hposition _]. rewrite Hposition. cbn [mbind result_bind].
      rewrite Z.eqb_refl. cbn [assert mbind result_bind].
      pose proof (encode_field_inv _ _ _ _ _ Henc) as ([l0 Hl0] & Hleng & _).
      assert (forall x, x ∈ variables (length_exp p) -> x ∈ V) as Hvp.
      { intros x Hx. apply Hvars. unfold length_variables. cbn [List.filter snd].
        rewrite Hp. cbn [negb fmap list_fmap mjoin list_join snd].
        apply elem_of_app. by left. }
      rewrite (agree_calcexp _ _ _ _ Hagree Hvp Hl0), Hleng. cbn [mbind result_bind].
      rewrite slice_middle.
      replace (len pre + len b) with (len (pre ++ b))
        by (unfold len; rewrite length_app; lia).
      rewrite (app_assoc pre b).
      assert (ma !! k = None) as Hmk by (apply Hfresh; apply list_elem_of_here).
      cbn [foldl fst snd].
      apply (IH (<[k := VInt (len b)]> lengths)); try done.
      * intros k' Hk'. rewrite lookup_insert_ne; [|by intros ->].
        apply Hfresh. by apply list_elem_of_further.
      * intros x Hx. apply Hvars. unfold length_variables. cbn [List.filter snd].
        rewrite Hp. cbn [negb fmap list_fmap mjoin list_join snd].
        apply elem_of_app. by right.
      * intros x b' n Hin. apply Hlit. by apply list_elem_of_further.
      * eapply agree_insert; [done..|]. intros n. apply Hlit. apply list_elem_of_here.
      * intros ma' Hsub.
        assert (ma ⊆ ma') as Hsub0.
        { etrans; [|exact Hsub]. by apply insert_subseteq. }
        pose proof (Hpos ma' Hsub0) as Hpos1.
        cbn [List.filter snd] in Hpos1. rewrite Hp in Hpos1.
        cbn [negb positions_from] in Hpos1. destruct Hpos1 as [_ Hnext].
        replace (len (pre ++ b)) with (len pre + len b)
          by (unfold len; rewrite length_app; lia).
        apply Hnext. eapply calcexp_weaken; [exact Hsub0|].
        by rewrite (agree_calcexp _ _ _ _ Hagree Hvp Hl0).
Qed.

End RoundTrip.

Lemma foldl_insert_notin (emitted : list (string * bytes)) (k : string) :
  forall m : gmap string pyval, k ∉ emitted.*1 ->
  foldl (fun m kb => <[kb.1 := VBytes kb.2]> m) m emitted !! k = m !! k.
Proof.
  induction emitted as [|[k' b'] emitted IH]; intros m Hk; [done|].
  rewrite fmap_cons in Hk. apply not_elem_of_cons in Hk as [Hne Hk].
  cbn [foldl fst snd]. rewrite IH by done. by rewrite lookup_insert_ne.
Qed.

Lemma foldl_insert_in (emitted : list (string * bytes)) (k : string) (b : bytes) :
  forall m : gmap string pyval, NoDup emitted.*1 -> (k, b) ∈ emitted ->
  foldl (fun m kb => <[kb.1 := VBytes kb.2]> m) m emitted !! k = Some (VBytes b).
Proof.
  induction emitted as [|[k' b'] emitted IH]; intros m Hnd Hin.
  - by apply elem_of_nil in Hin.
  - rewrite fmap_cons in Hnd. apply NoDup_cons in Hnd as [Hk Hnd].
    cbn [foldl fst snd]. apply elem_of_cons in Hin as [Heq|Hin].
    + injection Heq as -> ->. rewrite foldl_insert_notin by done.
      by rewrite lookup_insert_eq.
    + by apply IH.
Qed.

Lemma filter_names_sub (fields : list (string * poslen)) (f : string * poslen -> bool) (k : string) :
  k ∈ (List.filter f fields).*1 -> k ∈ fields.*1.
Proof.
  intros ((k' & p) & -> & Hin)%list_elem_of_fmap.
  apply list_elem_of_In, filter_In in Hin as [Hin _].
  apply list_elem_of_fmap. exists (k', p). split; [done|by apply list_elem_of_In].
Qed.

Lemma filter_names_NoDup (fields : list (string * poslen)) (f : string * poslen -> bool) :
  NoDup fields.*1 -> NoDup (List.filter f fields).*1.
Proof.
  induction fields as [|kp fields IH]; [done|].
  rewrite fmap_cons. intros [Hk Hnd]%NoDup_cons. simpl.
  destruct (f kp); [|by apply IH].
  rewrite fmap_cons. apply NoDup_cons. split; [|by apply IH].
  intros Hin. apply Hk. by eapply filter_names_sub.
Qed.

(** C1, as the code has it.  Take a message of the schema whose field names
    are distinct, whose feature fields come last and whose position
    expressions add up the lengths before them, registered under its type
    code.  For keyword values that [gen_msg] accepts, that supply every
    field named in a length expression, and among which no [int] that
    carries a length is emitted as bytes reading as an ASCII decimal
    literal, [decode_msg] of the encoded bytes returns the message name and
    a map that binds exactly the fields that are not feature fields: a field
    given as [bytes] to those bytes, a field given as an [int] to bytes
    whose big-endian value is that [int], and a field not given to bytes of
    value 0.  Values given for feature fields are not recovered. *)
Theorem gen_msg_decode_msg_roundtrip (s : schema) (mt : gmap bytes (string * message))
    (msg_type : string) (typ : message) (kw : gmap string pyval)
    (num : Z) (code data : bytes) :
  ordered_getitem s msg_type = Ok typ ->
  int_of_str (type typ) = Some num ->
  to_bytes num 2 = Ok code ->
  mt !! code = Some (msg_type, typ) ->
  NoDup (payload typ).*1 ->
  features_trailing (payload typ) = true ->
  (forall ma, positions_from
                (List.filter (fun kp => negb (has_feature kp.2)) (payload typ)) ma 0) ->
  gen_msg s msg_type kw = Ok data ->
  (forall x, x ∈ length_variables (payload typ) -> is_Some (kw !! x)) ->
  (forall emitted x b n,
     gen_fields (payload typ) kw ∅ = Ok emitted -> (x, b) ∈ emitted ->
     x ∈ length_variables (payload typ) -> kw !! x = Some (VInt n) ->
     int_of_bytes_literal b = None) ->
  exists ma,
    decode_msg mt data = Ok (msg_type, ma)
    /\ (forall k p, (k, p) ∈ payload typ -> has_feature p = false ->
          match kw !! k with
          | Some (VBytes b) => ma !! k = Some (VBytes b)
          | Some (VInt n) => exists b, ma !! k = Some (VBytes b) /\ int_from_bytes b = n
          | Some VNone => False
          | None => exists b, ma !! k = Some (VBytes b) /\ int_from_bytes b = 0
          end)
    /\ (forall k, is_Some (ma !! k) ->
          exists p, (k, p) ∈ payload typ /\ has_feature p = false).
Proof.
  intros Htyp Hnum Hcode Hreg Hnd Htrail Hpos Hgen Hsupplied Hlit.
  unfold gen_msg in Hgen. rewrite Htyp in Hgen. cbn [mbind result_bind] in Hgen.
  rewrite Hnum in Hgen. cbn [mbind result_bind] in Hgen.
  rewrite Hcode in Hgen. cbn [mbind result_bind] in Hgen.
  rewrite gen_loop_fields in Hgen.
  destruct (gen_fields (payload typ) kw ∅) as [emitted|] eqn:Hemitted; [|done].
  cbn [mbind result_bind] in Hgen. injection Hgen as <-.
  pose proof (gen_fields_spec _ _ _ _ Hemitted) as [Hnames Hvals].
  assert (NoDup emitted.*1) as Hnde by (rewrite Hnames; by apply filter_names_NoDup).
  pose proof (to_bytes_length _ _ _ Hcode) as Hlen.
  exists (foldl (fun m kb => <[kb.1 := VBytes kb.2]> m) ∅ emitted). split_and?.
  - unfold decode_msg, getitem. rewrite slice_to_app by done. rewrite Hreg.
    cbn [mbind result_bind fst snd]. rewrite slice_from_app by done.
    unfold handler.
    pose proof (roundtrip_loop kw (length_variables (payload typ)) Hsupplied
                  (payload typ) ∅ ∅ [] emitted Hnd) as Hloop.
    rewrite app_nil_l in Hloop. change (len []) with 0 in Hloop.
    rewrite Hloop; try done.
    + cbn [mbind result_bind]. by rewrite Z.eqb_refl.
    + intros x b n. by apply Hlit.
    + intros x _ [v Hv]. by rewrite lookup_empty in Hv.
  - intros k p Hin Hp.
    assert (k ∈ emitted.*1) as ((k' & b) & Hk & Hb)%list_elem_of_fmap.
    { rewrite Hnames. apply list_elem_of_fmap. exists (k, p). split; [done|].
      apply list_elem_of_In, filter_In. split; [by apply list_elem_of_In|].
      simpl. by rewrite Hp. }
    simpl in Hk. subst k'. pose proof (Hvals _ _ Hb) as Hv.
    rewrite (foldl_insert_in _ _ b) by done.
    destruct (kw !! k) as [[n|b'|]|]; [by eauto|by subst|done|by eauto].
  - intros k Hk.
    destruct (decide (k ∈ emitted.*1)) as [Hin|Hnin].
    + rewrite Hnames in Hin. apply list_elem_of_fmap in Hin as ((k' & p) & -> & Hin).
      apply list_elem_of_In, filter_In in Hin as [Hin Hp].
      exists p. split; [by apply list_elem_of_In|]. simpl in Hp.
      by destruct (has_feature p).
    + rewrite foldl_insert_notin, lookup_empty in Hk by done. by destruct Hk.
Qed.

Lemma handlesingle_of_literal (t : string) (n : Z) (ma : gmap string pyval) :
  int_of_str t = Some n -> handlesingle t ma = Ok n.
Proof. intros Hn. unfold handlesingle. by rewrite Hn. Qed.

(** The positions of [init] add up: 0, 2, 2+gflen, 4+gflen. *)
Lemma init_positions (ma : gmap string pyval) :
  positions_from (List.filter (fun kp => negb (has_feature kp.2)) (payload init_message)) ma 0.
Proof.
  cbn [payload init_message List.filter has_feature feature snd negb positions_from
       position length_exp].
  split; [by apply calcexp_literal|]. intros l0 Hl0.
  rewrite (calcexp_literal "2" 2) in Hl0 by done. injection Hl0 as <-.
  split; [by apply calcexp_literal|]. intros l1 Hl1.
  assert (handlesingle "gflen" ma = Ok l1) as Hg.
  { unfold calcexp in Hl1. cbn [contains] in Hl1.
    change (split "+" "gflen") with ["gflen"%string] in Hl1. cbn [sum_terms] in Hl1.
    destruct (handlesingle "gflen" ma) as [x|]; [|done].
    cbn [mbind result_bind] in Hl1. by injection Hl1 as <-. }
  split.
  { unfold calcexp. change (contains "*" "2+gflen") with false. cbv iota.
    change (split "+" "2+gflen") with ["2"%string; "gflen"%string].
    cbn [sum_terms]. rewrite (handlesingle_of_literal "2" 2) by done.
    cbn [mbind result_bind]. rewrite Hg. cbn [mbind result_bind]. f_equal; lia. }
  intros l2 Hl2. rewrite (calcexp_literal "2" 2) in Hl2 by done. injection Hl2 as <-.
  split; [|done].
  unfold calcexp. change (contains "*" "4+gflen") with false. cbv iota.
  change (split "+" "4+gflen") with ["4"%string; "gflen"%string].
  cbn [sum_terms]. rewrite (handlesingle_of_literal "4" 4) by done.
  cbn [mbind result_bind]. rewrite Hg. cbn [mbind result_bind]. f_equal; lia.
Qed.

Lemma gen_msg_decode_msg_roundtrip_witness :
  let kw := kwargs [("gflen", VInt 0); ("lflen", VInt 1); ("localfeatures", VInt 8)]%string in
  exists ma,
    decode_msg base_message_types [x00; x10; x00; x00; x00; x01; x08] = Ok ("init"%string, ma)
    /\ (forall k p, (k, p) ∈ payload init_message -> has_feature p = false ->
          match kw !! k with
          | Some (VBytes b) => ma !! k = Some (VBytes b)
          | Some (VInt n) => exists b, ma !! k = Some (VBytes b) /\ int_from_bytes b = n
          | Some VNone => False
          | None => exists b, ma !! k = Some (VBytes b) /\ int_from_bytes b = 0
          end)
    /\ (forall k, is_Some (ma !! k) ->
          exists p, (k, p) ∈ payload init_message /\ has_feature p = false).
Proof.
  intros kw.
  apply (gen_msg_decode_msg_roundtrip base_schema base_message_types "init" init_message
           kw 16 [x00; x10]).
  - vm_compute. reflexivity.
  - vm_compute. reflexivity.
  - vm_compute. reflexivity.
  - vm_compute. reflexivity.
  - apply (bool_decide_unpack (NoDup (payload init_message).*1)). vm_compute. exact I.
  - vm_compute. reflexivity.
  - exact init_positions.
  - vm_compute. reflexivity.
  - intros x Hx.
    change (length_variables (payload init_message)) with ["gflen"%string; "lflen"%string] in Hx.
    apply elem_of_cons in Hx as [->|Hx]; [by eexists|].
    apply elem_of_cons in Hx as [->|Hx]; [by eexists|].
    by apply elem_of_nil in Hx.
  - intros emitted x b n Hemitted Hin _ _.
    assert (gen_fields (payload init_message) kw ∅
            = Ok [("gflen"%string, [x00; x00]); ("globalfeatures"%string, []);
                  ("lflen"%string, [x00; x01]); ("localfeatures"%string, [x08])]) as Hrun
      by (vm_compute; reflexivity).
    rewrite Hrun in Hemitted. injection Hemitted as <-.
    repeat (apply elem_of_cons in Hin as [Heq|Hin];
            [injection Heq as -> ->; vm_compute; reflexivity|]).
    by apply elem_of_nil in Hin.
Defined.

(** Two assignments that do not come back.  A value given for a feature field
    of [channel_reestablish] is dropped by the encoder, so the decoded map
    has no entry for it.  And [init] encoded without its length field
    [gflen] - the encoder then sizes [globalfeatures] by the two bytes of
    the [gflen] field itself - does not decode at all. *)
Lemma gen_msg_decode_msg_counterexample :
  (let kw := kwargs [("channel_id", VBytes (replicate 32 x07));
                     ("next_local_commitment_number", VInt 1);
                     ("next_remote_revocation_number", VInt 0);
                     ("my_current_per_commitment_point", VBytes (x03 :: replicate 32 x0d))]%string in
   let data := [x00; x88] ++ replicate 32 x07 ++ be_digits 8 1 ++ be_digits 8 0 in
   gen_msg scenario_schema "channel_reestablish" kw = Ok data
   /\ kw !! "my_current_per_commitment_point"%string = Some (VBytes (x03 :: replicate 32 x0d))
   /\ (decoded ← decode_msg scenario_message_types data;
       Ok (decoded.1, decoded.2 !! "my_current_per_commitment_point"%string))
      = Ok ("channel_reestablish"%string, None))
  /\ (let kw := kwargs [("lflen", VInt 1); ("localfeatures", VBytes [x08])]%string in
      gen_msg base_schema "init" kw = Ok [x00; x10; x00; x00; x00; x00; x00; x01; x08]
      /\ decode_msg base_message_types [x00; x10; x00; x00; x00; x00; x00; x01; x08]
         = Raise AssertionError).
Proof.
  cbv zeta. split_and?; vm_compute; reflexivity.
Qed.

(** The decoder reads a length field through [int()] before it falls back to
    [int.from_bytes]: the two bytes 09 30 - a tab and the digit 0 - count
    as 0, not as 2352, so a ping with [byteslen = 2352] encodes but does not
    decode. *)
Lemma decimal_looking_length_example :
  handlesingle "byteslen" {[ "byteslen"%string := VBytes [x09; x30] ]} = Ok 0
  /\ int_from_bytes [x09; x30] = 2352
  /\ exists data,
       gen_msg base_schema "ping"
         (kwargs [("num_pong_bytes", VInt 4); ("byteslen", VInt 2352)]%string) = Ok data
       /\ decode_msg base_message_types data = Raise AssertionError.
Proof.
  split; [vm_compute; reflexivity|]. split; [vm_compute; reflexivity|].
  eexists. split; vm_compute; reflexivity.
Qed.

(** * Further properties *)

(** ** The loader: which handlers exist after import *)

Lemma register_inv mt0 k v mt :
  register mt0 k v = Ok mt ->
  (~ registrable k v /\ mt = mt0)
  \/ (registrable k v
      /\ exists num tcode,
           int_of_str (type v) = Some num /\ to_bytes num 2 = Ok tcode
           /\ mt0 !! tcode = None
           /\ (forall c h, mt0 !! c = Some h -> h.1 ≠ k)
           /\ mt = <[tcode := (k, v)]> mt0).
Proof.
  unfold register, registrable. intros Hreg.
  case_bool_decide as Hk; [left; split; [tauto|congruence]|].
  destruct (len (payload v) =? 0) eqn:Hlen.
  { left. split; [|congruence]. intros (_ & Hp & _). apply Hp.
    apply Z.eqb_eq in Hlen. unfold len in Hlen. by destruct (payload v). }
  destruct (int_of_str (type v)) as [num|] eqn:Hnum.
  2:{ left. split; [|congruence]. intros (_ & _ & [? ?]). done. }
  destruct (to_bytes num 2) as [tcode|] eqn:Hcode; simpl in Hreg; [|done].
  destruct (bool_decide (mt0 !! tcode = None)) eqn:Hfresh; simpl in Hreg; [|done].
  apply bool_decide_eq_true_1 in Hfresh.
  destruct (bool_decide (k ∉ _)) eqn:Hname; simpl in Hreg; [|done].
  apply bool_decide_eq_true_1 in Hname.
  right. split.
  { split_and!; [done| |by eexists]. intros Hp. by rewrite Hp in Hlen. }
  exists num, tcode. split_and!; try done; [|congruence].
  intros c h Hc Heq. apply Hname. rewrite <- Heq.
  apply list_elem_of_fmap. exists h. split; [done|].
  apply list_elem_of_fmap. exists (c, h). split; [done|].
  by apply elem_of_map_to_list.
Qed.

Lemma register_all_sound s : forall done_ mt0 mt,
  table_sound done_ mt0 ->
  register_all s mt0 = Ok mt ->
  table_sound (done_ ++ s) mt.
Proof.
  induction s as [|[k v] s IH]; simpl; intros done_ mt0 mt Hs Hreg.
  - simplify_eq. by rewrite app_nil_r.
  - destruct (register mt0 k v) as [mt1|] eqn:H1; simpl in Hreg; [|done].
    replace (done_ ++ (k, v) :: s) with ((done_ ++ [(k, v)]) ++ s)
      by (by rewrite <- app_assoc).
    eapply IH; [|done].
    destruct Hs as [Hs1 Hs2].
    apply register_inv in H1 as [[_ ->]|(Hok & num & tcode & Hnum & Hcode & Hfresh & Hname & ->)].
    + split; [|done]. intros c k' v' Hc.
      destruct (Hs1 _ _ _ Hc) as (? & ? & ?). split_and!; try done.
      apply elem_of_app. by left.
    + split.
      * intros c k' v' Hc. destruct (decide (c = tcode)) as [->|Hne].
        -- rewrite lookup_insert_eq in Hc. simplify_eq. split_and!; [|done|by eexists].
           apply elem_of_app. right. apply list_elem_of_here.
        -- rewrite lookup_insert_ne in Hc by done.
           destruct (Hs1 _ _ _ Hc) as (? & ? & ?). split_and!; try done.
           apply elem_of_app. by left.
      * intros c1 c2 k' v1 v2 Hc1 Hc2.
        destruct (decide (c1 = tcode)) as [->|Hne1], (decide (c2 = tcode)) as [->|Hne2];
          try done.
        -- rewrite lookup_insert_eq in Hc1. rewrite lookup_insert_ne in Hc2 by done.
           simplify_eq. by destruct (Hname _ _ Hc2).
        -- rewrite lookup_insert_eq in Hc2. rewrite lookup_insert_ne in Hc1 by done.
           simplify_eq. by destruct (Hname _ _ Hc1).
        -- rewrite lookup_insert_ne in Hc1, Hc2 by done. eauto.
Qed.

Lemma load_inv s mt :
  load_message_types s = Ok mt ->
  register_all s ∅ = Ok mt /\ exists v, mt !! [x00; x10] = Some ("init"%string, v).
Proof.
  unfold load_message_types. intros Hload.
  destruct (register_all s ∅) as [mt'|] eqn:Hreg; simpl in Hload; [|done].
  unfold getitem in Hload.
  destruct (mt' !! [x00; x10]) as [[k v]|] eqn:Hget; simpl in Hload; [|done].
  case_bool_decide as Hk; simpl in Hload; [|done]. simpl in Hk. simplify_eq.
  split; [done|]. by exists v.
Qed.

(** X1. After a successful import every handler in [message_types] was made
    from an entry of [structured] that the loop does not skip and is stored
    under the two-byte big-endian form of that entry's own type tcode; no
    message name is stored under two codes; and tcode 16 holds [init]. *)
Theorem loaded_handlers_sound (s : schema) (mt : gmap bytes (string * message)) :
  load_message_types s = Ok mt ->
  (forall tcode k v, mt !! tcode = Some (k, v) ->
     (k, v) ∈ s /\ registrable k v
     /\ exists num, int_of_str (type v) = Some num /\ to_bytes num 2 = Ok tcode)
  /\ (forall c1 c2 k v1 v2, mt !! c1 = Some (k, v1) -> mt !! c2 = Some (k, v2) -> c1 = c2)
  /\ exists v, mt !! [x00; x10] = Some ("init"%string, v).
Proof.
  intros Hload. apply load_inv in Hload as [Hreg Hinit].
  pose proof (register_all_sound s [] ∅ mt) as Hs. simpl in Hs.
  destruct Hs as [H1 H2]; [|done|by split_and!].
  split; intros *; by rewrite lookup_empty.
Qed.

Lemma loaded_handlers_sound_witness :
  (forall tcode k v, base_message_types !! tcode = Some (k, v) ->
     (k, v) ∈ base_schema /\ registrable k v
     /\ exists num, int_of_str (type v) = Some num /\ to_bytes num 2 = Ok tcode)
  /\ (forall c1 c2 k v1 v2, base_message_types !! c1 = Some (k, v1) ->
        base_message_types !! c2 = Some (k, v2) -> c1 = c2)
  /\ exists v, base_message_types !! [x00; x10] = Some ("init"%string, v).
Proof.
  apply (loaded_handlers_sound base_schema base_message_types).
  apply loaded_value. vm_compute. reflexivity.
Defined.

Lemma register_keeps mt0 k v mt tcode h :
  register mt0 k v = Ok mt -> mt0 !! tcode = Some h -> mt !! tcode = Some h.
Proof.
  intros Hreg Hc.
  apply register_inv in Hreg as [[_ ->]|(_ & num & c & _ & _ & Hfresh & _ & ->)]; [done|].
  rewrite lookup_insert_ne; [done|]. intros ->. congruence.
Qed.

Lemma register_all_keeps s : forall mt0 mt tcode h,
  register_all s mt0 = Ok mt -> mt0 !! tcode = Some h -> mt !! tcode = Some h.
Proof.
  induction s as [|[k v] s IH]; simpl; intros mt0 mt tcode h Hreg Hc.
  - by simplify_eq.
  - destruct (register mt0 k v) as [mt1|] eqn:H1; simpl in Hreg; [|done].
    eapply IH; [done|]. by eapply register_keeps.
Qed.

Lemma register_all_complete s : forall mt0 mt k v num,
  register_all s mt0 = Ok mt ->
  (k, v) ∈ s -> registrable k v -> int_of_str (type v) = Some num ->
  exists tcode, to_bytes num 2 = Ok tcode /\ mt !! tcode = Some (k, v).
Proof.
  induction s as [|[k' v'] s IH]; simpl; intros mt0 mt k v num Hreg Hin Hok Hnum.
  - by apply elem_of_nil in Hin.
  - destruct (register mt0 k' v') as [mt1|] eqn:H1; simpl in Hreg; [|done].
    apply elem_of_cons in Hin as [Heq|Hin]; [|by eapply IH].
    simplify_eq.
    apply register_inv in H1 as [[Hno _]|(_ & num' & tcode & Hnum' & Hcode & _ & _ & ->)];
      [done|].
    simplify_eq. exists tcode. split; [done|].
    eapply register_all_keeps; [done|]. by rewrite lookup_insert_eq.
Qed.

(** X2. After a successful import every entry of [structured] that the loop
    does not skip has its handler in [message_types], under the two-byte
    big-endian form of its type tcode: no handler is overwritten or lost. *)
Theorem loaded_handlers_complete (s : schema) (mt : gmap bytes (string * message))
    (k : string) (v : message) (num : Z) :
  load_message_types s = Ok mt ->
  (k, v) ∈ s -> registrable k v -> int_of_str (type v) = Some num ->
  exists tcode, to_bytes num 2 = Ok tcode /\ mt !! tcode = Some (k, v).
Proof.
  intros Hload. apply load_inv in Hload as [Hreg _]. by eapply register_all_complete.
Qed.

Lemma loaded_handlers_complete_witness :
  exists tcode, to_bytes 19 2 = Ok tcode
    /\ base_message_types !! tcode = Some ("pong"%string, pong_message).
Proof.
  apply (loaded_handlers_complete base_schema base_message_types "pong" pong_message 19).
  - apply loaded_value. vm_compute. reflexivity.
  - unfold base_schema. set_solver.
  - split_and!; [set_solver|done|by eexists].
  - vm_compute. reflexivity.
Defined.

Lemma register_all_app s1 s2 mt0 :
  register_all (s1 ++ s2) mt0 = (mt ← register_all s1 mt0; register_all s2 mt).
Proof.
  revert mt0. induction s1 as [|[k v] s1 IH]; simpl; intros mt0; [done|].
  destruct (register mt0 k v); simpl; [apply IH|done].
Qed.

(** X3. Two entries of [structured] that the loop does not skip and that
    carry the same type tcode make the import fail: the loader never lets a
    later message take over an earlier one's tcode. *)
Theorem load_rejects_shared_type_code (s1 s2 s3 : schema)
    (k1 k2 : string) (v1 v2 : message) (num : Z) :
  registrable k1 v1 -> registrable k2 v2 ->
  int_of_str (type v1) = Some num -> int_of_str (type v2) = Some num ->
  is_ok (load_message_types (s1 ++ (k1, v1) :: s2 ++ (k2, v2) :: s3)) = false.
Proof.
  intros Hok1 Hok2 Hn1 Hn2.
  destruct (load_message_types _) as [mt|] eqn:Hload; [exfalso|done].
  apply load_inv in Hload as [Hreg _].
  rewrite register_all_app in Hreg.
  destruct (register_all s1 ∅) as [mt1|] eqn:Hr1; simpl in Hreg; [|done].
  destruct (register mt1 k1 v1) as [mt2|] eqn:Hr2; simpl in Hreg; [|done].
  rewrite register_all_app in Hreg.
  destruct (register_all s2 mt2) as [mt3|] eqn:Hr3; simpl in Hreg; [|done].
  destruct (register mt3 k2 v2) as [mt4|] eqn:Hr4; simpl in Hreg; [|done].
  apply register_inv in Hr2 as [[Hno _]|(_ & n1 & c1 & Hn1' & Hc1 & _ & _ & ->)]; [done|].
  apply register_inv in Hr4 as [[Hno _]|(_ & n2 & c2 & Hn2' & Hc2 & Hfresh & _ & _)]; [done|].
  simplify_eq.
  assert (mt3 !! c1 = Some (k1, v1)) as Hc; [|congruence].
  eapply register_all_keeps; [done|]. by rewrite lookup_insert_eq.
Qed.

Lemma load_rejects_shared_type_code_witness :
  is_ok (load_message_types
           ([("init"%string, init_message)] ++ ("ping"%string, ping_message) ::
            [("pong"%string, pong_message)] ++
            ("final_expiry_too_soon"%string,
             Message "18" [("failuremsg"%string, PosLen "0" "2" None)]) :: []))
  = false.
Proof.
  apply (load_rejects_shared_type_code _ _ _ _ _ _ _ 18).
  - split_and!; [set_solver|done|by eexists].
  - split_and!; [set_solver|done|by eexists].
  - vm_compute. reflexivity.
  - vm_compute. reflexivity.
Defined.

(** ** The decoder: shape of a decoded payload *)

Lemma handler_loop_shape (data : bytes) fields : forall ma pos ma' pos',
  handler_loop fields data ma pos = Ok (ma', pos') ->
  (forall f x, ma' !! f = Some x ->
     ma !! f = Some x \/ (f ∈ fields.*1 /\ exists b, x = VBytes b))
  /\ (forall f p, (f, p) ∈ fields -> has_feature p = false ->
        exists b, ma' !! f = Some (VBytes b))
  /\ (forall f b, ma !! f = Some (VBytes b) -> exists b', ma' !! f = Some (VBytes b')).
Proof.
  induction fields as [|[fieldname p] fields IH]; simpl; intros ma pos ma' pos' Hloop.
  - simplify_eq. split_and!; [auto| |eauto].
    intros f p Hin. by apply elem_of_nil in Hin.
  - destruct (has_feature p && (pos =? len data)) eqn:Hskip.
    + destruct (IH _ _ _ _ Hloop) as (H1 & H2 & H3). split_and!; [| |done].
      * intros f x Hf. destruct (H1 _ _ Hf) as [?|[? ?]]; [auto|].
        right. split; [|done]. by apply elem_of_cons; right.
      * intros f q Hin Hq. apply elem_of_cons in Hin as [Heq|Hin]; [|eauto].
        simplify_eq. rewrite Hq in Hskip. done.
    + destruct (calcexp (position p) ma) as [pp|]; simpl in Hloop; [|done].
      destruct (assert (pos =? pp)); simpl in Hloop; [|done].
      destruct (calcexp (length_exp p) ma) as [l|]; simpl in Hloop; [|done].
      destruct (IH _ _ _ _ Hloop) as (H1 & H2 & H3). split_and!.
      * intros f x Hf. destruct (H1 _ _ Hf) as [Hin|[? ?]].
        -- destruct (decide (fieldname = f)) as [->|Hne].
           ++ rewrite lookup_insert_eq in Hin. simplify_eq. right.
              split; [apply list_elem_of_here|by eexists].
           ++ rewrite lookup_insert_ne in Hin by done. auto.
        -- right. split; [|done]. by apply elem_of_cons; right.
      * intros f q Hin Hq. apply elem_of_cons in Hin as [Heq|Hin]; [|eauto].
        simplify_eq. eapply H3. by rewrite lookup_insert_eq.
      * intros f b Hf. destruct (decide (fieldname = f)) as [->|Hne].
        -- eapply H3. by rewrite lookup_insert_eq.
        -- eapply H3. by rewrite lookup_insert_ne.
Qed.

(** X4. A message that [decode_msg] accepts comes back under the name of
    the handler stored for its first two bytes, with a [bytes] value for
    every field of that message that is not a feature field, and with
    nothing but fields of that message, all of them [bytes]: a handler can
    index the payload by any such field without a [KeyError]. *)
Theorem decode_msg_payload_shape (mt : gmap bytes (string * message)) (data : bytes)
    (k : string) (ma : gmap string pyval) :
  decode_msg mt data = Ok (k, ma) ->
  exists v,
    mt !! slice_to data 2 = Some (k, v)
    /\ (forall f p, (f, p) ∈ payload v -> has_feature p = false ->
          exists b, getbytes ma f = Ok b)
    /\ (forall f x, ma !! f = Some x -> f ∈ (payload v).*1 /\ exists b, x = VBytes b).
Proof.
  unfold decode_msg, getitem, handler. intros Hdec.
  destruct (mt !! slice_to data 2) as [[k' v]|] eqn:Hmt; simpl in Hdec; [|done].
  destruct (handler_loop _ _ _ _) as [[ma' pos]|] eqn:Hloop; simpl in Hdec; [|done].
  destruct (assert _); simpl in Hdec; [|done]. simplify_eq.
  destruct (handler_loop_shape _ _ _ _ _ _ Hloop) as (H1 & H2 & _).
  exists v. split_and!; [done| |].
  - intros f p Hin Hp. destruct (H2 _ _ Hin Hp) as [b Hb].
    exists b. unfold getbytes, getitem. by rewrite Hb.
  - intros f x Hf. destruct (H1 _ _ Hf) as [Hempty|?]; [|done].
    by rewrite lookup_empty in Hempty.
Qed.

Lemma decode_msg_payload_shape_witness :
  exists v,
    base_message_types !! slice_to [x00; x10; x00; x00; x00; x01; x08] 2 = Some ("init"%string, v)
    /\ (forall f p, (f, p) ∈ payload v -> has_feature p = false ->
          exists b, getbytes (kwargs [("gflen", VBytes [x00; x00]); ("globalfeatures", VBytes []);
                                      ("lflen", VBytes [x00; x01]);
                                      ("localfeatures", VBytes [x08])]%string) f = Ok b)
    /\ (forall f x, kwargs [("gflen", VBytes [x00; x00]); ("globalfeatures", VBytes []);
                            ("lflen", VBytes [x00; x01]);
                            ("localfeatures", VBytes [x08])]%string !! f = Some x ->
          f ∈ (payload v).*1 /\ exists b, x = VBytes b).
Proof.
  apply (decode_msg_payload_shape base_message_types [x00; x10; x00; x00; x00; x01; x08]).
  vm_compute. reflexivity.
Defined.

(** ** The encoder: what one field can do *)

(** X5. For a field whose length expression evaluates to [leng], the
    encoder's outcome is fixed by the keyword value.  An [int] is written
    big-endian on [leng] bytes when it is in range; an [int] that is negative
    or too wide raises [OverflowError], which the [except ValueError] does
    not catch, and only a negative [leng] produces the "does not fit"
    exception.  A [bytes] value is copied when it has exactly [leng] bytes
    and rejected with the "bytes long" exception otherwise.  A missing
    keyword is encoded like the integer 0, and [None] fails the assertion. *)
Theorem encode_field_outcomes (k : string) (p : poslen) (kw lengths : gmap string pyval)
    (leng : Z) :
  is_ok (calcexp (length_exp p) lengths) = true ->
  calcexp (length_exp p) (kw ∪ lengths) = Ok leng ->
  let of_int n :=
    if leng <? 0 then
      Raise (Exception (k +:+ " does not fit in " +:+ str_of_int leng +:+ " bytes"))
    else if (n <? 0) || (256 ^ leng <=? n) then Raise OverflowError
    else Ok (be_digits (Z.to_nat leng) n) in
  (forall n, kw !! k = Some (VInt n) -> encode_field k p kw lengths = of_int n)
  /\ (kw !! k = None -> encode_field k p kw lengths = of_int 0)
  /\ (forall b, kw !! k = Some (VBytes b) ->
        encode_field k p kw lengths =
        if bool_decide (len b = leng) then Ok b
        else Raise (Exception ("field " +:+ k +:+ " is " +:+ str_of_int (len b)
                               +:+ " bytes long, should be " +:+ str_of_int leng
                               +:+ " bytes long")))
  /\ (kw !! k = Some VNone -> encode_field k p kw lengths = Raise AssertionError).
Proof.
  intros Hl0 Hl of_int.
  destruct (calcexp (length_exp p) lengths) as [l0|] eqn:Hl0'; [clear Hl0|done].
  assert (forall n, default (VInt 0) (kw !! k) = VInt n ->
                    encode_field k p kw lengths = of_int n) as Hint.
  { intros n Hn. unfold encode_field, of_int. rewrite Hl0', Hl. cbn [mbind result_bind].
    rewrite Hn. unfold to_bytes.
    destruct (leng <? 0) eqn:Hneg; [done|].
    destruct (n <? 0) eqn:Hn0; [done|].
    destruct (256 ^ leng <=? n) eqn:Hwide; [done|]. cbn [orb mbind result_bind].
    rewrite bool_decide_eq_false_2; [done|].
    intros Hne. apply Hne. unfold len. rewrite be_digits_length. lia. }
  split_and!.
  - intros n Hn. apply Hint. by rewrite Hn.
  - intros Hn. apply Hint. by rewrite Hn.
  - intros b Hb. unfold encode_field. rewrite Hl0', Hl. cbn [mbind result_bind].
    rewrite Hb. change (default (VInt 0) (Some (VBytes b))) with (VBytes b).
    cbn [mbind result_bind].
    destruct (decide (len b = leng)) as [Heq|Hne].
    + rewrite (bool_decide_eq_false_2 (len b ≠ leng)) by tauto.
      by rewrite bool_decide_eq_true_2.
    + rewrite (bool_decide_eq_true_2 (len b ≠ leng)) by done.
      by rewrite bool_decide_eq_false_2.
  - intros Hn. unfold encode_field. rewrite Hl0', Hl. cbn [mbind result_bind].
    rewrite Hn. by change (default (VInt 0) (Some VNone)) with VNone.
Qed.

Lemma encode_field_outcomes_witness :
  encode_field "byteslen" (PosLen "2" "2" None)
    (kwargs [("byteslen", VInt 65536)]%string) ∅ = Raise OverflowError.
Proof.
  refine (proj1 (encode_field_outcomes "byteslen" (PosLen "2" "2" None)
                   (kwargs [("byteslen", VInt 65536)]%string) ∅ 2 _ _) 65536 _);
    vm_compute; reflexivity.
Defined.

(** X6. A keyword of a [gen_msg] call that names no field of the message is
    ignored without any error: the encoding is the one obtained without it,
    so a misspelt field name leaves the intended field at its default of
    zero bytes.  The one exception is the keyword [msg_type], which collides
    with the positional parameter: that call raises [TypeError]. *)
Theorem gen_msg_ignores_unknown_keyword (s : schema) (msg_type : string) (typ : message)
    (kw : gmap string pyval) (f : string) (v : pyval) :
  ordered_getitem s msg_type = Ok typ ->
  f ∉ (payload typ).*1 ->
  (f = "msg_type"%string -> gen_msg_call s msg_type (<[f := v]> kw) = Raise TypeError)
  /\ (f ≠ "msg_type"%string ->
      gen_msg_call s msg_type (<[f := v]> kw) = gen_msg_call s msg_type kw).
Proof.
  intros Htyp Hf. unfold gen_msg_call. split.
  - intros ->. by rewrite lookup_insert_eq.
  - intros Hne. rewrite lookup_insert_ne by done.
    case_bool_decide; [done|].
    unfold gen_msg. rewrite Htyp. cbn [mbind result_bind].
    destruct (int_of_str (type typ)); cbn [mbind result_bind]; [|done].
    destruct (to_bytes _ 2); cbn [mbind result_bind]; [|done].
    apply gen_loop_ignores; [|apply lookup_empty].
    intros p Hin. destruct Hf. apply list_elem_of_fmap. by exists (f, p).
Qed.

Lemma gen_msg_ignores_unknown_keyword_witness :
  gen_msg_call base_schema "ping"
    (<["num_pong_byte"%string := VInt 4]> (kwargs [("byteslen", VInt 4)]%string))
  = gen_msg_call base_schema "ping" (kwargs [("byteslen", VInt 4)]%string).
Proof.
  apply (gen_msg_ignores_unknown_keyword base_schema "ping" ping_message).
  - vm_compute. reflexivity.
  - apply (bool_decide_unpack _). vm_compute. exact I.
  - discriminate.
Defined.

(** ** Length fields that the decoder reads as intended *)

Lemma be_digits_head (l : nat) : forall n,
  be_digits (S l) n = byte_of_Z (n / 256 ^ Z.of_nat l) :: be_digits l n.
Proof.
  induction l as [|l IH]; intros n.
  - simpl. by rewrite Z.div_1_r.
  - change (be_digits (S (S l)) n) with (be_digits (S l) (n / 256) ++ [byte_of_Z n]).
    rewrite IH. simpl. f_equal. f_equal.
    rewrite Z.div_div by lia. f_equal.
    rewrite Nat2Z.inj_succ, Z.pow_succ_r by lia. reflexivity.
Qed.

Lemma parse_int_head (c : byte) (rest : bytes) :
  is_space_bytes c = false -> is_digit c = false ->
  c ≠ "+"%byte -> c ≠ "-"%byte ->
  parse_int is_space_bytes (c :: rest) = None.
Proof.
  intros Hs Hd Hp Hm. unfold parse_int. simpl. rewrite Hs.
  rewrite !bool_decide_eq_false_2 by done. by rewrite Hd.
Qed.

Lemma byte_to_Z_range (c : byte) : 0 <= byte_to_Z c < 256.
Proof. by destruct c. Qed.

Lemma small_byte_no_literal (q : Z) (rest : bytes) :
  0 <= q < 9 -> int_of_bytes_literal (byte_of_Z q :: rest) = None.
Proof.
  intros Hq. unfold int_of_bytes_literal.
  assert (byte_to_Z (byte_of_Z q) = q) as Hb
    by (rewrite byte_to_Z_of_Z; apply Z.mod_small; lia).
  apply parse_int_head.
  - unfold is_space_bytes. rewrite Hb. lia.
  - unfold is_digit. rewrite Hb. lia.
  - intros Heq. rewrite Heq in Hb. vm_compute in Hb. lia.
  - intros Heq. rewrite Heq in Hb. vm_compute in Hb. lia.
Qed.

(** X7. When a name is bound to [bytes], [handlesingle] gives the big-endian
    value whenever the first byte cannot start a decimal literal (it is not
    white space, a sign or a digit), and for the empty byte string.  In
    particular a length field of [l + 1] bytes is read as intended for every
    value below [9 * 256 ^ l]: a two-byte length below 2304. *)
Theorem bytes_read_big_endian (x : string) (ma : gmap string pyval) :
  int_of_str x = None ->
  (forall c rest, ma !! x = Some (VBytes (c :: rest)) ->
     is_space_bytes c = false -> is_digit c = false ->
     c ≠ "+"%byte -> c ≠ "-"%byte ->
     handlesingle x ma = Ok (int_from_bytes (c :: rest)))
  /\ (ma !! x = Some (VBytes []) -> handlesingle x ma = Ok 0)
  /\ (forall (l : nat) n, 0 <= n < 9 * 256 ^ Z.of_nat l ->
        ma !! x = Some (VBytes (be_digits (S l) n)) -> handlesingle x ma = Ok n).
Proof.
  intros Hx. split_and!.
  - intros c rest Hma Hs Hd Hp Hm. unfold handlesingle, getitem.
    rewrite Hx, Hma. cbn [mbind result_bind].
    unfold int_of_bytes_literal. by rewrite parse_int_head.
  - intros Hma. unfold handlesingle, getitem. by rewrite Hx, Hma.
  - intros l n Hn Hma. unfold handlesingle, getitem.
    rewrite Hx, Hma. cbn [mbind result_bind].
    assert (0 < 256 ^ Z.of_nat l) by (apply Z.pow_pos_nonneg; lia).
    rewrite be_digits_head, small_byte_no_literal.
    + rewrite <- be_digits_head. rewrite int_from_bytes_be_digits; [done|].
      rewrite Nat2Z.inj_succ, Z.pow_succ_r by lia. lia.
    + split; [apply Z.div_pos; lia|apply Z.div_lt_upper_bound; lia].
Qed.

Lemma bytes_read_big_endian_witness :
  (forall c rest, ({[ "byteslen"%string := VBytes [x01; x30] ]} : gmap string pyval)
                    !! "byteslen"%string = Some (VBytes (c :: rest)) ->
     is_space_bytes c = false -> is_digit c = false ->
     c ≠ "+"%byte -> c ≠ "-"%byte ->
     handlesingle "byteslen" {[ "byteslen"%string := VBytes [x01; x30] ]}
     = Ok (int_from_bytes (c :: rest)))
  /\ (({[ "byteslen"%string := VBytes [x01; x30] ]} : gmap string pyval)
        !! "byteslen"%string = Some (VBytes []) ->
      handlesingle "byteslen" {[ "byteslen"%string := VBytes [x01; x30] ]} = Ok 0)
  /\ (forall (l : nat) n, 0 <= n < 9 * 256 ^ Z.of_nat l ->
        ({[ "byteslen"%string := VBytes [x01; x30] ]} : gmap string pyval)
          !! "byteslen"%string = Some (VBytes (be_digits (S l) n)) ->
        handlesingle "byteslen" {[ "byteslen"%string := VBytes [x01; x30] ]} = Ok n).
Proof.
  apply (bytes_read_big_endian "byteslen" {[ "byteslen"%string := VBytes [x01; x30] ]}).
  vm_compute. reflexivity.
Defined.

(** ** Nonces *)

Lemma reverse_be_digits_value (n : Z) (b : bytes) :
  to_bytes_little n 8 = Ok b ->
  len b = 8 /\ int_from_bytes (reverse b) = n.
Proof.
  unfold to_bytes_little. intros Hb.
  destruct (to_bytes n 8) as [d|] eqn:Hd; simpl in Hb; [|done]. simplify_eq.
  apply to_bytes_value in Hd as [Hv Hl]. rewrite reverse_involutive.
  split; [|done]. unfold len in *. by rewrite length_reverse.
Qed.

(** X8. For a counter in the 64-bit range [get_nonce_bytes] returns twelve
    bytes: four zero bytes, then the counter in little-endian order, so that
    distinct counters give distinct nonces.  A counter outside that range
    raises [OverflowError]. *)
Theorem get_nonce_bytes_spec (n : Z) :
  (0 <= n < 2 ^ 64 ->
     exists b, get_nonce_bytes n = Ok b /\ len b = 12
       /\ take 4 b = replicate 4 x00
       /\ int_from_bytes (reverse (drop 4 b)) = n)
  /\ (n < 0 \/ 2 ^ 64 <= n -> get_nonce_bytes n = Raise OverflowError)
  /\ (forall m, 0 <= n < 2 ^ 64 -> get_nonce_bytes n = get_nonce_bytes m -> n = m).
Proof.
  assert (forall i, 0 <= i < 2 ^ 64 ->
            exists b, get_nonce_bytes i = Ok (replicate 4 x00 ++ b)
              /\ len b = 8 /\ int_from_bytes (reverse b) = i) as Hok.
  { intros i Hi. unfold get_nonce_bytes.
    destruct (to_bytes_little i 8) as [b|] eqn:Hb.
    - exists b. split; [done|]. by apply reverse_be_digits_value.
    - unfold to_bytes_little in Hb. rewrite to_bytes_ok in Hb; [done|lia|].
      change (256 ^ 8) with (2 ^ 64). lia. }
  split_and!.
  - intros Hn. destruct (Hok n Hn) as (b & -> & Hl & Hv).
    eexists. split; [done|]. split_and!; [|done|done].
    unfold len in *. rewrite length_app. simpl. lia.
  - intros Hn. unfold get_nonce_bytes, to_bytes_little, to_bytes.
    change (8 <? 0) with false. change (256 ^ 8) with (2 ^ 64).
    destruct Hn as [Hn|Hn].
    + by rewrite (proj2 (Z.ltb_lt _ _) Hn).
    + destruct (n <? 0); [done|]. by rewrite (proj2 (Z.leb_le _ _) Hn).
  - intros m Hn Heq. destruct (Hok n Hn) as (b & Hb & _ & Hv).
    rewrite Hb in Heq. symmetry in Heq. unfold get_nonce_bytes in Heq.
    destruct (to_bytes_little m 8) as [b'|] eqn:Hb'; simpl in Heq; [|done].
    apply reverse_be_digits_value in Hb' as [_ Hv'].
    injection Heq as Heq. congruence.
Qed.

Lemma get_nonce_bytes_spec_witness :
  exists b, get_nonce_bytes 999 = Ok b /\ len b = 12
    /\ take 4 b = replicate 4 x00
    /\ int_from_bytes (reverse (drop 4 b)) = 999.
Proof. apply (proj1 (get_nonce_bytes_spec 999)). lia. Defined.

(** ** What a send does and does not do *)

Section SendOutcomes.
Context `{Env}.

Lemma sn_raise_trace (p p' : Peer) (e : pyerr) : sn p = (p', Raise e) -> trace p' = trace p.
Proof.
  intros Hsn. pose proof (sn_frame p) as (_ & _ & Ht). by rewrite Hsn in Ht.
Qed.

(** X9. [send_message] writes either nothing or exactly one chunk.  When it
    returns, the message decodes, is shorter than 65536 bytes, and the chunk
    written is 34 bytes longer than the message: an 18-byte length frame and
    the message with a 16-byte tag.  When it raises, nothing has been
    written; and a message that does not decode, or is too long, is refused
    before a nonce is taken, leaving the peer as it was. *)
Theorem send_message_outcomes (msg : bytes) (p : Peer) :
  match send_message msg p with
  | (p', Ok _) =>
      is_ok (decode_msg message_types msg) = true /\ len msg < 65536
      /\ exists d, trace p' = trace p ++ [EvWrite d] /\ len d = len msg + 34
  | (p', Raise _) =>
      trace p' = trace p
      /\ (is_ok (decode_msg message_types msg) = false \/ 65536 <= len msg -> p' = p)
  end.
Proof.
  unfold send_message, mbind, M_bind, lift, gets, writer_write, emit, modify.
  destruct (decode_msg _ _) as [dec|]; [|by auto].
  unfold to_bytes. change (2 <? 0) with false.
  assert (0 <= len msg) as Hlen0 by (unfold len; lia).
  rewrite (proj2 (Z.ltb_ge _ _) Hlen0).
  change (256 ^ 2) with 65536.
  destruct (65536 <=? len msg) eqn:Hlen; [by auto|].
  apply Z.leb_gt in Hlen.
  pose proof (sn_frame p) as (_ & _ & Ht1).
  destruct (sn p) as [p1 [n1|]]; simpl in Ht1; [|split; [done|]; intros [?|?]; [done|lia]].
  pose proof (sn_frame p1) as (_ & _ & Ht2).
  destruct (aead_encrypt _ _ _ _) as [lc|];
    [|split; [done|]; intros [?|?]; [done|lia]].
  destruct (sn p1) as [p2 [n2|]]; simpl in Ht2;
    [|split; [congruence|]; intros [?|?]; [done|lia]].
  destruct (aead_encrypt _ _ _ _) as [c|];
    [|split; [congruence|]; intros [?|?]; [done|lia]].
  destruct (len lc =? 18) eqn:Hlc; cbn [assert];
    [|split; [congruence|]; intros [?|?]; [done|lia]].
  destruct (len c =? len msg + 16) eqn:Hc; cbn [assert];
    [|split; [congruence|]; intros [?|?]; [done|lia]].
  split_and!; [done|done|]. exists (lc ++ c). simpl. split; [congruence|].
  apply Z.eqb_eq in Hlc, Hc. unfold len in *. rewrite length_app. lia.
Qed.

Lemma send_message_too_long (msg : bytes) (p : Peer) (dec : string * gmap string pyval) :
  decode_msg message_types msg = Ok dec -> 65536 <= len msg ->
  send_message msg p = (p, Raise OverflowError).
Proof.
  intros Hdec Hlen. unfold send_message, mbind, M_bind, lift. rewrite Hdec.
  unfold to_bytes. change (2 <? 0) with false.
  rewrite (proj2 (Z.ltb_ge (len msg) 0)) by lia. change (256 ^ 2) with 65536.
  by rewrite (proj2 (Z.leb_le 65536 (len msg))) by lia.
Qed.

End SendOutcomes.

(** ** Channel identifiers *)

Lemma int_from_bytes_bounds (b : bytes) : 0 <= int_from_bytes b < 256 ^ len b.
Proof.
  induction b as [|x b IH] using rev_ind; [done|].
  rewrite int_from_bytes_snoc. unfold len in *. rewrite length_app. simpl.
  pose proof (byte_to_Z_range x).
  replace (Z.of_nat (length b + 1)) with (Z.succ (Z.of_nat (length b))) by lia.
  rewrite Z.pow_succ_r by lia. lia.
Qed.

Lemma byte_of_to_Z (x : byte) : byte_of_Z (byte_to_Z x) = x.
Proof. by destruct x. Qed.

Lemma byte_of_Z_mod (n : Z) : byte_of_Z (n mod 256) = byte_of_Z n.
Proof. unfold byte_of_Z. by rewrite Z.mod_mod. Qed.

Lemma be_digits_int_from_bytes (b : bytes) : be_digits (length b) (int_from_bytes b) = b.
Proof.
  induction b as [|x b IH] using rev_ind; [done|].
  rewrite int_from_bytes_snoc, length_app. simpl.
  replace (length b + 1)%nat with (S (length b)) by lia. simpl.
  pose proof (byte_to_Z_range x).
  replace ((256 * int_from_bytes b + byte_to_Z x) / 256) with (int_from_bytes b)
    by (apply Z.div_unique with (byte_to_Z x); lia).
  rewrite IH. f_equal. f_equal.
  rewrite <- byte_of_Z_mod.
  replace ((256 * int_from_bytes b + byte_to_Z x) mod 256) with (byte_to_Z x)
    by (apply Z.mod_unique with (int_from_bytes b); lia).
  apply byte_of_to_Z.
Qed.

Lemma take_be_digits (m : nat) : forall (l : nat) (n : Z),
  take l (be_digits (l + m) n) = be_digits l (n / 256 ^ Z.of_nat m).
Proof.
  induction m as [|m IH]; intros l n.
  - rewrite Nat.add_0_r, Z.div_1_r. apply firstn_all2. by rewrite be_digits_length.
  - replace (l + S m)%nat with (S (l + m)) by lia. simpl be_digits.
    rewrite take_app_le by (rewrite be_digits_length; lia).
    rewrite IH. f_equal. rewrite Z.div_div by lia. f_equal.
    rewrite Nat2Z.inj_succ, Z.pow_succ_r by lia. reflexivity.
Qed.

Lemma lxor_bound (a b : Z) (w : Z) :
  0 <= w -> 0 <= a < 2 ^ w -> 0 <= b < 2 ^ w -> 0 <= Z.lxor a b < 2 ^ w.
Proof.
  intros Hw Ha Hb.
  assert (0 <= Z.lxor a b) as H0 by (apply Z.lxor_nonneg; lia).
  split; [done|].
  destruct (Z.eq_dec (Z.lxor a b) 0) as [->|Hne]; [apply Z.pow_pos_nonneg; lia|].
  apply Z.log2_lt_pow2; [lia|].
  pose proof (Z.log2_lxor a b ltac:(lia) ltac:(lia)) as Hlog.
  assert (forall x, 0 <= x < 2 ^ w -> Z.log2 x < w \/ x = 0) as Hl.
  { intros x Hx. destruct (Z.eq_dec x 0); [auto|]. left. apply Z.log2_lt_pow2; lia. }
  destruct (Hl a Ha) as [?| ->], (Hl b Hb) as [?| ->];
    rewrite ?Z.lxor_0_l, ?Z.lxor_0_r in *; lia.
Qed.

(** X10. For a transaction id of 32 bytes and an output index below 65536,
    [channel_id_from_funding_tx] returns the byte-reversed id together with
    a 32-byte channel id that agrees with it on the first 30 bytes, so that
    only the last two bytes carry the index; xor-ing the index into the
    channel id again gives back the reversed id, and index 0 leaves it
    unchanged.  A string that is not hexadecimal raises [ValueError]. *)
Theorem channel_id_from_funding_tx_spec (funding_txid : string) (funding_index : Z) :
  (forall b, bytes_fromhex funding_txid = Ok b -> len b = 32 ->
     0 <= funding_index < 2 ^ 16 ->
     exists cid,
       channel_id_from_funding_tx funding_txid funding_index = Ok (cid, reverse b)
       /\ len cid = 32
       /\ take 30 cid = take 30 (reverse b)
       /\ Z.lxor (int_from_bytes cid) funding_index = int_from_bytes (reverse b)
       /\ (funding_index = 0 -> cid = reverse b))
  /\ (bytes_fromhex funding_txid = Raise ValueError ->
      channel_id_from_funding_tx funding_txid funding_index = Raise ValueError).
Proof.
  split.
  - intros b Hb Hlen Hidx. unfold channel_id_from_funding_tx. rewrite Hb.
    cbn [mbind result_bind].
    set (t := reverse b).
    assert (length t = 32%nat) as Ht
      by (unfold t, len in *; rewrite length_reverse; lia).
    pose proof (int_from_bytes_bounds t) as Hi. unfold len in Hi. rewrite Ht in Hi.
    change (256 ^ Z.of_nat 32) with (2 ^ 256) in Hi.
    assert (0 <= Z.lxor (int_from_bytes t) funding_index < 2 ^ 256) as Hx.
    { apply lxor_bound; [lia|done|]. split; [lia|].
      eapply Z.lt_trans; [apply Hidx|]. done. }
    rewrite to_bytes_ok by (change (256 ^ 32) with (2 ^ 256); lia).
    cbn [mbind result_bind]. change (Z.to_nat 32) with 32%nat.
    eexists. split; [done|].
    assert (be_digits 32 (int_from_bytes t) = t) as Hrt
      by (rewrite <- Ht at 1; apply be_digits_int_from_bytes).
    split_and!.
    + unfold len. by rewrite be_digits_length.
    + transitivity (take 30 (be_digits 32 (int_from_bytes t))); [|by rewrite Hrt].
      change 32%nat with (30 + 2)%nat. rewrite !take_be_digits.
      f_equal. change (256 ^ Z.of_nat 2) with (2 ^ 16).
      rewrite <- !Z.shiftr_div_pow2 by lia. rewrite Z.shiftr_lxor.
      rewrite (Z.shiftr_div_pow2 funding_index) by lia.
      rewrite (Z.div_small funding_index) by lia. apply Z.lxor_0_r.
    + rewrite int_from_bytes_be_digits by (change (256 ^ Z.of_nat 32) with (2 ^ 256); lia).
      rewrite Z.lxor_assoc, Z.lxor_nilpotent. apply Z.lxor_0_r.
    + intros ->. by rewrite Z.lxor_0_r.
  - intros Hb. unfold channel_id_from_funding_tx. by rewrite Hb.
Qed.

Lemma channel_id_from_funding_tx_spec_witness :
  exists cid,
    channel_id_from_funding_tx scenario_txid 1
    = Ok (cid, reverse (replicate 31 x00 ++ [xaa]))
    /\ len cid = 32
    /\ take 30 cid = take 30 (reverse (replicate 31 x00 ++ [xaa]))
    /\ Z.lxor (int_from_bytes cid) 1 = int_from_bytes (reverse (replicate 31 x00 ++ [xaa]))
    /\ (1 = 0 -> cid = reverse (replicate 31 x00 ++ [xaa])).
Proof.
  apply (proj1 (channel_id_from_funding_tx_spec scenario_txid 1)).
  - vm_compute. reflexivity.
  - vm_compute. reflexivity.
  - lia.
Defined.

(** ** Failures of the handlers *)

Section HandlerEdges.
Context `{Env}.

(** X11. [on_update_fail_htlc] changes the peer only when it returns: every
    raise leaves the blacklist and the failure queue as they were.  It
    raises [KeyError] when no route was recorded for the htlc, and
    [UnboundLocalError] when the failing node is the last hop of the
    recorded route, since [short_chan_id] is then never assigned: in that
    case the payment flow is never told of the failure. *)
Theorem on_update_fail_htlc_failures (payload : gmap string pyval) (p : Peer) :
  (forall p' e, on_update_fail_htlc payload p = (p', Raise e) -> p' = p)
  /\ (forall cid idb,
        getbytes payload "channel_id" = Ok cid ->
        getbytes payload "id" = Ok idb ->
        attempted_route p !! (cid, int_from_bytes idb) = None ->
        on_update_fail_htlc payload p = (p, Raise KeyError))
  /\ (forall cid idb reason secret route failure sender_idx,
        getbytes payload "channel_id" = Ok cid ->
        getbytes payload "id" = Ok idb ->
        attempted_route p !! (cid, int_from_bytes idb) = Some route ->
        getbytes payload "reason" = Ok reason ->
        secret_key p = Some secret ->
        decode_onion_error reason (edge_node_id <$> route) secret = Ok (failure, sender_idx) ->
        len route <= sender_idx + 1 ->
        on_update_fail_htlc payload p = (p, Raise UnboundLocalError)).
Proof.
  split_and!.
  - intros p' e. unfold on_update_fail_htlc, mbind, M_bind, lift, modify.
    repeat (case_match; simplify_eq; try done); by intros ?; simplify_eq.
  - intros cid idb Hc Hi Hr. unfold on_update_fail_htlc, mbind, M_bind, lift.
    rewrite Hc, Hi. unfold getitem. by rewrite Hr.
  - intros cid idb reason secret route failure sender_idx Hc Hi Hr Hre Hs Hd Hlen.
    unfold on_update_fail_htlc, mbind, M_bind, lift.
    rewrite Hc, Hi. unfold getitem at 1. rewrite Hr, Hre, Hs, Hd.
    unfold getitem_list.
    assert (0 <= len route) by (unfold len; lia).
    destruct (sender_idx + 1 <? 0) eqn:Hneg; [lia|].
    rewrite Hneg. rewrite lookup_ge_None_2; [done|]. unfold len in *. lia.
Qed.

(** X12. [on_channel_reestablish] ignores a message for a channel it does not
    know.  For a known channel whose two counters match, it raises [KeyError]
    when the payload lacks [my_current_per_commitment_point] - which the
    decoder leaves out when the sender omitted the trailing feature fields -
    and [InvalidStateError] when the channel's future is already resolved or
    cancelled; in every failing case the peer is left as it was. *)
Theorem on_channel_reestablish_edges (payload : gmap string pyval) (p : Peer) (cid : bytes) :
  getbytes payload "channel_id" = Ok cid ->
  (channels p !! cid = None -> on_channel_reestablish payload p = (p, Ok tt))
  /\ (forall chan b1 b2,
        channels p !! cid = Some chan ->
        getbytes payload "next_local_commitment_number" = Ok b1 ->
        int_from_bytes b1 = remote_ctn (remote_state chan) + 1 ->
        getbytes payload "next_remote_revocation_number" = Ok b2 ->
        int_from_bytes b2 = local_ctn (local_state chan) ->
        (payload !! "my_current_per_commitment_point"%string = None ->
         on_channel_reestablish payload p = (p, Raise KeyError))
        /\ (forall fut,
              getbytes payload "my_current_per_commitment_point"
              = Ok (match current_per_commitment_point (remote_state chan) with
                    | Some our => our
                    | None => next_per_commitment_point (remote_state chan)
                    end) ->
              channel_reestablished p !! cid = Some fut -> fut ≠ Pending ->
              on_channel_reestablish payload p = (p, Raise InvalidStateError)))
  /\ (forall p' e, on_channel_reestablish payload p = (p', Raise e) ->
        is_Some (channel_reestablished p !! cid) -> p' = p).
Proof.
  intros Hcid. split_and!.
  - intros Hc. unfold on_channel_reestablish, mbind, M_bind, lift, gets.
    by rewrite Hcid, Hc.
  - intros chan b1 b2 Hc H1 Hv1 H2 Hv2.
    rewrite (on_channel_reestablish_unfold _ _ _ _ Hcid Hc), H1.
    rewrite bool_decide_eq_false_2 by (intros ?; done).
    rewrite H2. rewrite bool_decide_eq_false_2 by (intros ?; done).
    split.
    + intros Hnone. unfold getbytes, getitem. by rewrite Hnone.
    + intros fut Hp Hfut Hne. rewrite Hp. cbv zeta.
      rewrite bool_decide_eq_false_2 by (intros ?; done).
      unfold set_result. rewrite Hfut. simpl. by destruct fut.
  - intros p' e Hr [fut Hfut].
    destruct (channels p !! cid) as [chan|] eqn:Hc.
    + rewrite (on_channel_reestablish_unfold _ _ _ _ Hcid Hc) in Hr.
      unfold set_result in Hr. rewrite Hfut in Hr. simpl in Hr.
      repeat (case_match; simplify_eq; try done).
    + unfold on_channel_reestablish, mbind, M_bind, lift, gets in Hr.
      rewrite Hcid, Hc in Hr. by simplify_eq.
Qed.

(** X13. [on_node_announcement] records a node only under a signature that
    verifies over the double hash of the raw message from byte 66 on.  With
    a bad signature it returns [False] and leaves the peer untouched.  With
    a good one it keeps the addresses in the attribute [self.s] while it
    parses them, which leaves [self.s] empty; it then stores, under the node
    id, the alias without its trailing zero bytes and the parsed addresses.
    Nothing else changes; and when the payload has no alias, the exception
    comes out with [self.s] already emptied and no node recorded. *)
Theorem on_node_announcement_outcomes (payload : gmap string pyval) (p : Peer)
    (pk sig raw : bytes) :
  getbytes payload "node_id" = Ok pk ->
  getbytes payload "signature" = Ok sig ->
  getbytes payload "raw" = Ok raw ->
  (verify_signature pk sig (Hash (slice_from raw 66)) = false ->
   on_node_announcement payload p = (p, Ok (Some false)))
  /\ (forall s alias,
        verify_signature pk sig (Hash (slice_from raw 66)) = true ->
        getbytes payload "addresses" = Ok s ->
        getbytes payload "alias" = Ok alias ->
        on_node_announcement payload p
        = (set_lightning_nodes
             (<[pk := (rstrip_zero alias, parse_addresses s [])]> (lightning_nodes p))
             (set_peer_s (Some []) p),
           Ok None))
  /\ (forall s e,
        verify_signature pk sig (Hash (slice_from raw 66)) = true ->
        getbytes payload "addresses" = Ok s ->
        getbytes payload "alias" = Raise e ->
        on_node_announcement payload p = (set_peer_s (Some []) p, Raise e))
  /\ (forall e,
        verify_signature pk sig (Hash (slice_from raw 66)) = true ->
        getbytes payload "addresses" = Raise e ->
        on_node_announcement payload p = (p, Raise e))
  /\ (forall p' r, on_node_announcement payload p = (p', r) ->
        (lightning_nodes p' ≠ lightning_nodes p \/ peer_s p' ≠ peer_s p) ->
        verify_signature pk sig (Hash (slice_from raw 66)) = true).
Proof.
  intros Hpk Hsig Hraw. split_and!.
  - intros Hv. unfold on_node_announcement, mbind, M_bind, lift.
    by rewrite Hpk, Hsig, Hraw, Hv.
  - intros s alias Hv Hs Ha. unfold on_node_announcement, mbind, M_bind, lift, modify.
    rewrite Hpk, Hsig, Hraw, Hv, Hs, Ha. by destruct p.
  - intros s e Hv Hs Ha. unfold on_node_announcement, mbind, M_bind, lift, modify.
    rewrite Hpk, Hsig, Hraw, Hv, Hs, Ha. by destruct p.
  - intros e Hv Hs. unfold on_node_announcement, mbind, M_bind, lift, modify.
    by rewrite Hpk, Hsig, Hraw, Hv, Hs.
  - intros p' r Hr Hne.
    destruct (verify_signature pk sig (Hash (slice_from raw 66))) eqn:Hv; [done|].
    unfold on_node_announcement, mbind, M_bind, lift in Hr.
    rewrite Hpk, Hsig, Hraw, Hv in Hr. simpl in Hr. unfold mret, M_ret in Hr.
    simplify_eq. by destruct Hne.
Qed.

End HandlerEdges.

Lemma on_update_fail_htlc_failures_witness :
  on_update_fail_htlc
    (kwargs [("channel_id", VBytes (replicate 32 x07));
             ("id", VBytes (replicate 8 x00));
             ("reason", VBytes [x10; x07; x02])]%string)
    scenario_paying_peer
  = (scenario_paying_peer, Raise UnboundLocalError).
Proof.
  refine (proj2 (proj2 (on_update_fail_htlc_failures _ scenario_paying_peer))
            (replicate 32 x07) (replicate 8 x00) [x10; x07; x02] (replicate 32 x09)
            scenario_route (MkFailure 4103 []) 2 _ _ _ _ _ _ _);
    first [vm_compute; reflexivity | vm_compute; discriminate].
Defined.

Lemma on_channel_reestablish_edges_witness :
  on_channel_reestablish
    (delete "my_current_per_commitment_point"%string scenario_reestablish_payload)
    scenario_peer_with_channel
  = (scenario_peer_with_channel, Raise KeyError).
Proof.
  refine (proj1 (proj1 (proj2 (on_channel_reestablish_edges
            (delete "my_current_per_commitment_point"%string scenario_reestablish_payload)
            scenario_peer_with_channel (replicate 32 x07) _))
            scenario_channel [x00; x00; x00; x00; x00; x00; x00; x01]
            [x00; x00; x00; x00; x00; x00; x00; x00] _ _ _ _ _) _);
    vm_compute; reflexivity.
Defined.

(** ** Addresses: the type-2 branch and truncated entries *)

(** X14. As the code has it, an address entry of type 2 takes eight bytes,
    shown as four groups of four hexadecimal digits joined by colons, and a
    two-byte port, ten bytes in all.  An entry of type 1 that is cut short
    is still recorded: with at most four bytes left, they all go to the
    dotted address and the port is 0. *)
Theorem parse_addresses_type2_and_truncation (addresses : list address) :
  (forall g0 g1 g2 g3 g4 g5 g6 g7 p1 p2 rest,
     parse_addresses (x02 :: g0 :: g1 :: g2 :: g3 :: g4 :: g5 :: g6 :: g7 :: p1 :: p2 :: rest)
       addresses
     = parse_addresses rest
         (addresses ++
          [(HostBytes (hexlify [g0; g1] ++ [":"%byte] ++ hexlify [g2; g3] ++ [":"%byte]
                       ++ hexlify [g4; g5] ++ [":"%byte] ++ hexlify [g6; g7]),
            256 * byte_to_Z p1 + byte_to_Z p2)]))
  /\ (forall s, (length s <= 4)%nat ->
        parse_addresses (x01 :: s) addresses
        = addresses ++ [(HostStr (format_ipv4 s), 0)]).
Proof.
  split.
  - intros. rewrite parse_addresses_cons.
    change (byte_to_Z x02) with 2. unfold address_step.
    change (2 =? 0) with false. change (2 =? 1) with false. change (2 =? 2) with true.
    cbn [negb].
    change (g0 :: g1 :: g2 :: g3 :: g4 :: g5 :: g6 :: g7 :: p1 :: p2 :: rest)
      with ([g0; g1] ++ [g2; g3] ++ [g4; g5] ++ [g6; g7] ++ [p1; p2] ++ rest).
    rewrite !read_app by done. cbn [fst snd]. reflexivity.
  - intros s Hs. rewrite parse_addresses_cons.
    change (byte_to_Z x01) with 1. unfold address_step.
    change (1 =? 0) with false. change (1 =? 1) with true. cbn [negb].
    assert (read 4 s = (s, [])) as ->.
    { unfold read, slice, slice_from, adjust_index, len. simpl.
      rewrite (Z.min_l 0) by lia. rewrite Z.min_r by lia.
      change (Z.to_nat 0) with 0%nat. rewrite drop_0. f_equal.
      - apply firstn_all2. lia.
      - apply drop_ge. lia. }
    change (read 2 []) with (@nil byte, @nil byte). cbn [fst snd].
    by simp parse_addresses.
Qed.

Lemma parse_addresses_type2_and_truncation_witness :
  parse_addresses [x01; x7f; x00] [] = [] ++ [(HostStr (format_ipv4 [x7f; x00]), 0)].
Proof.
  apply (proj2 (parse_addresses_type2_and_truncation []) [x7f; x00]). simpl. lia.
Defined.

Lemma on_node_announcement_outcomes_witness :
  let payload := kwargs [("node_id", VBytes (x02 :: replicate 32 x0a));
                         ("signature", VBytes (replicate 64 x51));
                         ("raw", VBytes (replicate 80 x00));
                         ("addresses", VBytes [x01; x7f; x00; x00; x01; x26; x07]);
                         ("alias", VBytes [x61; x62; x00; x00])]%string in
  on_node_announcement payload scenario_peer
  = (set_lightning_nodes
       (<[x02 :: replicate 32 x0a :=
            (rstrip_zero [x61; x62; x00; x00],
             parse_addresses [x01; x7f; x00; x00; x01; x26; x07] [])]>
          (lightning_nodes scenario_peer)) (set_peer_s (Some []) scenario_peer),
     Ok None).
Proof.
  intros payload.
  refine (proj1 (proj2 (on_node_announcement_outcomes payload scenario_peer
            (x02 :: replicate 32 x0a) (replicate 64 x51) (replicate 80 x00) _ _ _))
            _ _ _ _ _); vm_compute; reflexivity.
Defined.

(** ** The counters in the long run *)

Section LongRun.
Context `{Env}.
Hypothesis digest_length : forall k m, len (hmac_sha256 k m) = 32.

Lemma get_bolt8_hkdf_halves (salt ikm : bytes) :
  get_bolt8_hkdf salt ikm = Ok (hkdf_halves salt ikm).
Proof.
  unfold get_bolt8_hkdf, hkdf_halves. rewrite digest_length. cbn [assert mbind result_bind].
  change (32 =? 32) with true. cbn [assert mbind result_bind app].
  unfold len. rewrite length_app.
  pose proof (digest_length (hmac_sha256 salt ikm) [x01]) as H1.
  pose proof (digest_length (hmac_sha256 salt ikm)
                (hmac_sha256 (hmac_sha256 salt ikm) [x01] ++ [x02])) as H2.
  unfold len in H1, H2.
  replace (Z.of_nat (_ + _) =? 64) with true by (symmetry; apply Z.eqb_eq; lia).
  reflexivity.
Qed.

Lemma rotations_S (n : nat) (ck k : bytes) :
  rotations (S n) ck k = hkdf_halves (rotations n ck k).1 (rotations n ck k).2.
Proof. reflexivity. Qed.

Lemma sn_long_run (n : nat) : forall (p : Peer),
  0 <= _sn p < 1000 ->
  let total := _sn p + Z.of_nat n in
  let keys := rotations (Z.to_nat (total / 1000)) (s_ck p) (sk p) in
  calls n sn p
  = (set_sn (total mod 1000) (set_sk keys.2 (set_s_ck keys.1 p)),
     Ok ((fun i => i mod 1000) <$> seqZ (_sn p) (Z.of_nat n))).
Proof.
  induction n as [|n IH]; intros p Hp total keys.
  - subst total keys. rewrite Z.add_0_r, Z.mod_small, Z.div_small by lia.
    by destruct p.
  - replace (S n) with (n + 1)%nat by lia. rewrite calls_snoc, IH by done.
    set (t := _sn p + Z.of_nat n).
    assert (total = t + 1) as Ht by (subst total t; lia).
    assert (0 <= t) by (subst t; lia).
    assert (0 <= t / 1000) by (apply Z.div_pos; lia).
    pose proof (Z.mod_pos_bound t 1000 ltac:(lia)) as Hm.
    replace (seqZ (_sn p) (Z.of_nat (n + 1))) with (seqZ (_sn p) (Z.of_nat n) ++ [t])
      by (replace (Z.of_nat (n + 1)) with (Z.of_nat n + 1) by lia;
          rewrite seqZ_app by lia; done).
    rewrite fmap_app. cbn [fmap list_fmap].
    set (pn := set_sn (t mod 1000) _).
    destruct (decide (t mod 1000 + 1 = 1000)) as [Hrot|Hno].
    + rewrite (sn_rotates pn _ _ ltac:(simpl; lia) (get_bolt8_hkdf_halves _ _)).
      f_equal; [|replace (t mod 1000) with 999 by lia; done]. subst keys pn. rewrite Ht.
      assert ((t + 1) mod 1000 = 0 /\ (t + 1) / 1000 = t / 1000 + 1) as [-> ->].
      { pose proof (Z.div_mod t 1000 ltac:(lia)).
        split.
        - symmetry. apply Z.mod_unique with (t / 1000 + 1); lia.
        - symmetry. apply Z.div_unique with 0; lia. }
      rewrite Z2Nat.inj_add by lia. change (Z.to_nat 1) with 1%nat.
      rewrite Nat.add_1_r, rotations_S. reflexivity.
    + rewrite sn_within_epoch by (simpl; lia).
      f_equal. subst keys pn. rewrite Ht.
      assert ((t + 1) mod 1000 = t mod 1000 + 1 /\ (t + 1) / 1000 = t / 1000) as [-> ->].
      { pose proof (Z.div_mod t 1000 ltac:(lia)).
        split.
        - symmetry. apply Z.mod_unique with (t / 1000); lia.
        - symmetry. apply Z.div_unique with (t mod 1000 + 1); lia. }
      reflexivity.
Qed.

Lemma rn_long_run (n : nat) : forall (p : Peer),
  0 <= _rn p < 1000 ->
  let total := _rn p + Z.of_nat n in
  let keys i := rotations (Z.to_nat (i / 1000)) (r_ck p) (rk p) in
  calls n rn p
  = (set_rn (total mod 1000) (set_rk (keys total).2 (set_r_ck (keys total).1 p)),
     Ok ((fun i => (i mod 1000, (keys i).2)) <$> seqZ (_rn p) (Z.of_nat n))).
Proof.
  induction n as [|n IH]; intros p Hp total keys.
  - subst total keys. cbv beta. rewrite Z.add_0_r, Z.mod_small, Z.div_small by lia.
    by destruct p.
  - replace (S n) with (n + 1)%nat by lia. rewrite calls_snoc, IH by done.
    set (t := _rn p + Z.of_nat n).
    assert (total = t + 1) as Ht by (subst total t; lia).
    assert (0 <= t) by (subst t; lia).
    assert (0 <= t / 1000) by (apply Z.div_pos; lia).
    pose proof (Z.mod_pos_bound t 1000 ltac:(lia)) as Hm.
    replace (seqZ (_rn p) (Z.of_nat (n + 1))) with (seqZ (_rn p) (Z.of_nat n) ++ [t])
      by (replace (Z.of_nat (n + 1)) with (Z.of_nat n + 1) by lia;
          rewrite seqZ_app by lia; done).
    rewrite fmap_app. cbn [fmap list_fmap].
    set (pn := set_rn (t mod 1000) _).
    destruct (decide (t mod 1000 + 1 = 1000)) as [Hrot|Hno].
    + rewrite (rn_rotates pn _ _ ltac:(simpl; lia) (get_bolt8_hkdf_halves _ _)).
      f_equal; [|subst keys pn; simpl; replace (t mod 1000) with 999 by lia; done].
      subst keys pn. cbv beta. rewrite Ht.
      assert ((t + 1) mod 1000 = 0 /\ (t + 1) / 1000 = t / 1000 + 1) as [-> ->].
      { pose proof (Z.div_mod t 1000 ltac:(lia)).
        split.
        - symmetry. apply Z.mod_unique with (t / 1000 + 1); lia.
        - symmetry. apply Z.div_unique with 0; lia. }
      rewrite Z2Nat.inj_add by lia. change (Z.to_nat 1) with 1%nat.
      rewrite Nat.add_1_r, rotations_S. reflexivity.
    + rewrite rn_within_epoch by (simpl; lia).
      f_equal; try done.
      subst keys pn. cbv beta. rewrite Ht.
      assert ((t + 1) mod 1000 = t mod 1000 + 1 /\ (t + 1) / 1000 = t / 1000) as [-> ->].
      { pose proof (Z.div_mod t 1000 ltac:(lia)).
        split.
        - symmetry. apply Z.mod_unique with (t / 1000); lia.
        - symmetry. apply Z.div_unique with (t mod 1000 + 1); lia. }
      reflexivity.
Qed.

End LongRun.

(** X15. With an HMAC whose digests are 32 bytes long, the counters never
    leave the range 0..999 however many nonces are taken: starting from a
    counter [c] in that range, the [i]-th call of [sn] returns [(c + i) mod
    1000], and after [n] calls the counter is [(c + n) mod 1000] and the
    sending keys have been rotated [(c + n) / 1000] times; nothing else
    changes.  [rn] behaves the same way on its side and returns with each
    nonce the receiving key of the epoch the nonce belongs to. *)
Theorem nonce_counters_long_run `{Env} (p : Peer) (n : nat) :
  (forall k m, len (hmac_sha256 k m) = 32) ->
  (0 <= _sn p < 1000 ->
   let total := _sn p + Z.of_nat n in
   let keys := rotations (Z.to_nat (total / 1000)) (s_ck p) (sk p) in
   calls n sn p
   = (set_sn (total mod 1000) (set_sk keys.2 (set_s_ck keys.1 p)),
      Ok ((fun i => i mod 1000) <$> seqZ (_sn p) (Z.of_nat n))))
  /\ (0 <= _rn p < 1000 ->
      let total := _rn p + Z.of_nat n in
      let keys i := rotations (Z.to_nat (i / 1000)) (r_ck p) (rk p) in
      calls n rn p
      = (set_rn (total mod 1000) (set_rk (keys total).2 (set_r_ck (keys total).1 p)),
         Ok ((fun i => (i mod 1000, (keys i).2)) <$> seqZ (_rn p) (Z.of_nat n)))).
Proof.
  intros Hd. split; intros Hp; [by apply sn_long_run|by apply rn_long_run].
Qed.

Lemma nonce_counters_long_run_witness :
  let p := set_sn 998 scenario_peer in
  let keys := rotations (Z.to_nat ((998 + Z.of_nat 3) / 1000)) (s_ck p) (sk p) in
  calls 3 sn p
  = (set_sn ((998 + Z.of_nat 3) mod 1000) (set_sk keys.2 (set_s_ck keys.1 p)),
     Ok ((fun i => i mod 1000) <$> seqZ 998 (Z.of_nat 3))).
Proof.
  intros p keys.
  refine (proj1 (nonce_counters_long_run p 3 _) _).
  - intros k m. change (hmac_sha256 k m) with (scenario_hmac k m).
    unfold len, scenario_hmac. by rewrite be_digits_length.
  - simpl. lia.
Defined.

(** ** Answering a ping *)

Lemma be_digits_zero (l : nat) : be_digits l 0 = replicate l x00.
Proof.
  induction l as [|l IH]; [done|]. simpl. change (0 / 256) with 0. rewrite IH.
  change [byte_of_Z 0] with (replicate 1 x00).
  rewrite <- replicate_add. by replace (l + 1)%nat with (S l) by lia.
Qed.

Lemma int_from_bytes_nonneg (b : bytes) : 0 <= int_from_bytes b.
Proof. apply int_from_bytes_bounds. Qed.

Section Pong.
Context `{Env}.
Hypothesis pong_entry : ordered_getitem structured "pong" = Ok pong_message.
Hypothesis pong_handler : message_types !! [x00; x13] = Some ("pong"%string, pong_message).

(** The pong that carries [n] bytes of padding. *)
Lemma gen_pong (n : Z) :
  0 <= n < 65536 ->
  gen_msg structured "pong" (kwargs [("byteslen", VInt n)]%string)
  = Ok ([x00; x13] ++ be_digits 2 n ++ replicate (Z.to_nat n) x00).
Proof.
  intros Hn. unfold gen_msg. rewrite pong_entry. cbn [mbind result_bind].
  change (int_of_str (type pong_message)) with (Some 19). cbn [mbind result_bind].
  change (to_bytes 19 2) with (Ok [x00; x13]). cbn [mbind result_bind].
  change (payload pong_message)
    with [("byteslen", PosLen "0" "2" None); ("ignored", PosLen "2" "byteslen" None)]%string.
  cbn [gen_loop has_feature feature].
  rewrite (encode_field_literal_int _ _ _ _ 2 n); try done.
  cbn [mbind result_bind].
  assert (encode_field "ignored" (PosLen "2" "byteslen" None)
            (kwargs [("byteslen", VInt n)]%string)
            (<["byteslen"%string := VInt (len (be_digits (Z.to_nat 2) n))]> ∅)
          = Ok (replicate (Z.to_nat n) x00)) as ->.
  { unfold encode_field. cbn [length_exp].
    change (calcexp "byteslen" (<["byteslen"%string := VInt (len (be_digits (Z.to_nat 2) n))]> ∅))
      with (Ok (0 + len (be_digits (Z.to_nat 2) n))).
    cbn [mbind result_bind].
    change (calcexp "byteslen" (kwargs [("byteslen", VInt n)]%string ∪ _)) with (Ok (0 + n)).
    cbn [mbind result_bind].
    change (kwargs [("byteslen", VInt n)]%string !! "ignored"%string) with (@None pyval).
    cbn [default]. change (default (VInt 0) None) with (VInt 0).
    rewrite to_bytes_ok; [|lia|split; [lia|apply Z.pow_pos_nonneg; lia]].
    cbn [mbind result_bind]. rewrite be_digits_zero.
    rewrite bool_decide_eq_false_2; [done|].
    intros Hne. apply Hne. unfold len. rewrite length_replicate. lia. }
  cbn [mbind result_bind]. change (Z.to_nat 2) with 2%nat.
  by rewrite <- app_assoc.
Qed.

Lemma decode_pong (n : Z) :
  0 <= n < 65536 ->
  int_of_bytes_literal (be_digits 2 n) = None ->
  decode_msg message_types ([x00; x13] ++ be_digits 2 n ++ replicate (Z.to_nat n) x00)
  = Ok ("pong"%string,
        <["ignored"%string := VBytes (replicate (Z.to_nat n) x00)]>
          (<["byteslen"%string := VBytes (be_digits 2 n)]> ∅)).
Proof.
  intros Hn Hlit. unfold decode_msg.
  rewrite slice_to_app by done. unfold getitem. rewrite pong_handler.
  cbn [mbind result_bind fst snd].
  rewrite slice_from_app by done.
  set (pad := replicate (Z.to_nat n) x00).
  assert (len (be_digits 2 n) = 2) as Hl2 by (unfold len; by rewrite be_digits_length).
  assert (len pad = n) as Hlp by (unfold len, pad; rewrite length_replicate; lia).
  unfold handler.
  change (payload pong_message)
    with [("byteslen", PosLen "0" "2" None); ("ignored", PosLen "2" "byteslen" None)]%string.
  cbn [handler_loop has_feature feature andb position length_exp].
  rewrite (calcexp_literal "0" 0), (calcexp_literal "2" 2) by done.
  cbn [mbind result_bind]. change (0 =? 0) with true. cbn [assert mbind result_bind].
  assert (slice (be_digits 2 n ++ pad) 0 (0 + 2) = be_digits 2 n) as ->.
  { pose proof (slice_middle [] (be_digits 2 n) pad) as Hs. rewrite Hl2 in Hs. exact Hs. }
  rewrite (calcexp_literal "2" 2) by done.
  cbn [mbind result_bind]. change (0 + 2 =? 2) with true. cbn [assert mbind result_bind].
  assert (calcexp "byteslen" (<["byteslen"%string := VBytes (be_digits 2 n)]> ∅) = Ok n) as ->.
  { change (calcexp "byteslen" ?m) with (x ← handlesingle "byteslen" m; Ok (0 + x)).
    unfold handlesingle, getitem.
    change (int_of_str "byteslen") with (@None Z).
    rewrite lookup_insert_eq. cbn [mbind result_bind]. rewrite Hlit. cbn [mbind result_bind].
    rewrite int_from_bytes_be_digits by (change (256 ^ Z.of_nat 2) with 65536; lia).
    done. }
  cbn [mbind result_bind].
  assert (slice (be_digits 2 n ++ pad) (0 + 2) (0 + 2 + n) = pad) as ->.
  { pose proof (slice_middle (be_digits 2 n) pad []) as Hs.
    rewrite app_nil_r, Hl2, Hlp in Hs. exact Hs. }
  replace (0 + 2 + n =? len (be_digits 2 n ++ pad)) with true; [done|].
  symmetry. apply Z.eqb_eq. unfold len in *. rewrite length_app. lia.
Qed.

Section PongReply.
Hypothesis tag_length : forall k n d a, len (chacha20poly1305_encrypt k n d a) = len d + 16.

Lemma pong_length (m : Z) :
  0 <= m < 65536 ->
  len ([x00; x13] ++ be_digits 2 m ++ replicate (Z.to_nat m) x00) = m + 4.
Proof.
  intros Hm. unfold len. rewrite !length_app, be_digits_length, length_replicate.
  simpl. lia.
Qed.

Lemma on_ping_small (ping : gmap string pyval) (p : Peer) (b : bytes) :
  getbytes ping "num_pong_bytes" = Ok b ->
  0 <= _sn p -> _sn p + 2 < 1000 ->
  int_from_bytes b < 2304 ->
  on_ping ping p
  = (set_trace
       (trace p ++
        [EvWrite
           (chacha20poly1305_encrypt (sk p)
              (replicate 4 x00 ++ reverse (be_digits 8 (_sn p)))
              (be_digits 2 (int_from_bytes b + 4)) []
            ++ chacha20poly1305_encrypt (sk p)
                 (replicate 4 x00 ++ reverse (be_digits 8 (_sn p + 1)))
                 ([x00; x13] ++ be_digits 2 (int_from_bytes b)
                  ++ replicate (Z.to_nat (int_from_bytes b)) x00) [])])
       (set_sn (_sn p + 2) p), Ok tt).
Proof.
  intros Hb H0 Hsn Hn. set (n := int_from_bytes b) in *.
  pose proof (int_from_bytes_nonneg b) as Hn0. fold n in Hn0.
  unfold on_ping, mbind, M_bind, lift. rewrite Hb. fold n.
  rewrite gen_pong by lia.
  assert (int_of_bytes_literal (be_digits 2 n) = None) as Hlit.
  { change 2%nat with (S 1). rewrite be_digits_head.
    apply small_byte_no_literal. change (256 ^ Z.of_nat 1) with 256.
    split; [apply Z.div_pos; lia|apply Z.div_lt_upper_bound; lia]. }
  erewrite send_message_plain; [|done|by apply decode_pong; [lia|]| |done|done].
  - by rewrite pong_length by lia.
  - rewrite pong_length by lia. lia.
Qed.

Lemma on_ping_large (ping : gmap string pyval) (p : Peer) (b : bytes) :
  getbytes ping "num_pong_bytes" = Ok b ->
  65532 <= int_from_bytes b ->
  on_ping ping p = (p, Raise OverflowError).
Proof.
  intros Hb Hn. set (n := int_from_bytes b) in *.
  unfold on_ping, mbind, M_bind, lift. rewrite Hb. fold n.
  destruct (decide (n < 65536)) as [Hlt|Hge].
  - rewrite gen_pong by lia.
    assert (int_of_bytes_literal (be_digits 2 n) = None) as Hlit.
    { change 2%nat with (S 1). rewrite be_digits_head.
      change (256 ^ Z.of_nat 1) with 256.
      replace (n / 256) with 255
        by (apply Z.div_unique with (n - 255 * 256); lia).
      vm_compute. reflexivity. }
    erewrite send_message_too_long; [done|by apply decode_pong; [lia|]|].
    rewrite pong_length by lia. lia.
  - unfold gen_msg. rewrite pong_entry. cbn [mbind result_bind].
    change (int_of_str (type pong_message)) with (Some 19). cbn [mbind result_bind].
    change (to_bytes 19 2) with (Ok [x00; x13]). cbn [mbind result_bind].
    change (payload pong_message)
      with [("byteslen", PosLen "0" "2" None); ("ignored", PosLen "2" "byteslen" None)]%string.
    cbn [gen_loop has_feature feature].
    unfold encode_field. cbn [length_exp].
    rewrite !(calcexp_literal "2" 2) by done. cbn [mbind result_bind].
    change (kwargs [("byteslen", VInt n)]%string !! "byteslen"%string) with (Some (VInt n)).
    change (default (VInt 0) (Some (VInt n))) with (VInt n). cbv beta iota.
    unfold to_bytes. change (2 <? 0) with false.
    rewrite (proj2 (Z.ltb_ge n 0)) by lia. change (256 ^ 2) with 65536.
    by rewrite (proj2 (Z.leb_le 65536 n)) by lia.
Qed.

End PongReply.

(** X16. [on_ping] answers with a pong that carries as many zero bytes of
    padding as the ping asked for, sent as one framed write, for every
    request below 2304 bytes (where the two-byte count is read as
    intended).  A request of 65532 bytes or more makes [on_ping] raise
    [OverflowError] with nothing written and no nonce taken: the pong would
    not fit the two-byte frame length. *)
Theorem on_ping_replies (ping : gmap string pyval) (p : Peer) (b : bytes) :
  (forall k n d a, len (chacha20poly1305_encrypt k n d a) = len d + 16) ->
  getbytes ping "num_pong_bytes" = Ok b ->
  0 <= _sn p -> _sn p + 2 < 1000 ->
  let n := int_from_bytes b in
  let pong := [x00; x13] ++ be_digits 2 n ++ replicate (Z.to_nat n) x00 in
  (n < 2304 ->
   on_ping ping p
   = (set_trace
        (trace p ++
         [EvWrite
            (chacha20poly1305_encrypt (sk p)
               (replicate 4 x00 ++ reverse (be_digits 8 (_sn p)))
               (be_digits 2 (n + 4)) []
             ++ chacha20poly1305_encrypt (sk p)
                  (replicate 4 x00 ++ reverse (be_digits 8 (_sn p + 1))) pong [])])
        (set_sn (_sn p + 2) p), Ok tt))
  /\ (65532 <= n -> on_ping ping p = (p, Raise OverflowError)).
Proof.
  intros Haead Hb H0 Hsn n pong. split; intros Hn.
  - by apply (on_ping_small Haead ping p b).
  - by apply (on_ping_large ping p b).
Qed.

End Pong.

Lemma on_ping_replies_witness :
  let p := scenario_peer in
  let pong := [x00; x13] ++ be_digits 2 (int_from_bytes [x00; x04])
              ++ replicate (Z.to_nat (int_from_bytes [x00; x04])) x00 in
  on_ping (kwargs [("num_pong_bytes", VBytes [x00; x04])]%string) p
  = (set_trace
       (trace p ++
        [EvWrite
           (chacha20poly1305_encrypt (sk p)
              (replicate 4 x00 ++ reverse (be_digits 8 (_sn p)))
              (be_digits 2 (int_from_bytes [x00; x04] + 4)) []
            ++ chacha20poly1305_encrypt (sk p)
                 (replicate 4 x00 ++ reverse (be_digits 8 (_sn p + 1))) pong [])])
       (set_sn (_sn p + 2) p), Ok tt).
Proof.
  intros p pong.
  refine (proj1 (on_ping_replies _ _ (kwargs [("num_pong_bytes", VBytes [x00; x04])]%string)
                   p [x00; x04] _ _ _ _) _).
  - vm_compute. reflexivity.
  - vm_compute. reflexivity.
  - intros k n d a. change (chacha20poly1305_encrypt k n d a) with (scenario_encrypt k n d a).
    unfold scenario_encrypt, len. rewrite length_app, be_digits_length. lia.
  - vm_compute. reflexivity.
  - vm_compute. discriminate.
  - vm_compute. reflexivity.
  - vm_compute. reflexivity.
Defined.

(** ** Reading back what was sent *)

Section ReadMessage.
Context `{Env} `{Crypto}.
Hypothesis tag_length : forall k n d a, len (chacha20poly1305_encrypt k n d a) = len d + 16.
Hypothesis decrypt_encrypt : forall k n d a,
  chacha20poly1305_decrypt k n (chacha20poly1305_encrypt k n d a) a = Ok d.

Lemma read_loop_eq (rn_l : Z) (rk_l : bytes) (rn_m : Z) (rk_m : bytes)
    (buffer : bytes) (chunks : list bytes) :
  read_loop rn_l rk_l rn_m rk_m buffer chunks
  = let waiting :=
      match chunks with
      | [] => (buffer, [], Suspended)
      | s :: chunks' =>
          if bool_decide (s = []) then (buffer, chunks', ConnectionClosed)
          else read_loop rn_l rk_l rn_m rk_m (buffer ++ s) chunks'
      end in
    if 18 <=? len buffer then
      match aead_decrypt rk_l rn_l [] (slice_to buffer 18) with
      | Raise e => (buffer, chunks, Raised e)
      | Ok l =>
          if 18 + int_from_bytes l + 16 <=? len buffer then
            match aead_decrypt rk_m rn_m []
                    (slice buffer 18 (18 + int_from_bytes l + 16)) with
            | Raise e => (slice_from buffer (18 + int_from_bytes l + 16), chunks, Raised e)
            | Ok msg => (slice_from buffer (18 + int_from_bytes l + 16), chunks, Return msg)
            end
          else waiting
      end
    else waiting.
Proof. by destruct chunks. Qed.

Lemma aead_decrypt_encrypt (k : bytes) (c : Z) (d : bytes) :
  0 <= c < 1000 ->
  aead_decrypt k c []
    (chacha20poly1305_encrypt k (replicate 4 x00 ++ reverse (be_digits 8 c)) d [])
  = Ok d.
Proof.
  intros Hc. unfold aead_decrypt. rewrite get_nonce_bytes_ok by done.
  cbn [mbind result_bind]. apply decrypt_encrypt.
Qed.

(** The two frames that [send_message] writes for [msg] under key [k] from
    counter [c]. *)
Local Abbreviation frame k c msg :=
  (chacha20poly1305_encrypt k (replicate 4 x00 ++ reverse (be_digits 8 c))
     (be_digits 2 (len msg)) []
   ++ chacha20poly1305_encrypt k (replicate 4 x00 ++ reverse (be_digits 8 (c + 1))) msg []).

Lemma frame_length (k : bytes) (c : Z) (msg : bytes) :
  len (frame k c msg) = 18 + len msg + 16.
Proof.
  unfold len at 1. rewrite length_app.
  pose proof (tag_length k (replicate 4 x00 ++ reverse (be_digits 8 c))
                (be_digits 2 (len msg)) []) as Hhi.
  pose proof (tag_length k (replicate 4 x00 ++ reverse (be_digits 8 (c + 1))) msg []) as Hup.
  unfold len in *. rewrite be_digits_length in Hhi. lia.
Qed.

Lemma read_loop_ready (k : bytes) (c : Z) (msg extra : bytes) (chunks : list bytes) :
  0 <= c -> c + 1 < 1000 -> len msg < 65536 ->
  read_loop c k (c + 1) k (frame k c msg ++ extra) chunks = (extra, chunks, Return msg).
Proof.
  intros Hlo Hhi Hlen.
  set (lc := chacha20poly1305_encrypt k (replicate 4 x00 ++ reverse (be_digits 8 c))
               (be_digits 2 (len msg)) []).
  set (cm := chacha20poly1305_encrypt k (replicate 4 x00 ++ reverse (be_digits 8 (c + 1)))
               msg []).
  assert (len lc = 18) as Hlc.
  { unfold lc. rewrite tag_length. unfold len. rewrite be_digits_length. lia. }
  assert (len cm = len msg + 16) as Hcm by (unfold cm; apply tag_length).
  assert (0 <= len msg) by (unfold len; lia).
  assert (0 <= len extra) by (unfold len; lia).
  assert (len ((lc ++ cm) ++ extra) = 18 + len msg + 16 + len extra) as Hall.
  { unfold len in *. rewrite !length_app. lia. }
  rewrite read_loop_eq. cbv zeta.
  rewrite (proj2 (Z.leb_le 18 _)) by lia.
  rewrite <- app_assoc. rewrite slice_to_app by done.
  unfold lc at 1. rewrite aead_decrypt_encrypt by lia.
  rewrite int_from_bytes_be_digits by (change (256 ^ Z.of_nat 2) with 65536; lia).
  rewrite app_assoc.
  rewrite (proj2 (Z.leb_le _ _)) by lia.
  replace (slice ((lc ++ cm) ++ extra) 18 (18 + len msg + 16)) with cm.
  2:{ rewrite <- app_assoc.
      replace 18 with (len lc) by done. replace (len lc + len msg + 16) with (len lc + len cm) by lia.
      by rewrite slice_middle. }
  unfold cm at 1. rewrite aead_decrypt_encrypt by lia.
  rewrite slice_from_app; [done|]. unfold len in *. rewrite length_app. lia.
Qed.

Lemma read_loop_collect (k : bytes) (c : Z) (msg : bytes) (rest : list bytes) :
  0 <= c -> c + 1 < 1000 -> len msg < 65536 ->
  forall chunks buffer,
    (forall s, s ∈ chunks -> s ≠ []) ->
    buffer ++ mjoin chunks = frame k c msg ->
    read_loop c k (c + 1) k buffer (chunks ++ rest) = ([], rest, Return msg).
Proof.
  intros Hlo Hhi Hlen chunks.
  induction chunks as [|s chunks IH]; intros buffer Hne Hjoin.
  - simpl in Hjoin. rewrite app_nil_r in Hjoin. subst buffer.
    pose proof (read_loop_ready k c msg [] rest Hlo Hhi Hlen) as Hr.
    rewrite app_nil_r in Hr. exact Hr.
  - assert (s ≠ []) as Hs by (apply Hne; apply list_elem_of_here).
    assert (len buffer < 18 + len msg + 16) as Hshort.
    { rewrite <- (frame_length k c msg), <- Hjoin. unfold len. rewrite length_app.
      simpl. rewrite length_app. destruct s; [done|]. simpl. lia. }
    assert (read_loop c k (c + 1) k (buffer ++ s) (chunks ++ rest) = ([], rest, Return msg))
      as Hrec.
    { apply IH; [intros; apply Hne; by apply list_elem_of_further|].
      rewrite <- app_assoc. exact Hjoin. }
    rewrite read_loop_eq. cbn [app]. cbv zeta.
    rewrite bool_decide_eq_false_2 by done. rewrite Hrec.
    destruct (18 <=? len buffer) eqn:Hge; [|done].
    apply Z.leb_le in Hge.
    assert (slice_to buffer 18
            = chacha20poly1305_encrypt k (replicate 4 x00 ++ reverse (be_digits 8 c))
                (be_digits 2 (len msg)) []) as ->.
    { unfold slice_to, adjust_index. change (18 <? 0) with false. cbv iota.
      rewrite Z.min_l by lia. change (Z.to_nat 18) with 18%nat.
      assert (take 18 (buffer ++ mjoin (s :: chunks)) = take 18 buffer) as <-.
      { rewrite take_app_le; [done|]. unfold len in *. lia. }
      rewrite Hjoin. rewrite take_app_length'; [done|].
      pose proof (tag_length k (replicate 4 x00 ++ reverse (be_digits 8 c))
                    (be_digits 2 (len msg)) []) as Hl.
      unfold len in *. rewrite be_digits_length in Hl. lia. }
    rewrite aead_decrypt_encrypt by lia.
    assert (0 <= len msg) by (unfold len; lia).
    rewrite int_from_bytes_be_digits by (change (256 ^ Z.of_nat 2) with 65536; lia).
    by rewrite (proj2 (Z.leb_gt _ _)) by lia.
Qed.

Lemma rn_twice (p : Peer) :
  0 <= _rn p -> _rn p + 2 < 1000 ->
  (a ← rn; b ← rn; mret (a, b)) p
  = (set_rn (_rn p + 2) p, Ok ((_rn p, rk p), (_rn p + 1, rk p))).
Proof.
  intros Hlo Hup. unfold mbind, M_bind, mret, M_ret.
  rewrite rn_within_epoch by lia. rewrite rn_within_epoch by (simpl; lia).
  cbn [_rn set_rn rk]. by replace (_rn p + 1 + 1) with (_rn p + 2) by lia.
Qed.

Lemma read_message_unfold (nd : Node) :
  0 <= _rn (peer nd) -> _rn (peer nd) + 2 < 1000 ->
  read_message nd
  = (let '(buffer, chunks, o) :=
       read_loop (_rn (peer nd)) (rk (peer nd)) (_rn (peer nd) + 1) (rk (peer nd))
         (read_buffer nd) (inbox nd) in
     (with_inbox chunks
        (with_read_buffer buffer (with_peer (set_rn (_rn (peer nd) + 2) (peer nd)) nd)), o)).
Proof.
  intros Hlo Hup. unfold read_message, mbind, NodeM_bind, liftP.
  rewrite rn_within_epoch by lia. cbn [peer with_peer].
  rewrite rn_within_epoch by (simpl; lia).
  cbn [_rn set_rn rk peer with_peer read_buffer inbox].
  replace (_rn (peer nd) + 1 + 1) with (_rn (peer nd) + 2) by lia.
  by destruct (read_loop _ _ _ _ _ _) as [[? ?] ?].
Qed.

(** What [send_message] leaves on the wire is what [read_message] gives back
    to a peer in step with the sender. *)
Lemma read_message_frame (msg : bytes) (k : bytes) (nd : Node) (chunks rest : list bytes) :
  len msg < 65536 ->
  0 <= _rn (peer nd) -> _rn (peer nd) + 2 < 1000 ->
  rk (peer nd) = k ->
  (forall s, s ∈ chunks -> s ≠ []) ->
  read_buffer nd ++ mjoin chunks = frame k (_rn (peer nd)) msg ->
  inbox nd = chunks ++ rest ->
  read_message nd
  = (with_inbox rest
       (with_read_buffer [] (with_peer (set_rn (_rn (peer nd) + 2) (peer nd)) nd)),
     Return msg).
Proof.
  intros Hlen Hlo Hup Hk Hne Hjoin Hin.
  rewrite read_message_unfold by done. rewrite Hin, Hk.
  by rewrite (read_loop_collect k (_rn (peer nd)) msg rest) by (done || lia).
Qed.

Lemma read_message_buffered (msg : bytes) (k : bytes) (nd : Node) (extra : bytes) :
  len msg < 65536 ->
  0 <= _rn (peer nd) -> _rn (peer nd) + 2 < 1000 ->
  rk (peer nd) = k ->
  read_buffer nd = frame k (_rn (peer nd)) msg ++ extra ->
  read_message nd
  = (with_inbox (inbox nd)
       (with_read_buffer extra (with_peer (set_rn (_rn (peer nd) + 2) (peer nd)) nd)),
     Return msg).
Proof.
  intros Hlen Hlo Hup Hk Hbuf.
  rewrite read_message_unfold by done. rewrite Hbuf, Hk.
  by rewrite read_loop_ready by (done || lia).
Qed.

End ReadMessage.

(** X17. With an AEAD whose decryption undoes its encryption, what
    [send_message] writes is what [read_message] returns to a peer whose
    receiving key and counter equal the sender's sending key and counter:
    however the written bytes are cut into non-empty chunks by the reader,
    the message comes back, the buffer ends empty, later chunks stay unread,
    and the receive counter has advanced by two like the sender's.  When
    the buffer already holds the frame followed by further bytes, the
    message comes back without any read and those bytes stay buffered. *)
Theorem read_message_round_trip `{Env} `{Crypto} (msg : bytes) (p : Peer) (nd : Node)
    (decoded : string * gmap string pyval) (written : bytes) :
  (forall k n d a, len (chacha20poly1305_encrypt k n d a) = len d + 16) ->
  (forall k n d a,
     chacha20poly1305_decrypt k n (chacha20poly1305_encrypt k n d a) a = Ok d) ->
  decode_msg message_types msg = Ok decoded ->
  len msg < 65536 ->
  0 <= _sn p -> _sn p + 2 < 1000 ->
  rk (peer nd) = sk p -> _rn (peer nd) = _sn p ->
  trace (send_message msg p).1 = trace p ++ [EvWrite written] ->
  (forall chunks rest,
     (forall s, s ∈ chunks -> s ≠ []) ->
     read_buffer nd ++ mjoin chunks = written ->
     inbox nd = chunks ++ rest ->
     read_message nd
     = (with_inbox rest
          (with_read_buffer [] (with_peer (set_rn (_rn (peer nd) + 2) (peer nd)) nd)),
        Return msg))
  /\ (forall extra,
        read_buffer nd = written ++ extra ->
        read_message nd
        = (with_inbox (inbox nd)
             (with_read_buffer extra
                (with_peer (set_rn (_rn (peer nd) + 2) (peer nd)) nd)),
           Return msg))
  /\ _sn (send_message msg p).1 = _rn (peer nd) + 2.
Proof.
  intros Htag Hopen Hdec Hlen Hlo Hup Hk Hc Hw.
  rewrite (send_message_plain msg p decoded) in Hw by done. cbn [fst trace set_trace] in Hw.
  apply app_inv_head in Hw. injection Hw as <-.
  split_and!.
  - intros chunks rest Hne Hjoin Hin.
    apply (read_message_frame Htag Hopen msg (sk p) nd chunks rest); try done; try lia.
    by rewrite Hc.
  - intros extra Hbuf.
    apply (read_message_buffered Htag Hopen msg (sk p) nd extra); try done; try lia.
    by rewrite Hc.
  - rewrite (send_message_plain msg p decoded) by done. simpl. lia.
Qed.

Lemma scenario_tag_length (k n d a : bytes) : len (scenario_encrypt k n d a) = len d + 16.
Proof. unfold scenario_encrypt, len. rewrite length_app, be_digits_length. lia. Qed.

Lemma scenario_decrypt_encrypt (k n d a : bytes) :
  scenario_decrypt k n (scenario_encrypt k n d a) a = Ok d.
Proof.
  unfold scenario_decrypt, scenario_encrypt.
  set (tag := be_digits 16 _).
  assert (length tag = 16%nat) as Ht by apply be_digits_length.
  replace (length (d ++ tag) - 16)%nat with (length d) by (rewrite length_app; lia).
  rewrite drop_app_length, take_app_length.
  rewrite bool_decide_eq_true_2 by done.
  replace (16 <=? len (d ++ tag)) with true; [done|].
  symmetry. apply Z.leb_le. unfold len. rewrite length_app. lia.
Qed.

Lemma read_message_round_trip_witness :
  let msg := [x00; x10; x00; x00; x00; x01; x08] in
  let p := scenario_peer in
  let lc := scenario_encrypt (sk p) (replicate 4 x00 ++ reverse (be_digits 8 0))
              (be_digits 2 7) [] in
  let cm := scenario_encrypt (sk p) (replicate 4 x00 ++ reverse (be_digits 8 1)) msg [] in
  let nd := with_inbox [lc; cm; [x01]] (with_peer (set_rk (sk p) p) scenario_node) in
  read_message nd
  = (with_inbox [[x01]]
       (with_read_buffer [] (with_peer (set_rn (_rn (peer nd) + 2) (peer nd)) nd)),
     Return msg).
Proof.
  intros msg p lc cm nd.
  refine (proj1 (read_message_round_trip msg p nd
                   ("init"%string,
                    kwargs [("gflen", VBytes [x00; x00]); ("globalfeatures", VBytes []);
                            ("lflen", VBytes [x00; x01]);
                            ("localfeatures", VBytes [x08])]%string)
                   (lc ++ cm) _ _ _ _ _ _ _ _ _) [lc; cm] [[x01]] _ _ _).
  - apply scenario_tag_length.
  - apply scenario_decrypt_encrypt.
  - vm_compute. reflexivity.
  - vm_compute. reflexivity.
  - vm_compute. discriminate.
  - vm_compute. reflexivity.
  - reflexivity.
  - reflexivity.
  - vm_compute. reflexivity.
  - intros s Hs. apply elem_of_cons in Hs as [->|Hs]; [discriminate|].
    apply elem_of_cons in Hs as [->|Hs]; [discriminate|].
    by apply elem_of_nil in Hs.
  - vm_compute. reflexivity.
  - reflexivity.
Defined.

Section ReadEdges.
Context `{Env} `{Crypto}.

(** X18. [read_message] takes its two nonces before it looks at any byte.
    With fewer than 18 bytes buffered it then waits for input: an empty read
    raises [LightningPeerConnectionClosed], and when the length frame does
    not decrypt the exception of the cipher comes out with the buffer left
    as it was; in each case the receive counter has already moved by two. *)
Theorem read_message_without_frame (nd : Node) :
  0 <= _rn (peer nd) -> _rn (peer nd) + 2 < 1000 ->
  let moved := with_peer (set_rn (_rn (peer nd) + 2) (peer nd)) nd in
  (len (read_buffer nd) < 18 -> inbox nd = [] ->
   read_message nd = (with_inbox [] (with_read_buffer (read_buffer nd) moved), Suspended))
  /\ (forall rest, len (read_buffer nd) < 18 -> inbox nd = [] :: rest ->
        read_message nd
        = (with_inbox rest (with_read_buffer (read_buffer nd) moved), ConnectionClosed))
  /\ (forall e, 18 <= len (read_buffer nd) ->
        aead_decrypt (rk (peer nd)) (_rn (peer nd)) [] (slice_to (read_buffer nd) 18)
        = Raise e ->
        read_message nd
        = (with_inbox (inbox nd) (with_read_buffer (read_buffer nd) moved), Raised e)).
Proof.
  intros Hlo Hup moved. split_and!.
  - intros Hshort Hin. rewrite read_message_unfold by done.
    rewrite read_loop_eq, Hin. cbv zeta.
    by rewrite (proj2 (Z.leb_gt _ _)) by lia.
  - intros rest Hshort Hin. rewrite read_message_unfold by done.
    rewrite read_loop_eq, Hin. cbv zeta.
    by rewrite (proj2 (Z.leb_gt _ _)) by lia.
  - intros e Hlong Hdec. rewrite read_message_unfold by done.
    rewrite read_loop_eq. cbv zeta.
    rewrite (proj2 (Z.leb_le _ _)) by lia. by rewrite Hdec.
Qed.

End ReadEdges.

Lemma read_message_without_frame_witness :
  let nd := with_inbox [[]] scenario_node in
  read_message nd
  = (with_inbox []
       (with_read_buffer (read_buffer nd)
          (with_peer (set_rn (_rn (peer nd) + 2) (peer nd)) nd)),
     ConnectionClosed).
Proof.
  intros nd.
  refine (proj1 (proj2 (read_message_without_frame nd _ _)) [] _ _);
    vm_compute; first [reflexivity | discriminate].
Defined.

(** ** The handshake *)

Section HandshakeFacts.
Context `{Env} `{Crypto}.

Local Ltac handshake_stops :=
  simplify_eq; cbn [peer with_peer sk rk s_ck r_ck _sn _rn trace set_trace];
  split_and!; [done|right; eauto|done].

Lemma act1_initiator_message_inv (hs hs' : HandshakeState) (my_privkey msg : bytes) :
  act1_initiator_message hs my_privkey = Ok (hs', msg) ->
  exists epub c,
    privkey_to_pubkey my_privkey = Ok epub
    /\ msg = [x00] ++ epub ++ c
    /\ len msg = 50.
Proof.
  unfold act1_initiator_message, create_ephemeral_key. intros Hact.
  destruct (privkey_to_pubkey my_privkey) as [epub|]; cbn [mbind result_bind] in Hact; [|done].
  destruct (get_ecdh _ _) as [ss|]; cbn [mbind result_bind] in Hact; [|done].
  destruct (get_bolt8_hkdf _ _) as [[ck2 temp_k1]|]; cbn [mbind result_bind] in Hact; [|done].
  destruct (aead_encrypt _ _ _ _) as [c|]; cbn [mbind result_bind] in Hact; [|done].
  destruct (len _ =? 50) eqn:Hlen; cbn [assert mbind result_bind] in Hact; [|done].
  simplify_eq. exists epub, c. split_and!; [done|done|by apply Z.eqb_eq].
Qed.

(** X19. What [handshake] leaves behind.  Whenever act 1 is written it is
    50 bytes: the version byte 0, then the public key of the node's own
    static private key, sent in clear as the ephemeral key, then the tag.
    When the handshake returns, the reply read was 50 bytes long and began
    with byte 0, exactly two chunks were written (act 1 and act 3), both
    counters are 0, both chaining keys are the same key [ck], and the sending
    and receiving keys are the two halves of [get_bolt8_hkdf(ck, b'')].
    When it ends in any other way, keys, chaining keys and counters are
    untouched and at most act 1 was written; it stays suspended only when
    there is nothing to read. *)
Theorem handshake_outcomes (nd : Node) :
  let nd' := (handshake nd).1 in
  let p := peer nd in
  let p' := peer nd' in
  match (handshake nd).2 with
  | Return _ =>
      exists rspns epub c act3 ck,
        inbox nd = rspns :: inbox nd'
        /\ len rspns = 50 /\ take 1 rspns = [x00]
        /\ privkey_to_pubkey (node_privkey nd) = Ok epub
        /\ len ([x00] ++ epub ++ c) = 50
        /\ trace p' = trace p ++ [EvWrite ([x00] ++ epub ++ c); EvWrite act3]
        /\ take 1 act3 = [x00]
        /\ _sn p' = 0 /\ _rn p' = 0
        /\ s_ck p' = ck /\ r_ck p' = ck
        /\ get_bolt8_hkdf ck [] = Ok (sk p', rk p')
  | o =>
      (sk p', rk p', s_ck p', r_ck p', _sn p', _rn p')
      = (sk p, rk p, s_ck p, r_ck p, _sn p, _rn p)
      /\ (trace p' = trace p
          \/ exists epub c,
               privkey_to_pubkey (node_privkey nd) = Ok epub
               /\ len ([x00] ++ epub ++ c) = 50
               /\ trace p' = trace p ++ [EvWrite ([x00] ++ epub ++ c)])
      /\ (o = Suspended -> inbox nd = [])
  end.
Proof.
  cbv zeta. destruct (handshake nd) as [nd' o] eqn:Hh. cbn [fst snd].
  unfold handshake, mbind, NodeM_bind, getsN, liftR in Hh.
  destruct (act1_initiator_message _ _) as [[hs1 msg1]|] eqn:Hact.
  2:{ simplify_eq. split_and!; [done|by left|done]. }
  apply act1_initiator_message_inv in Hact as (epub & c & Hpub & -> & Hlen1).
  unfold liftP at 1 in Hh. cbn [writer_write emit modify peer with_peer fst snd] in Hh.
  unfold reader_read in Hh. cbn [inbox with_peer] in Hh.
  set (nd1 := with_peer (set_trace (trace (peer nd) ++ [EvWrite ([x00] ++ epub ++ c)])
                           (peer nd)) nd) in *.
  destruct (inbox nd) as [|rspns rest] eqn:Hin.
  { handshake_stops. }
  destruct (len rspns =? 50) eqn:Hlen; cbn [assert] in Hh;
    [|handshake_stops].
  apply Z.eqb_eq in Hlen.
  destruct (getitem_list rspns 0) as [hver|e] eqn:Hver;
    [|handshake_stops].
  destruct (bool_decide ([hver] = handshake_version)) eqn:Hv; cbn [assert] in Hh;
    [|handshake_stops].
  apply bool_decide_eq_true_1 in Hv.
  destruct (create_ephemeral_key _) as [[myepriv myepub]|e];
    [|handshake_stops].
  destruct (get_ecdh myepriv _) as [ss|e];
    [|handshake_stops].
  destruct (get_bolt8_hkdf _ ss) as [[ck temp_k2]|e];
    [|handshake_stops].
  destruct (aead_decrypt _ _ _ _) as [pt|e];
    [|handshake_stops].
  rewrite Hpub in Hh.
  destruct (aead_encrypt temp_k2 1 _ _) as [c3|e];
    [|handshake_stops].
  destruct (get_ecdh (slice_to _ 32) _) as [ss3|e];
    [|handshake_stops].
  destruct (get_bolt8_hkdf _ ss3) as [[ck3 temp_k3]|e];
    [|handshake_stops].
  destruct (aead_encrypt temp_k3 0 _ _) as [t|e];
    [|handshake_stops].
  destruct (get_bolt8_hkdf _ []) as [[sk' rk']|e] eqn:Hkeys;
    [|handshake_stops].
  unfold liftP in Hh. cbn in Hh. simplify_eq. cbn.
  exists rspns, epub, c, (handshake_version ++ c3 ++ t), ck3.
  split_and!; try done.
  - unfold getitem_list in Hver. cbn in Hver.
    destruct rspns as [|r0 rspns']; [done|].
    change (Z.to_nat 0) with 0%nat in Hver. cbn in Hver.
    unfold handshake_version in Hv. by simplify_eq.
  - by rewrite <- app_assoc.
Qed.

End HandshakeFacts.

(** ** Dispatch *)

Section Dispatching.
Context `{Env} `{Crypto}.

Lemma process_message_handled (message : bytes) (nd : Node) (name : string)
    (fields : gmap string pyval) (f : gmap string pyval -> NodeM unit) :
  decode_msg message_types message = Ok (name, fields) ->
  handler_method name = Some f ->
  process_message message nd
  = f (if bool_decide (name = "node_announcement"%string)
       then <["raw"%string := VBytes message]> fields else fields) nd.
Proof.
  intros Hdec Hf. unfold process_message, mbind, NodeM_bind, liftR.
  rewrite Hdec. cbn. by rewrite Hf.
Qed.

(** X20. [process_message] raises what [decode_msg] raises and leaves the
    node untouched; it ignores, without any effect, a message whose name has
    no [on_] method, such as [pong]; otherwise it calls the method with the
    decoded payload, to which, for [node_announcement] only, the whole
    message is added under [raw].  A message named [network_update] would
    raise [TypeError], since [on_network_update] takes two arguments. *)
Theorem process_message_outcomes (message : bytes) (nd : Node) :
  (forall e, decode_msg message_types message = Raise e ->
     process_message message nd = (nd, Raised e))
  /\ (forall name fields,
        decode_msg message_types message = Ok (name, fields) ->
        handler_method name = None ->
        process_message message nd = (nd, Return tt))
  /\ handler_method "pong" = None
  /\ (forall fields,
        decode_msg message_types message = Ok ("node_announcement"%string, fields) ->
        process_message message nd
        = (_ ← liftP (on_node_announcement (<["raw"%string := VBytes message]> fields));
           mret tt) nd)
  /\ (forall name fields f,
        decode_msg message_types message = Ok (name, fields) ->
        name ≠ "node_announcement"%string ->
        handler_method name = Some f ->
        process_message message nd = f fields nd)
  /\ (forall fields,
        decode_msg message_types message = Ok ("network_update"%string, fields) ->
        process_message message nd = (nd, Raised TypeError)).
Proof.
  split_and!.
  - intros e Hdec. unfold process_message, mbind, NodeM_bind, liftR. by rewrite Hdec.
  - intros name fields Hdec Hf. unfold process_message, mbind, NodeM_bind, liftR.
    rewrite Hdec. cbn. by rewrite Hf.
  - reflexivity.
  - intros fields Hdec.
    by rewrite (process_message_handled _ _ _ _ _ Hdec eq_refl).
  - intros name fields f Hdec Hne Hf.
    rewrite (process_message_handled _ _ _ _ _ Hdec Hf).
    by rewrite bool_decide_eq_false_2.
  - intros fields Hdec.
    by rewrite (process_message_handled _ _ _ _ _ Hdec eq_refl).
Qed.

Section PingPass.
Hypothesis tag_length : forall k n d a, len (chacha20poly1305_encrypt k n d a) = len d + 16.
Hypothesis decrypt_encrypt : forall k n d a,
  chacha20poly1305_decrypt k n (chacha20poly1305_encrypt k n d a) a = Ok d.
Hypothesis pong_entry : ordered_getitem structured "pong" = Ok pong_message.
Hypothesis pong_handler : message_types !! [x00; x13] = Some ("pong"%string, pong_message).

Lemma main_loop_pass_ping (nd : Node) (ping : bytes) (fields : gmap string pyval)
    (b : bytes) (chunks rest : list bytes) :
  PrimFloat.ltb 120 (PrimFloat.sub (clock (peer nd)) (ping_time (peer nd))) = false ->
  decode_msg message_types ping = Ok ("ping"%string, fields) ->
  len ping < 65536 ->
  getbytes fields "num_pong_bytes" = Ok b ->
  int_from_bytes b < 2304 ->
  0 <= _rn (peer nd) -> _rn (peer nd) + 2 < 1000 ->
  0 <= _sn (peer nd) -> _sn (peer nd) + 2 < 1000 ->
  (forall s, s ∈ chunks -> s ≠ []) ->
  read_buffer nd ++ mjoin chunks
  = chacha20poly1305_encrypt (rk (peer nd))
      (replicate 4 x00 ++ reverse (be_digits 8 (_rn (peer nd))))
      (be_digits 2 (len ping)) []
    ++ chacha20poly1305_encrypt (rk (peer nd))
         (replicate 4 x00 ++ reverse (be_digits 8 (_rn (peer nd) + 1))) ping [] ->
  inbox nd = chunks ++ rest ->
  let p := peer nd in
  let n := int_from_bytes b in
  main_loop_pass nd
  = (with_peer
       (set_trace
          (trace p ++
           [EvWrite
              (chacha20poly1305_encrypt (sk p)
                 (replicate 4 x00 ++ reverse (be_digits 8 (_sn p)))
                 (be_digits 2 (n + 4)) []
               ++ chacha20poly1305_encrypt (sk p)
                    (replicate 4 x00 ++ reverse (be_digits 8 (_sn p + 1)))
                    ([x00; x13] ++ be_digits 2 n ++ replicate (Z.to_nat n) x00) [])])
          (set_sn (_sn p + 2) (set_rn (_rn p + 2) p)))
       (with_inbox rest (with_read_buffer [] nd)),
     Return tt).
Proof.
  intros Hdue Hdec Hlen Hb Hn Hr0 Hr2 Hs0 Hs2 Hne Hframe Hin p n.
  unfold main_loop_pass, mbind at 1, NodeM_bind at 1.
  assert (ping_if_required (peer nd) = (peer nd, Ok tt)) as Hping.
  { unfold ping_if_required, mbind, M_bind, time_time, gets. by rewrite Hdue. }
  unfold liftP at 1. rewrite Hping.
  assert (with_peer (peer nd) nd = nd) as -> by (by destruct nd).
  unfold mbind, NodeM_bind.
  rewrite (read_message_frame tag_length decrypt_encrypt ping (rk (peer nd)) nd chunks rest)
    by done.
  rewrite (process_message_handled _ _ _ _ _ Hdec eq_refl).
  rewrite bool_decide_eq_false_2 by done.
  unfold liftP. cbn [peer with_peer with_read_buffer with_inbox].
  rewrite (on_ping_small pong_entry pong_handler tag_length fields _ b Hb)
    by (cbn [_sn set_rn]; lia).
  by destruct nd.
Qed.

End PingPass.
End Dispatching.

(** X21. One pass of the main loop that finds the frame of a ping in its
    input answers it: with no ping of its own due, it reads the frame
    (however the reader cuts it), takes two receive nonces and two send
    nonces, and writes exactly one chunk, the frame of a pong with the
    requested number of zero bytes; buffer and later input are left as the
    reader found them.  Stated for requests below 2304 bytes, an AEAD whose
    decryption undoes encryption, and the schema's [pong] entry. *)
Theorem main_loop_pass_answers_ping `{Env} `{Crypto} (nd : Node) (ping : bytes)
    (fields : gmap string pyval) (b : bytes) (chunks rest : list bytes) :
  (forall k n d a, len (chacha20poly1305_encrypt k n d a) = len d + 16) ->
  (forall k n d a,
     chacha20poly1305_decrypt k n (chacha20poly1305_encrypt k n d a) a = Ok d) ->
  ordered_getitem structured "pong" = Ok pong_message ->
  message_types !! [x00; x13] = Some ("pong"%string, pong_message) ->
  PrimFloat.ltb 120 (PrimFloat.sub (clock (peer nd)) (ping_time (peer nd))) = false ->
  decode_msg message_types ping = Ok ("ping"%string, fields) ->
  len ping < 65536 ->
  getbytes fields "num_pong_bytes" = Ok b ->
  int_from_bytes b < 2304 ->
  0 <= _rn (peer nd) -> _rn (peer nd) + 2 < 1000 ->
  0 <= _sn (peer nd) -> _sn (peer nd) + 2 < 1000 ->
  (forall s, s ∈ chunks -> s ≠ []) ->
  read_buffer nd ++ mjoin chunks
  = chacha20poly1305_encrypt (rk (peer nd))
      (replicate 4 x00 ++ reverse (be_digits 8 (_rn (peer nd))))
      (be_digits 2 (len ping)) []
    ++ chacha20poly1305_encrypt (rk (peer nd))
         (replicate 4 x00 ++ reverse (be_digits 8 (_rn (peer nd) + 1))) ping [] ->
  inbox nd = chunks ++ rest ->
  let p := peer nd in
  let n := int_from_bytes b in
  main_loop_pass nd
  = (with_peer
       (set_trace
          (trace p ++
           [EvWrite
              (chacha20poly1305_encrypt (sk p)
                 (replicate 4 x00 ++ reverse (be_digits 8 (_sn p)))
                 (be_digits 2 (n + 4)) []
               ++ chacha20poly1305_encrypt (sk p)
                    (replicate 4 x00 ++ reverse (be_digits 8 (_sn p + 1)))
                    ([x00; x13] ++ be_digits 2 n ++ replicate (Z.to_nat n) x00) [])])
          (set_sn (_sn p + 2) (set_rn (_rn p + 2) p)))
       (with_inbox rest (with_read_buffer [] nd)),
     Return tt).
Proof. intros. by eapply main_loop_pass_ping. Qed.

Lemma main_loop_pass_answers_ping_witness :
  let ping := [x00; x12; x00; x04; x00; x04; x00; x00; x00; x00] in
  let p := scenario_peer in
  let lc := scenario_encrypt (rk p) (replicate 4 x00 ++ reverse (be_digits 8 0))
              (be_digits 2 10) [] in
  let cm := scenario_encrypt (rk p) (replicate 4 x00 ++ reverse (be_digits 8 1)) ping [] in
  let nd := with_inbox [lc; cm] scenario_node in
  let n := int_from_bytes [x00; x04] in
  main_loop_pass nd
  = (with_peer
       (set_trace
          (trace p ++
           [EvWrite
              (chacha20poly1305_encrypt (sk p)
                 (replicate 4 x00 ++ reverse (be_digits 8 (_sn p)))
                 (be_digits 2 (n + 4)) []
               ++ chacha20poly1305_encrypt (sk p)
                    (replicate 4 x00 ++ reverse (be_digits 8 (_sn p + 1)))
                    ([x00; x13] ++ be_digits 2 n ++ replicate (Z.to_nat n) x00) [])])
          (set_sn (_sn p + 2) (set_rn (_rn p + 2) p)))
       (with_inbox [] (with_read_buffer [] nd)),
     Return tt).
Proof.
  intros ping p lc cm nd n.
  refine (main_loop_pass_answers_ping nd ping
            (kwargs [("num_pong_bytes", VBytes [x00; x04]); ("byteslen", VBytes [x00; x04]);
                     ("ignored", VBytes [x00; x00; x00; x00])]%string)
            [x00; x04] [lc; cm] [] _ _ _ _ _ _ _ _ _ _ _ _ _ _ _ _).
  - apply scenario_tag_length.
  - apply scenario_decrypt_encrypt.
  - vm_compute. reflexivity.
  - vm_compute. reflexivity.
  - vm_compute. reflexivity.
  - vm_compute. reflexivity.
  - vm_compute. reflexivity.
  - vm_compute. reflexivity.
  - vm_compute. reflexivity.
  - vm_compute. discriminate.
  - vm_compute. reflexivity.
  - vm_compute. discriminate.
  - vm_compute. reflexivity.
  - intros s Hs. apply elem_of_cons in Hs as [->|Hs]; [discriminate|].
    apply elem_of_cons in Hs as [->|Hs]; [discriminate|].
    by apply elem_of_nil in Hs.
  - vm_compute. reflexivity.
  - reflexivity.
Defined.

(** ** Queues *)

Section Queues.
Context `{Env} `{Crypto}.

(** X22. How the handlers that feed the queues treat an identifier nobody
    waits for.  [on_accept_channel] and [on_funding_signed] raise and change
    nothing when no queue exists for the identifier, and append the payload
    behind what is already queued when one does.  [on_revoke_and_ack] and
    [on_update_fulfill_htlc] never refuse: for any payload that has a
    [channel_id] they append to the queue of that identifier, creating it
    when it is missing. *)
Theorem queue_handlers_unknown_ids (fields : gmap string pyval) (nd : Node) (cid : bytes) :
  (getbytes fields "temporary_channel_id" = Ok cid ->
   match channel_accepted nd !! cid with
   | None => on_accept_channel fields nd = (nd, Raised (Exception "Got unknown accept_channel"))
   | Some items =>
       on_accept_channel fields nd
       = (with_channel_accepted (<[cid := items ++ [fields]]> (channel_accepted nd)) nd,
          Return tt)
   end)
  /\ (getbytes fields "channel_id" = Ok cid ->
      match funding_signed nd !! cid with
      | None => on_funding_signed fields nd
                = (nd, Raised (Exception "Got unknown funding_signed"))
      | Some items =>
          on_funding_signed fields nd
          = (with_funding_signed (<[cid := items ++ [fields]]> (funding_signed nd)) nd,
             Return tt)
      end)
  /\ (getbytes fields "channel_id" = Ok cid ->
      on_revoke_and_ack fields nd
      = (with_revoke_and_ack
           (<[cid := default [] (revoke_and_ack nd !! cid) ++ [fields]]> (revoke_and_ack nd))
           nd, Return tt)
      /\ on_update_fulfill_htlc fields nd
         = (with_update_fulfill_htlc
              (<[cid := default [] (update_fulfill_htlc nd !! cid) ++ [fields]]>
                 (update_fulfill_htlc nd))
              nd, Return tt)).
Proof.
  split_and!.
  - intros Hc. unfold on_accept_channel, mbind, NodeM_bind, liftR, getsN.
    rewrite Hc. cbn. unfold put_nowait.
    destruct (channel_accepted nd !! cid) as [items|] eqn:Hq.
    + by rewrite bool_decide_eq_false_2.
    + by rewrite bool_decide_eq_true_2.
  - intros Hc. unfold on_funding_signed, mbind, NodeM_bind, liftR, getsN.
    rewrite Hc. cbn. unfold put_nowait.
    destruct (funding_signed nd !! cid) as [items|] eqn:Hq.
    + by rewrite bool_decide_eq_false_2.
    + by rewrite bool_decide_eq_true_2.
  - intros Hc. split.
    + unfold on_revoke_and_ack, mbind, NodeM_bind, liftR, getsN. by rewrite Hc.
    + unfold on_update_fulfill_htlc, mbind, NodeM_bind, liftR, getsN. by rewrite Hc.
Qed.

(** X23. [on_commitment_signed] needs a known channel: for an unknown one it
    raises [KeyError] and changes nothing.  For a known one it replaces the
    channel's current commitment signature by the payload's, leaves every
    other field of the channel alone, hands the channel to [save_channel],
    and queues the payload. *)
Theorem on_commitment_signed_outcomes (fields : gmap string pyval) (nd : Node) (cid : bytes) :
  getbytes fields "channel_id" = Ok cid ->
  (channels (peer nd) !! cid = None ->
   on_commitment_signed fields nd = (nd, Raised KeyError))
  /\ (forall chan sig,
        channels (peer nd) !! cid = Some chan ->
        getbytes fields "signature" = Ok sig ->
        let chan' := set_local_state chan
                       (replace_current_commitment_signature (local_state chan) sig) in
        on_commitment_signed fields nd
        = (with_commitment_signed
             (<[cid := default [] (commitment_signed nd !! cid) ++ [fields]]>
                (commitment_signed nd))
             (with_outside (outside nd ++ [SaveChannel chan'])
                (with_peer (set_channels (<[cid := chan']> (channels (peer nd))) (peer nd))
                   nd)),
           Return tt)
        /\ current_commitment_signature (local_state chan') = Some sig
        /\ remote_state chan' = remote_state chan
        /\ local_ctn (local_state chan') = local_ctn (local_state chan)
        /\ local_amount_msat (local_state chan') = local_amount_msat (local_state chan)
        /\ funding_locked_received (local_state chan')
           = funding_locked_received (local_state chan)).
Proof.
  intros Hc. split.
  - intros Hnone.
    unfold on_commitment_signed, mbind, NodeM_bind, liftR, channels_getitem, liftP, getitem.
    rewrite Hc. cbn. rewrite Hnone. by destruct nd.
  - intros chan sig Hchan Hsig chan'. split; [|done].
    unfold on_commitment_signed, mbind, NodeM_bind, liftR, channels_getitem, liftP, getitem.
    rewrite Hc. cbn. rewrite Hchan, Hsig. cbn.
    by destruct nd.
Qed.

End Queues.

Lemma queue_handlers_unknown_ids_witness :
  on_accept_channel scenario_accept_channel scenario_node
  = (scenario_node, Raised (Exception "Got unknown accept_channel")).
Proof.
  exact (proj1 (queue_handlers_unknown_ids scenario_accept_channel scenario_node
                  (replicate 32 x07)) eq_refl).
Defined.

Lemma on_commitment_signed_outcomes_witness :
  on_commitment_signed scenario_funding_signed scenario_node
  = (scenario_node, Raised KeyError).
Proof.
  exact (proj1 (on_commitment_signed_outcomes scenario_funding_signed scenario_node
                  (replicate 32 x07) eq_refl) eq_refl).
Defined.

(** ** Opening a channel for traffic *)

Lemma bytes_lt_irrefl (a : bytes) : bytes_lt a a = false.
Proof. induction a as [|x a IH]; [done|]. simpl. by rewrite Z.ltb_irrefl. Qed.

Lemma bytes_lt_asym (a : bytes) : forall b, bytes_lt a b = true -> bytes_lt b a = false.
Proof.
  induction a as [|x a IH]; intros [|y b]; simpl; try done.
  destruct (byte_to_Z x <? byte_to_Z y) eqn:Hxy, (byte_to_Z y <? byte_to_Z x) eqn:Hyx;
    try done; [lia|]. apply IH.
Qed.

Lemma sorted_pair_sorted (a b : bytes) :
  bytes_lt (sorted_pair a b).2 (sorted_pair a b).1 = false
  /\ (sorted_pair a b = (a, b) \/ sorted_pair a b = (b, a)).
Proof.
  unfold sorted_pair. destruct (bytes_lt b a) eqn:Hba; simpl.
  - split; [by apply bytes_lt_asym|by right].
  - split; [done|by left].
Qed.

Section Opening.
Context `{Env} `{Crypto}.

Lemma with_peer_same (nd : Node) : with_peer (peer nd) nd = nd.
Proof. by destruct nd. Qed.

Lemma mark_open_open (chan : Channel) (nd : Node) :
  channel_state (peer nd) !! channel_id chan = Some "OPEN"%string ->
  mark_open chan nd = (nd, Return tt).
Proof.
  intros Hst. unfold mark_open, mbind, NodeM_bind, liftP, getitem.
  rewrite Hst. cbn. by rewrite with_peer_same.
Qed.

Lemma mark_open_fresh (chan : Channel) (nd : Node) (st : string) :
  channel_state (peer nd) !! channel_id chan = Some st -> st ≠ "OPEN"%string ->
  funding_locked_received (local_state chan) = true ->
  mark_open chan nd = (opened chan nd, Return tt).
Proof.
  intros Hst Hne Hflr. unfold mark_open, mbind, NodeM_bind, liftP, getitem.
  rewrite Hst. cbn [fst snd]. rewrite with_peer_same.
  rewrite bool_decide_eq_false_2 by done. rewrite Hflr.
  unfold opened, callN, modifyN. destruct nd. cbn. by rewrite <- !app_assoc.
Qed.


Lemma sn_keeps_channels (p : Peer) :
  channels (sn p).1 = channels p /\ channel_state (sn p).1 = channel_state p.
Proof. unfold sn. by repeat case_match. Qed.

Lemma send_message_keeps_channels (msg : bytes) (p : Peer) :
  channels (send_message msg p).1 = channels p
  /\ channel_state (send_message msg p).1 = channel_state p.
Proof.
  unfold send_message, mbind, M_bind, lift, gets, writer_write, emit, modify.
  pose proof (sn_keeps_channels p) as [Hc1 Hs1].
  destruct (decode_msg _ _); [|done].
  destruct (to_bytes _ 2); [|done].
  destruct (sn p) as [p1 [n1|]]; simpl in Hc1, Hs1; [|done].
  pose proof (sn_keeps_channels p1) as [Hc2 Hs2].
  destruct (aead_encrypt _ _ _ _); [|done].
  destruct (sn p1) as [p2 [n2|]]; simpl in Hc2, Hs2; [|simpl; split; congruence].
  destruct (aead_encrypt _ _ _ _); [|simpl; split; congruence].
  destruct (assert _); [|simpl; split; congruence].
  destruct (assert _); [|simpl; split; congruence].
  simpl. split; congruence.
Qed.

(** X24. [mark_open] needs the channel's state to be recorded ([KeyError]
    otherwise), does nothing to a channel that is already [OPEN], and
    refuses, by its assertion and without any effect, a channel that has not
    received [funding_locked].  Otherwise it sets the state to [OPEN], fires
    the [channel] callback once, and tells the channel database one
    announcement, with the two node ids in ascending order, and two updates
    with flags 1 and 0; a second call then changes nothing. *)
Theorem mark_open_outcomes (chan : Channel) (nd : Node) :
  let cid := channel_id chan in
  (channel_state (peer nd) !! cid = None -> mark_open chan nd = (nd, Raised KeyError))
  /\ (channel_state (peer nd) !! cid = Some "OPEN"%string ->
      mark_open chan nd = (nd, Return tt))
  /\ (forall st, channel_state (peer nd) !! cid = Some st -> st ≠ "OPEN"%string ->
        (funding_locked_received (local_state chan) = false ->
         mark_open chan nd = (nd, Raised AssertionError))
        /\ (funding_locked_received (local_state chan) = true ->
            mark_open chan nd = (opened chan nd, Return tt)
            /\ mark_open chan (opened chan nd) = (opened chan nd, Return tt)
            /\ channel_state (peer (opened chan nd)) !! cid = Some "OPEN"%string
            /\ trace (peer (opened chan nd))
               = trace (peer nd) ++ [EvCallback "channel" cid]
            /\ exists announcement update1 update0 id1 id2,
                 outside (opened chan nd)
                 = outside nd ++ [DbChannelAnnouncement announcement;
                                  DbChannelUpdate update1; DbChannelUpdate update0]
                 /\ announcement !! "node_id_1"%string = Some (VBytes id1)
                 /\ announcement !! "node_id_2"%string = Some (VBytes id2)
                 /\ bytes_lt id2 id1 = false
                 /\ ((id1, id2) = (peer_pubkey (peer nd), lnworker_pubkey nd)
                     \/ (id1, id2) = (lnworker_pubkey nd, peer_pubkey (peer nd)))
                 /\ update1 !! "flags"%string = Some (VBytes [x01])
                 /\ update0 !! "flags"%string = Some (VBytes [x00]))).
Proof.
  intros cid. subst cid. split_and!.
  - intros Hst. unfold mark_open, mbind, NodeM_bind, liftP, getitem.
    rewrite Hst. cbn. by rewrite with_peer_same.
  - apply mark_open_open.
  - intros st Hst Hne. split.
    + intros Hflr. unfold mark_open, mbind, NodeM_bind, liftP, liftR, getitem.
      rewrite Hst. cbn [fst snd]. rewrite with_peer_same.
      rewrite bool_decide_eq_false_2 by done. by rewrite Hflr.
    + intros Hflr.
      assert (channel_state (peer (opened chan nd)) !! channel_id chan
              = Some "OPEN"%string) as Hopen.
      { unfold opened. cbn. by rewrite lookup_insert_eq. }
      split_and!; [by eapply mark_open_fresh|by apply mark_open_open|done|done|].
      destruct (sorted_pair_sorted (peer_pubkey (peer nd)) (lnworker_pubkey nd))
        as [Hsorted Hperm].
      eexists _, _, _, _, _. split; [reflexivity|].
      split_and!; [reflexivity|reflexivity|exact Hsorted| |reflexivity|reflexivity].
      destruct (sorted_pair _ _) as [k1 k2]. simpl. destruct Hperm; [left|right]; done.
Qed.

(** X25. [on_funding_locked] raises for an unknown channel.  The first
    [funding_locked] of a channel moves the remote's next per-commitment
    point to the current one, stores the point of the payload as the next
    one, sets [funding_locked_received], saves the channel, and then marks it
    open if its short channel id is known.  A repeated [funding_locked] does
    not read the payload's point, changes nothing in the channel and saves
    nothing; for a channel that is already [OPEN], or whose short channel id
    is unknown, it has no effect at all. *)
Theorem on_funding_locked_outcomes (fields : gmap string pyval) (nd : Node) (cid : bytes) :
  getbytes fields "channel_id" = Ok cid ->
  (channels (peer nd) !! cid = None ->
   on_funding_locked fields nd
   = (nd, Raised (Exception ("('Got unknown funding_locked', " +:+ repr_bytes cid +:+ ")"))))
  /\ (forall chan their,
        channels (peer nd) !! cid = Some chan ->
        funding_locked_received (local_state chan) = false ->
        getbytes fields "next_per_commitment_point" = Ok their ->
        let chan' :=
          set_local_state
            (set_remote_state chan
               (replace_per_commitment_points (remote_state chan) their
                  (next_per_commitment_point (remote_state chan))))
            (replace_funding_locked_received (local_state chan) true) in
        let nd1 :=
          with_outside (outside nd ++ [SaveChannel chan'])
            (with_peer (set_channels (<[cid := chan']> (channels (peer nd))) (peer nd)) nd) in
        on_funding_locked fields nd
        = (if short_channel_id_truthy chan then mark_open chan' nd1 else (nd1, Return tt))
        /\ current_per_commitment_point (remote_state chan')
           = Some (next_per_commitment_point (remote_state chan))
        /\ next_per_commitment_point (remote_state chan') = their
        /\ funding_locked_received (local_state chan') = true
        /\ remote_ctn (remote_state chan') = remote_ctn (remote_state chan)
        /\ local_ctn (local_state chan') = local_ctn (local_state chan))
  /\ (forall chan,
        channels (peer nd) !! cid = Some chan ->
        funding_locked_received (local_state chan) = true ->
        on_funding_locked fields nd
        = (if short_channel_id_truthy chan then mark_open chan nd else (nd, Return tt))
        /\ (short_channel_id_truthy chan = false
            \/ channel_state (peer nd) !! channel_id chan = Some "OPEN"%string ->
            on_funding_locked fields nd = (nd, Return tt))).
Proof.
  intros Hc. split_and!.
  - intros Hnone. unfold on_funding_locked, mbind, NodeM_bind, liftR, getsN.
    rewrite Hc. cbn. by rewrite Hnone.
  - intros chan their Hchan Hflr Hp chan' nd1. split; [|done].
    unfold on_funding_locked, mbind, NodeM_bind, liftR, getsN.
    rewrite Hc. cbn [fst snd]. rewrite Hchan, Hflr. cbn [negb].
    rewrite Hp. unfold channels_store, save_channel, callN, modifyN, liftP, modify.
    cbn [fst snd mret NodeM_ret peer with_peer outside with_outside].
    fold chan'.
    assert (short_channel_id_truthy chan' = short_channel_id_truthy chan) as -> by done.
    by destruct (short_channel_id_truthy chan).
  - intros chan Hchan Hflr.
    assert (on_funding_locked fields nd
            = (if short_channel_id_truthy chan then mark_open chan nd else (nd, Return tt)))
      as Heq.
    { unfold on_funding_locked, mbind, NodeM_bind, liftR, getsN.
      rewrite Hc. cbn [fst snd]. rewrite Hchan, Hflr. cbn.
      by destruct (short_channel_id_truthy chan). }
    split; [done|]. rewrite Heq. intros [Hs|Hopen].
    + by rewrite Hs.
    + destruct (short_channel_id_truthy chan); [|done]. by apply mark_open_open.
Qed.

(** X26. [funding_locked] marks the channel open only when the remote's
    [funding_locked] has been received: otherwise it leaves every channel
    state and the channel database alone, whatever the send does; when it
    has been received and the message is sent, it goes on to [mark_open]. *)
Theorem funding_locked_opens_only_after_receipt (chan : Channel) (nd : Node) :
  (funding_locked_received (local_state chan) = false ->
   channel_state (peer (funding_locked chan nd).1) = channel_state (peer nd)
   /\ channels (peer (funding_locked chan nd).1) = channels (peer nd)
   /\ outside (funding_locked chan nd).1 = outside nd)
  /\ (forall msg p',
        funding_locked_received (local_state chan) = true ->
        gen_msg structured "funding_locked"
          (kwargs [("channel_id", VBytes (channel_id chan));
                   ("next_per_commitment_point",
                    VBytes (secret_to_pubkey
                              (int_from_bytes
                                 (get_per_commitment_secret_from_seed
                                    (per_commitment_secret_seed (local_state chan))
                                    (2 ^ 48 - 2)))))]%string) = Ok msg ->
        send_message msg (peer nd) = (p', Ok tt) ->
        funding_locked chan nd = mark_open chan (with_peer p' nd)).
Proof.
  split.
  - intros Hflr. unfold funding_locked, mbind, NodeM_bind, liftR, liftP.
    destruct (gen_msg _ _ _) as [msg|]; cbn [fst snd]; [|done].
    pose proof (send_message_keeps_channels msg (peer nd)) as [Hch Hst].
    destruct (send_message msg (peer nd)) as [p' [[]|e]]; cbn [fst snd] in *.
    + rewrite Hflr. cbn. done.
    + done.
  - intros msg p' Hflr Hgen Hsend. unfold funding_locked, mbind, NodeM_bind, liftR, liftP.
    rewrite Hgen. cbn [fst snd]. rewrite Hsend. by rewrite Hflr.
Qed.

End Opening.

Lemma on_funding_locked_outcomes_witness :
  on_funding_locked
    (kwargs [("channel_id", VBytes (replicate 32 x07));
             ("next_per_commitment_point", VBytes (x03 :: replicate 32 x0e))]%string)
    scenario_node
  = (scenario_node,
     Raised (Exception ("('Got unknown funding_locked', " +:+ repr_bytes (replicate 32 x07)
                        +:+ ")"))).
Proof.
  exact (proj1 (on_funding_locked_outcomes
                  (kwargs [("channel_id", VBytes (replicate 32 x07));
                           ("next_per_commitment_point",
                            VBytes (x03 :: replicate 32 x0e))]%string)
                  scenario_node (replicate 32 x07) eq_refl) eq_refl).
Defined.

(** ** Announcing a channel *)

(** X27. [send_announcement_signatures], which builds the message that both
    sides sign, and [handle_announcements], which builds the one that is
    published, put node ids and bitcoin keys in the same order: the node ids
    ascending as byte strings, and each bitcoin key, node signature and
    bitcoin signature kept with the node it belongs to. *)
Theorem announcement_orders_agree {A B : Type} (own remote : bytes)
    (key_own key_remote : bytes) (nsig_own nsig_remote : A) (bsig_own bsig_remote : B) :
  let signing := announcement_order_signing (own, remote) (key_own, key_remote) in
  let final := announcement_order_final (own, remote) (nsig_own, nsig_remote)
                 (bsig_own, bsig_remote) (key_own, key_remote) in
  signing = (final.1.1.1, final.2)
  /\ bytes_lt final.1.1.1.2 final.1.1.1.1 = false
  /\ (final = ((own, remote), (nsig_own, nsig_remote), (bsig_own, bsig_remote),
               (key_own, key_remote))
      \/ final = ((remote, own), (nsig_remote, nsig_own), (bsig_remote, bsig_own),
                  (key_remote, key_own))).
Proof.
  intros signing final. subst signing final.
  unfold announcement_order_signing, announcement_order_final, sorted_pair. cbn [fst snd].
  destruct (bytes_lt remote own) eqn:Hlt; cbn [fst snd].
  - rewrite bool_decide_eq_true_2.
    + split_and!; [done|by apply bytes_lt_asym|by right].
    + intros Heq. injection Heq as -> _. by rewrite bytes_lt_irrefl in Hlt.
  - rewrite bool_decide_eq_false_2 by (intros Hne; by apply Hne).
    split_and!; [done|done|by left].
Qed.

Section Announcement.
Context `{Env} `{Crypto}.

Lemma gen_msg_ignores_two (typ : message) (kw : gmap string pyval) (f1 f2 : string)
    (v1 v2 : pyval) :
  ordered_getitem structured "channel_announcement" = Ok typ ->
  f1 ∉ (payload typ).*1 -> f2 ∉ (payload typ).*1 ->
  gen_msg structured "channel_announcement" (<[f1 := v1]> (<[f2 := v2]> kw))
  = gen_msg structured "channel_announcement" kw.
Proof.
  intros Htyp Hf1 Hf2. unfold gen_msg. rewrite Htyp. cbn [mbind result_bind].
  destruct (int_of_str (type typ)); cbn [mbind result_bind]; [|done].
  destruct (to_bytes _ 2); cbn [mbind result_bind]; [|done].
  rewrite gen_loop_ignores; [|intros p Hin; destruct Hf1; apply list_elem_of_fmap;
                                by exists (f1, p)|apply lookup_empty].
  apply gen_loop_ignores; [|apply lookup_empty].
  intros p Hin. destruct Hf2. apply list_elem_of_fmap. by exists (f2, p).
Qed.

(** X28. [handle_announcements] hands the two node signatures to [gen_msg]
    under the keywords [node_signatures_1] and [node_signatures_2].  Unless
    the schema's [channel_announcement] has fields of exactly these names,
    they never reach the message: once the remote's two signatures have
    verified, the announcement that is sent is the one built without any
    node signature, the same whatever the two node signatures are. *)
Theorem handle_announcements_node_signatures (chan : Channel) (typ : message)
    (h local_node_sig local_bitcoin_sig : bytes) (fields : gmap string pyval) (nd : Node)
    (remote_node_sig remote_bitcoin_sig own : bytes) :
  ordered_getitem structured "channel_announcement" = Ok typ ->
  "node_signatures_1"%string ∉ (payload typ).*1 ->
  "node_signatures_2"%string ∉ (payload typ).*1 ->
  getbytes fields "node_signature" = Ok remote_node_sig ->
  getbytes fields "bitcoin_signature" = Ok remote_bitcoin_sig ->
  verify_signature (pubkey (multisig_key (remote_config chan))) remote_bitcoin_sig h = true ->
  verify_signature (peer_pubkey (peer nd)) remote_node_sig h = true ->
  privkey_to_pubkey (node_privkey nd) = Ok own ->
  let final := announcement_order_final (own, peer_pubkey (peer nd))
                 (local_node_sig, remote_node_sig) (local_bitcoin_sig, remote_bitcoin_sig)
                 (pubkey (multisig_key (local_config chan)),
                  pubkey (multisig_key (remote_config chan))) in
  handle_announcements_resume chan h local_node_sig local_bitcoin_sig fields nd
  = (channel_announcement ← liftR (gen_msg structured "channel_announcement"
        (kwargs [("bitcoin_signature_1", VBytes final.1.2.1);
                 ("bitcoin_signature_2", VBytes final.1.2.2);
                 ("len", VInt 0);
                 ("chain_hash", VBytes REV_GENESIS);
                 ("short_channel_id", short_channel_id_value chan);
                 ("node_id_1", VBytes final.1.1.1.1);
                 ("node_id_2", VBytes final.1.1.1.2);
                 ("bitcoin_key_1", VBytes final.2.1);
                 ("bitcoin_key_2", VBytes final.2.2)]%string));
     liftP (send_message channel_announcement)) nd.
Proof.
  intros Htyp Hf1 Hf2 Hn Hb Hvb Hvn Hown final.
  unfold handle_announcements_resume, mbind at 1 2 3 4 5, NodeM_bind, liftR at 1 2 3, getsN.
  rewrite Hn, Hb. cbn [fst snd]. rewrite Hvb. cbn [negb fst snd]. rewrite Hvn.
  cbn [negb]. rewrite Hown. cbn [fst snd]. fold final.
  destruct final as [[[node_ids node_sigs] bitcoin_sigs] bitcoin_keys]. cbn [fst snd].
  unfold mbind, NodeM_bind. unfold kwargs at 1. cbn [list_to_map foldr fst snd].
  by rewrite (gen_msg_ignores_two typ).
Qed.

End Announcement.

Lemma handle_announcements_node_signatures_witness :
  let fields := kwargs [("node_signature", VBytes (replicate 64 x0a));
                        ("bitcoin_signature", VBytes (replicate 64 x0b))]%string in
  let run local_node_sig :=
    @handle_announcements_resume announcing_env scenario_crypto scenario_buried_channel
      (replicate 32 x05) local_node_sig (replicate 64 x0c) fields scenario_node in
  let announcement :=
    [x01; x00] ++ replicate 128 x00 ++ replicate 64 x0c ++ replicate 64 x0b
    ++ [x00; x00] ++ replicate 32 x6f ++ [x00; x00; x01; x00; x00; x02; x00; x00]
    ++ (x02 :: replicate 32 x11) ++ (x02 :: replicate 32 x99)
    ++ (x02 :: replicate 32 x22) ++ (x02 :: replicate 32 x22) in
  run (replicate 64 x01) = run (replicate 64 x02)
  /\ (run (replicate 64 x01)).2 = Return tt
  /\ trace (peer (run (replicate 64 x01)).1)
     = [EvWrite
          (scenario_encrypt (replicate 32 x01) (replicate 12 x00)
             (be_digits 2 (len announcement)) []
           ++ scenario_encrypt (replicate 32 x01)
                (replicate 4 x00 ++ x01 :: replicate 7 x00) announcement [])].
Proof.
  intros fields run announcement. subst run. cbv beta.
  pose proof
    (@handle_announcements_node_signatures announcing_env scenario_crypto
       scenario_buried_channel channel_announcement_message (replicate 32 x05)
       (replicate 64 x01) (replicate 64 x0c) fields scenario_node (replicate 64 x0a)
       (replicate 64 x0b) (x02 :: replicate 32 x11) eq_refl) as HA.
  pose proof
    (@handle_announcements_node_signatures announcing_env scenario_crypto
       scenario_buried_channel channel_announcement_message (replicate 32 x05)
       (replicate 64 x02) (replicate 64 x0c) fields scenario_node (replicate 64 x0a)
       (replicate 64 x0b) (x02 :: replicate 32 x11) eq_refl) as HB.
  assert (H1 : "node_signatures_1"%string ∉ (payload channel_announcement_message).*1)
    by (cbn; rewrite !elem_of_cons, elem_of_nil; naive_solver).
  assert (H2 : "node_signatures_2"%string ∉ (payload channel_announcement_message).*1)
    by (cbn; rewrite !elem_of_cons, elem_of_nil; naive_solver).
  specialize (HA H1 H2 eq_refl eq_refl eq_refl eq_refl eq_refl).
  specialize (HB H1 H2 eq_refl eq_refl eq_refl eq_refl eq_refl).
  cbv zeta in HA, HB.
  split_and!.
  - exact (eq_trans HA (eq_sym HB)).
  - rewrite HA. vm_compute. reflexivity.
  - rewrite HA. vm_compute. reflexivity.
Defined.

(** ** Paying *)

Lemma sum_list_from (a : Z) (l : list Z) : foldl Z.add a l = a + sum_list l.
Proof.
  unfold sum_list. revert a. induction l as [|x l IH]; intros a; cbn [foldl]; [lia|].
  rewrite (IH (a + x)), (IH (0 + x)). lia.
Qed.

Lemma slice_from_1 {A} (l : list A) : slice_from l 1 = drop 1 l.
Proof.
  unfold slice_from, adjust_index, len. cbn [Z.ltb Z.compare].
  destruct l as [|x l]; [done|].
  rewrite Z.min_l by (cbn [length]; lia). done.
Qed.

Section PayAmounts.
Variable amount_msat expiry : Z.

Lemma pay_hops_ok (edges : list PolicyEdge) (hops : list OnionPerHop) (fee : Z) :
  0 <= amount_msat < 2 ^ 64 -> 0 <= expiry < 2 ^ 32 ->
  pay_hops edges amount_msat expiry hops fee
  = Ok (hops ++ ((fun e => MkOnionPerHop (edge_short_channel_id (route_edge e))
                             (be_digits 8 amount_msat) (be_digits 4 expiry)) <$> edges),
        fee + sum_list ((fun e => fee_base_msat (channel_policy e)
                                  + amount_msat
                                    * fee_proportional_millionths (channel_policy e)
                                    / 1000000) <$> edges)).
Proof.
  intros Ha He. revert hops fee.
  induction edges as [|e edges IH]; intros hops fee; cbn [pay_hops fmap list_fmap].
  - rewrite app_nil_r. unfold sum_list. cbn. by rewrite Z.add_0_r.
  - rewrite !to_bytes_ok by (try done; lia). cbn [mbind result_bind].
    rewrite IH, <- app_assoc. cbn [app]. do 2 f_equal.
    unfold sum_list at 2. cbn [foldl]. rewrite sum_list_from. lia.
Qed.

Lemma pay_hops_overflow (edges : list PolicyEdge) (hops : list OnionPerHop) (fee : Z) :
  0 <= amount_msat -> 2 ^ 64 <= amount_msat \/ expiry < 0 \/ 2 ^ 32 <= expiry ->
  pay_hops edges amount_msat expiry hops fee
  = match edges with [] => Ok (hops, fee) | _ => Raise OverflowError end.
Proof.
  intros Ha Hbad. destruct edges as [|e edges]; [done|]. cbn [pay_hops].
  unfold to_bytes. cbn [Z.ltb Z.compare].
  destruct (Z.ltb_spec amount_msat 0); [lia|].
  change (256 ^ 8) with (2 ^ 64). change (256 ^ 4) with (2 ^ 32).
  destruct (Z.leb_spec (2 ^ 64) amount_msat); [done|]. cbn [mbind result_bind].
  destruct (Z.ltb_spec expiry 0); [done|].
  destruct (Z.leb_spec (2 ^ 32) expiry); [done|lia].
Qed.

End PayAmounts.

(** X29. What [pay] computes before it sends [update_add_htlc].  An amount
    that is not positive fails the assertion.  An amount of 2^64 or more, or
    a final expiry (height plus the invoice's minimum) outside 32 bits, is an
    [OverflowError].  Otherwise every hop's onion payload, the last one
    included, carries the same amount and the same expiry, those of the final
    hop: fees and expiry deltas are not layered into the payloads.  The fee
    is the sum over the route without its first edge of base fee plus
    proportional fee rounded down; the message carries amount plus fee and
    the expiry with all deltas added, while the recorded HTLC keeps the amount
    without the fee; and what the local balance loses the remote one gains. *)
Theorem pay_prepare_outcomes
    (new_onion_packet : list bytes -> bytes -> list OnionPerHop -> bytes -> result bytes)
    (route : list PolicyEdge) (local_amount remote_amount amount_msat : Z)
    (payment_hash : bytes) (height min_final_cltv_expiry : Z) (secret_key : bytes) :
  let expiry := height + min_final_cltv_expiry in
  let payload scid := MkOnionPerHop scid (be_digits 8 amount_msat) (be_digits 4 expiry) in
  let hops := ((fun e => payload (edge_short_channel_id (route_edge e))) <$> drop 1 route)
              ++ [payload (replicate 8 x00)] in
  let fee := sum_list ((fun e => fee_base_msat (channel_policy e)
                                 + amount_msat
                                   * fee_proportional_millionths (channel_policy e)
                                   / 1000000) <$> drop 1 route) in
  let deltas := sum_list ((fun e => cltv_expiry_delta (channel_policy e)) <$> drop 1 route) in
  let run := pay_prepare new_onion_packet route local_amount remote_amount amount_msat
               payment_hash height min_final_cltv_expiry secret_key in
  (amount_msat <= 0 -> run = Raise AssertionError)
  /\ (0 < amount_msat -> 2 ^ 64 <= amount_msat \/ expiry < 0 \/ 2 ^ 32 <= expiry ->
      run = Raise OverflowError)
  /\ (0 < amount_msat < 2 ^ 64 -> 0 <= expiry < 2 ^ 32 ->
      length hops = Nat.max 1 (length route)
      /\ match new_onion_packet ((fun x => edge_node_id (route_edge x)) <$> route)
                 secret_key hops payment_hash with
         | Raise e => run = Raise e
         | Ok onion =>
             exists plan, run = Ok plan
               /\ hops_data plan = hops
               /\ total_fee plan = fee
               /\ final_cltv_expiry_with_deltas plan = expiry + deltas
               /\ sent_amount_msat plan = amount_msat + fee
               /\ htlc plan = MkUpdateAddHtlc amount_msat payment_hash (expiry + deltas) fee
               /\ onion_routing_packet plan = onion
               /\ msat_local plan + msat_remote plan = local_amount + remote_amount
               /\ msat_local plan = local_amount - sent_amount_msat plan
         end).
Proof.
  intros expiry payload hops fee deltas run. subst run. unfold pay_prepare.
  rewrite !slice_from_1. fold expiry. split_and!.
  - intros Ha. destruct (Z.ltb_spec 0 amount_msat); [lia|done].
  - intros Ha Hbad. destruct (Z.ltb_spec 0 amount_msat); [|lia].
    cbn [assert mbind result_bind].
    rewrite pay_hops_overflow by (try done; lia).
    assert (Hfinal : (amt ← to_bytes amount_msat 8; cltv ← to_bytes expiry 4;
                      Ok (amt, cltv)) = Raise OverflowError).
    { unfold to_bytes. cbn [Z.ltb Z.compare].
      destruct (Z.ltb_spec amount_msat 0); [lia|].
      change (256 ^ 8) with (2 ^ 64). change (256 ^ 4) with (2 ^ 32).
      destruct (Z.leb_spec (2 ^ 64) amount_msat); [done|]. cbn [mbind result_bind].
      destruct (Z.ltb_spec expiry 0); [done|].
      destruct (Z.leb_spec (2 ^ 32) expiry); [done|lia]. }
    destruct (drop 1 route); [|done]. cbn [mbind result_bind].
    destruct (to_bytes amount_msat 8); cbn [mbind result_bind] in *; [|by simplify_eq].
    destruct (to_bytes expiry 4); cbn [mbind result_bind] in *; by simplify_eq.
  - intros Ha He. split.
    { subst hops. rewrite length_app, length_fmap, length_drop. cbn [length]. lia. }
    destruct (Z.ltb_spec 0 amount_msat); [|lia]. cbn [assert mbind result_bind].
    rewrite pay_hops_ok by lia. cbn [mbind result_bind app].
    rewrite !to_bytes_ok by (try done; lia). cbn [mbind result_bind].
    change (Z.to_nat 8) with 8%nat. change (Z.to_nat 4) with 4%nat.
    rewrite Z.add_0_l. fold fee. fold deltas. subst hops payload. cbn beta.
    destruct (new_onion_packet _ secret_key _ payment_hash) as [onion|e];
      cbn [mbind result_bind]; [|done].
    eexists. split; [done|]. cbn. split_and!; try done; lia.
Qed.

(** ** Receiving a commitment *)

Lemma slice_take_64 {A} (data : list A) : slice data 0 64 = take 64 data.
Proof.
  unfold slice. cbv zeta.
  assert (H0 : adjust_index 0 (len data) = 0) by (unfold adjust_index, len; cbn; lia).
  assert (H1 : adjust_index 64 (len data) = Z.min 64 (len data)) by done.
  rewrite H0, H1, Z.sub_0_r. change (Z.to_nat 0) with 0%nat. rewrite drop_0.
  unfold len. destruct (Z.le_ge_cases 64 (Z.of_nat (length data))).
  - rewrite Z.min_l by lia. reflexivity.
  - rewrite Z.min_r by lia. rewrite Nat2Z.id, !take_ge by lia. done.
Qed.

Lemma slice_drop {A} (data : list A) (d a b : Z) :
  0 <= d -> 0 <= a -> 0 <= b ->
  slice data (a + d) (b + d) = slice (drop (Z.to_nat d) data) a b.
Proof.
  intros Hd Ha Hb. unfold slice, adjust_index, len. rewrite length_drop.
  destruct (Z.ltb_spec (a + d) 0); [lia|]. destruct (Z.ltb_spec (b + d) 0); [lia|].
  destruct (Z.ltb_spec a 0); [lia|]. destruct (Z.ltb_spec b 0); [lia|].
  rewrite drop_drop.
  destruct (Z.le_ge_cases d (Z.of_nat (length data))).
  - f_equal; [lia|f_equal; lia].
  - rewrite !take_ge; [|rewrite length_drop; lia|rewrite length_drop; lia].
    rewrite !drop_ge by lia. done.
Qed.

Lemma htlc_sig_chunks_nil : htlc_sig_chunks [] = [].
Proof. done. Qed.

Lemma htlc_sig_chunks_cons (data : bytes) :
  data <> [] -> htlc_sig_chunks data = take 64 data :: htlc_sig_chunks (drop 64 data).
Proof.
  intros Hne. assert (0 < len data) by (unfold len; destruct data; [done|cbn; lia]).
  unfold htlc_sig_chunks, range_step.
  assert (Hk : (len data + 64 - 1) / 64 = 1 + (len (drop 64 data) + 64 - 1) / 64).
  { unfold len in *. rewrite length_drop. Z.div_mod_to_equations. lia. }
  rewrite Hk.
  set (k := (len (drop 64 data) + 64 - 1) / 64).
  assert (0 <= k) by (apply Z.div_pos; unfold len; lia).
  rewrite seqZ_cons by lia. replace (Z.pred (1 + k)) with k by lia.
  cbn [fmap list_fmap]. change (64 * 0) with 0. change (0 + 64) with 64.
  rewrite slice_take_64. f_equal.
  change (Z.succ 0) with (1 + 0). rewrite <- fmap_add_seqZ, <- !list_fmap_compose.
  apply list_fmap_ext. intros i j Hj. cbn [compose].
  apply lookup_seqZ in Hj as [-> Hi].
  replace (64 * (1 + (0 + Z.of_nat i))) with (64 * (0 + Z.of_nat i) + 64) by lia.
  replace (64 * (0 + Z.of_nat i) + 64 + 64) with (64 * (0 + Z.of_nat i) + 64 + 64) by lia.
  rewrite (slice_drop data 64) by lia. done.
Qed.

Lemma htlc_sig_chunks_shape (data : bytes) :
  mjoin (htlc_sig_chunks data) = data
  /\ Forall (fun c => 1 <= len c <= 64) (htlc_sig_chunks data).
Proof.
  remember (length data) as n eqn:Hn. revert data Hn.
  induction (lt_wf n) as [n _ IH]. intros data ->.
  destruct (decide (data = [])) as [->|Hne]; [by rewrite htlc_sig_chunks_nil|].
  assert (0 < length data)%nat by (destruct data; [done|cbn [length]; lia]).
  rewrite htlc_sig_chunks_cons by done.
  destruct (IH (length (drop 64 data))) with (data := drop 64 data)
    as [Hjoin Hall]; [rewrite length_drop; lia|done|].
  split.
  - change (mjoin (take 64 data :: htlc_sig_chunks (drop 64 data)))
      with (take 64 data ++ mjoin (htlc_sig_chunks (drop 64 data))).
    rewrite Hjoin. apply take_drop.
  - constructor; [|done]. unfold len. rewrite length_take. lia.
Qed.

Lemma htlc_sig_chunks_join (sigs : list bytes) :
  Forall (fun s => len s = 64) sigs -> htlc_sig_chunks (mjoin sigs) = sigs.
Proof.
  induction 1 as [|s sigs Hs _ IH]; [done|].
  change (mjoin (s :: sigs)) with (s ++ mjoin sigs).
  assert (length s = 64%nat) by (unfold len in Hs; lia).
  rewrite htlc_sig_chunks_cons by (destruct s; [done|done]).
  rewrite take_app_length', drop_app_length' by done. by rewrite IH.
Qed.

(** X30. [receive_commitment] cuts the [htlc_signature] field into
    consecutive pieces of 64 bytes, a shorter rest counting as one more
    piece, hands them to [receive_new_commitment] and returns their number,
    the length divided by 64 and rounded up.  No byte is dropped or moved,
    no piece is empty, and when the field is the concatenation of 64-byte
    signatures, as [pay] sends it, the pieces are exactly those signatures. *)
Theorem receive_commitment_signatures `{Env} (m : Channel) (fields : gmap string pyval)
    (data sig : bytes) :
  getbytes fields "htlc_signature" = Ok data ->
  getbytes fields "signature" = Ok sig ->
  let htlc_sigs := htlc_sig_chunks data in
  receive_commitment m fields
  = (m' ← receive_new_commitment m sig htlc_sigs; Ok (m', (len data + 63) / 64))
  /\ mjoin htlc_sigs = data
  /\ Forall (fun c => 1 <= len c <= 64) htlc_sigs
  /\ (forall sigs, Forall (fun s => len s = 64) sigs -> data = mjoin sigs -> htlc_sigs = sigs).
Proof.
  intros Hdata Hsig htlc_sigs. subst htlc_sigs. split_and!.
  - unfold receive_commitment. rewrite Hdata, Hsig. cbn [mbind result_bind].
    replace (len (htlc_sig_chunks data)) with ((len data + 63) / 64); [done|].
    unfold htlc_sig_chunks, range_step, len at 2. rewrite !length_fmap, length_seqZ.
    rewrite Z2Nat.id; [f_equal; lia|]. apply Z.div_pos; unfold len; lia.
  - apply htlc_sig_chunks_shape.
  - apply htlc_sig_chunks_shape.
  - intros sigs Hall ->. by apply htlc_sig_chunks_join.
Qed.

Lemma receive_commitment_signatures_witness :
  receive_commitment scenario_channel
    (kwargs [("signature", VBytes (replicate 64 x51));
             ("htlc_signature", VBytes (replicate 64 x01 ++ replicate 64 x02 ++ [x03]))]%string)
  = Ok (scenario_channel, 3).
Proof.
  exact (proj1 (receive_commitment_signatures scenario_channel
    (kwargs [("signature", VBytes (replicate 64 x51));
             ("htlc_signature", VBytes (replicate 64 x01 ++ replicate 64 x02 ++ [x03]))]%string)
    (replicate 64 x01 ++ replicate 64 x02 ++ [x03]) (replicate 64 x51) eq_refl eq_refl)).
Defined.
